(** * call_reminder: the reminder scheduler and the Vapi call trigger

    A shallow embedding of [backend/app/services/vapi.py] and
    [backend/app/services/scheduler.py], with the models and schemas they
    use, and the properties of the scheduling loop proved over it.

    Python exceptions are values of [Exn]; a call that may raise returns
    an [Outcome].  What the outside world answers (the HTTP provider, the
    database, the clock) is an argument of the functions, so every
    definition computes. *)

From Stdlib Require Import ZArith String List Bool Lia.
From stdpp Require Import base option list strings pretty gmap fin_maps sorting.

Set Warnings "-register-all".

Open Scope Z_scope.
Open Scope string_scope.

(** ** Exceptions *)

(** The classes the handlers of [trigger_call] tell apart: an instance
    of [httpx.TimeoutException], an instance of [httpx.RequestError] that
    is no timeout, and any other instance of [Exception]. *)
Inductive ExnClass := TimeoutException | RequestError | OtherException.

(** An exception object: its class and the text [str(e)] gives.  Only
    subclasses of [Exception] are modelled. *)
Record Exn := MkExn { exn_class : ExnClass; exn_str : string }.

Inductive Outcome (A : Type) :=
  | Ok (a : A)
  | Raise (e : Exn).
Arguments Ok {A} a.
Arguments Raise {A} e.

Definition bind_outcome {A B} (o : Outcome A) (k : A -> Outcome B) : Outcome B :=
  match o with
  | Ok a => k a
  | Raise e => Raise e
  end.

(** [try: o  except Exception as e: h e]. *)
Definition catch_outcome {A} (o : Outcome A) (h : Exn -> Outcome A) : Outcome A :=
  match o with
  | Ok a => Ok a
  | Raise e => h e
  end.

(** ** Decoded JSON values, as [response.json()] returns them

    Strings are sequences of code points below 256.  A float is known by
    the text [repr] prints for it, which is all the code does with one. *)

Inductive Json :=
  | JNull
  | JBool (b : bool)
  | JNum (n : Z)
  | JFloat (repr : string)
  | JStr (s : string)
  | JArr (xs : list Json)
  | JObj (fields : list (string * Json)).

(** [d.get(key)] on a decoded object: the binding of [key], if any. *)
Fixpoint dict_get (key : string) (fields : list (string * Json)) : option Json :=
  match fields with
  | [] => None
  | (k, v) :: rest => if String.eqb k key then Some v else dict_get key rest
  end.

Definition join_with (sep : string) (parts : list string) : string :=
  match parts with
  | [] => EmptyString
  | p :: ps => fold_left (fun acc q => acc +:+ sep +:+ q) ps p
  end.

(** *** [repr] of a [str] *)

Definition single_quote : Ascii.ascii := Ascii.ascii_of_nat 39.
Definition double_quote : Ascii.ascii := Ascii.ascii_of_nat 34.
Definition backslash : Ascii.ascii := Ascii.ascii_of_nat 92.

Fixpoint has_char (c : Ascii.ascii) (s : string) : bool :=
  match s with
  | EmptyString => false
  | String c' s' => Ascii.eqb c c' || has_char c s'
  end.

(** The quote [repr] puts around [s]: a single quote, unless [s] holds
    single quotes and no double quote. *)
Definition repr_quote (s : string) : Ascii.ascii :=
  if has_char single_quote s && negb (has_char double_quote s) then double_quote
  else single_quote.

Definition hex_digit (n : nat) : Ascii.ascii :=
  Ascii.ascii_of_nat (if Nat.ltb n 10 then 48 + n else 87 + n).

(** [\xhh]. *)
Definition hex_escape (n : nat) : string :=
  String backslash
    (String (Ascii.ascii_of_nat 120)
       (String (hex_digit (Nat.div n 16))
          (String (hex_digit (Nat.modulo n 16)) EmptyString))).

(** [str.isprintable] on one code point below 256: the control
    characters, the no-break space and the soft hyphen are not. *)
Definition printable (n : nat) : bool :=
  (Nat.leb 32 n && Nat.ltb n 127) || (Nat.leb 161 n && negb (Nat.eqb n 173)).

(** What [repr] prints for one character of a string quoted with
    [quote]. *)
Definition repr_char (quote c : Ascii.ascii) : string :=
  let n := Ascii.nat_of_ascii c in
  if Ascii.eqb c quote || Ascii.eqb c backslash then
    String backslash (String c EmptyString)
  else if Nat.eqb n 9 then String backslash (String (Ascii.ascii_of_nat 116) EmptyString)
  else if Nat.eqb n 10 then String backslash (String (Ascii.ascii_of_nat 110) EmptyString)
  else if Nat.eqb n 13 then String backslash (String (Ascii.ascii_of_nat 114) EmptyString)
  else if printable n then String c EmptyString
  else hex_escape n.

Fixpoint repr_chars (quote : Ascii.ascii) (s : string) : string :=
  match s with
  | EmptyString => EmptyString
  | String c s' => repr_char quote c +:+ repr_chars quote s'
  end.

Definition repr_str (s : string) : string :=
  let quote := repr_quote s in
  String quote (repr_chars quote s +:+ String quote EmptyString).

(** [repr] of a decoded value. *)
Fixpoint py_repr (j : Json) : string :=
  match j with
  | JNull => "None"
  | JBool true => "True"
  | JBool false => "False"
  | JNum n => pretty n
  | JFloat repr => repr
  | JStr s => repr_str s
  | JArr xs => "[" +:+ join_with ", " (map py_repr xs) +:+ "]"
  | JObj fields =>
      "{" +:+ join_with ", "
                (map (fun kv => repr_str (fst kv) +:+ ": " +:+ py_repr (snd kv)) fields)
          +:+ "}"
  end.

(** What an f-string prints for a decoded value: a string prints as
    itself, anything else as its [repr]. *)
Definition py_str (j : Json) : string :=
  match j with
  | JStr s => s
  | _ => py_repr j
  end.

(** The double quote character, for the texts that hold one. *)
Definition dquote : string := String (Ascii.ascii_of_nat 34) EmptyString.

(** Truthiness of a [str]: [not s] holds for the empty string only. *)
Definition str_truthy (s : string) : bool :=
  match s with
  | EmptyString => false
  | String _ _ => true
  end.

Module Vapi.

(** *** schemas/vapi.py *)

Inductive VapiCallStatus := queued | ringing | in_progress | forwarding | ended.

Definition parse_call_status (s : string) : option VapiCallStatus :=
  if String.eqb s "queued" then Some queued
  else if String.eqb s "ringing" then Some ringing
  else if String.eqb s "in-progress" then Some in_progress
  else if String.eqb s "forwarding" then Some forwarding
  else if String.eqb s "ended" then Some ended
  else None.

Record VapiCallResponse := {
  id : string;
  org_id : option string;
  created_at : option string;
  updated_at : option string;
  type_ : option string;
  status : option VapiCallStatus;
  phone_number_id_ : option string;
  assistant_id_ : option string;
}.

(** A field declared with an alias and [populate_by_name = True]: read
    under the alias, else under the field's own name. *)
Definition field_get (alias name : string) (fields : list (string * Json)) : option Json :=
  match dict_get alias fields with
  | Some v => Some v
  | None => dict_get name fields
  end.

(** [str | None = Field(None, ...)]: the value of the field, or [None]
    when the payload is refused. *)
Definition opt_str_field (alias name : string) (fields : list (string * Json))
  : option (option string) :=
  match field_get alias name fields with
  | None | Some JNull => Some None
  | Some (JStr s) => Some (Some s)
  | Some _ => None
  end.

(** [VapiCallStatus | None = Field(None, ...)]. *)
Definition opt_status_field (fields : list (string * Json))
  : option (option VapiCallStatus) :=
  match dict_get "status" fields with
  | None | Some JNull => Some None
  | Some (JStr s) =>
      match parse_call_status s with
      | Some st => Some (Some st)
      | None => None
      end
  | Some _ => None
  end.

(** The payloads [VapiCallResponse] accepts: [id] is the one required
    field, every other field is optional, keys the schema does not name
    are ignored. *)
Definition validated (j : Json) : option VapiCallResponse :=
  match j with
  | JObj fields =>
      match dict_get "id" fields with
      | Some (JStr i) =>
          org ← opt_str_field "orgId" "org_id" fields;
          cr ← opt_str_field "createdAt" "created_at" fields;
          up ← opt_str_field "updatedAt" "updated_at" fields;
          ty ← opt_str_field "type" "type" fields;
          st ← opt_status_field fields;
          pn ← opt_str_field "phoneNumberId" "phone_number_id" fields;
          asst ← opt_str_field "assistantId" "assistant_id" fields;
          Some {| id := i; org_id := org; created_at := cr; updated_at := up;
                  type_ := ty; status := st; phone_number_id_ := pn;
                  assistant_id_ := asst |}
      | _ => None
      end
  | _ => None
  end.

(** [VapiCallResponse.model_validate]: a payload that is refused raises
    [ValidationError], whose text [rejection] is pydantic's. *)
Definition model_validate (rejection : string) (j : Json) : Outcome VapiCallResponse :=
  match validated j with
  | Some call_response => Ok call_response
  | None => Raise (MkExn OtherException rejection)
  end.

(** *** The HTTP provider, as [httpx] shows it to [trigger_call] *)

Record HttpRequest := {
  url : string;
  headers : list (string * string);
  payload : Json;
}.

(** A response, with what the libraries make of its body:
    [json = Raise e] when [response.json()] raises [e]; [rejection] is
    the text of the [ValidationError] pydantic raises for the decoded
    body when that is no call response. *)
Record Response := {
  status_code : Z;
  text : string;
  json : Outcome Json;
  rejection : string;
}.

(** What [client.post] does with a request: a response, or an exception
    (a timeout, a connection failure, anything else). *)
Definition HttpReply : Type := Outcome Response.

(** *** services/vapi.py *)

Record VapiCallResult := {
  success : bool;
  call_id : option string;
  error_message : option string;
}.

Record VapiService := {
  api_url : string;
  api_key : string;
  assistant_id : string;
  phone_number_id : string;
}.

Definition _get_headers (self : VapiService) : list (string * string) :=
  [("Authorization", "Bearer " +:+ api_key self);
   ("Content-Type", "application/json")].

Definition _validate_configuration (self : VapiService) : option string :=
  if negb (str_truthy (api_key self)) then Some "Vapi API key is not configured"
  else if negb (str_truthy (assistant_id self)) then Some "Vapi assistant ID is not configured"
  else if negb (str_truthy (phone_number_id self)) then Some "Vapi phone number ID is not configured"
  else None.

(** [request_data.model_dump(by_alias=True, exclude_none=True)]. *)
Definition request_payload (self : VapiService) (phone_number first_message : string) : Json :=
  JObj [("assistantId", JStr (assistant_id self));
        ("assistantOverrides", JObj [("firstMessage", JStr first_message)]);
        ("phoneNumberId", JStr (phone_number_id self));
        ("customer", JObj [("number", JStr phone_number)])].

(** [error_json.get("message", error_json.get("error", error_body))];
    [.get] on anything but an object raises, which the bare [except]
    turns into [error_body]. *)
Definition provider_message (r : Response) : string :=
  match json r with
  | Ok (JObj fields) =>
      match dict_get "message" fields with
      | Some v => py_str v
      | None =>
          match dict_get "error" fields with
          | Some v => py_str v
          | None => text r
          end
      end
  | _ => text r
  end.

Definition failure (msg : string) : VapiCallResult :=
  {| success := false; call_id := None; error_message := Some msg |}.

(** What [trigger_call] does with a response that arrived: the branch on
    [response.status_code], each with its own handler around the
    decoding. *)
Definition handle_response (r : Response) : Outcome VapiCallResult :=
  if Z.eqb (status_code r) 200 || Z.eqb (status_code r) 201 then
    catch_outcome
      (bind_outcome (json r) (fun response_json =>
       bind_outcome (model_validate (rejection r) response_json) (fun call_response =>
       Ok {| success := true; call_id := Some (id call_response);
             error_message := None |})))
      (fun e => Ok (failure ("Error parsing Vapi response: " +:+ exn_str e)))
  else
    Ok (failure ("Vapi API error (" +:+ pretty (status_code r) +:+ "): "
                 +:+ provider_message r)).

(** The request [trigger_call] posts. *)
Definition call_request (self : VapiService)
    (phone_number message reminder_title : string) : HttpRequest :=
  let first_message :=
    "Hello! This is your reminder about: " +:+ reminder_title +:+ ". " +:+ message in
  {| url := api_url self +:+ "/calls";
     headers := _get_headers self;
     payload := request_payload self phone_number first_message |}.

(** [trigger_call], with the provider's answer to each request as the
    argument [http].  The second component lists the requests that were
    sent, in order.  Logger calls are left out: they read no state and
    change none. *)
Definition trigger_call (self : VapiService) (http : HttpRequest -> HttpReply)
    (phone_number message reminder_title : string)
  : Outcome VapiCallResult * list HttpRequest :=
  match _validate_configuration self with
  | Some config_error => (Ok (failure config_error), [])
  | None =>
      let request := call_request self phone_number message reminder_title in
      (catch_outcome
         (bind_outcome (http request) handle_response)
         (fun e =>
            match exn_class e with
            | TimeoutException => Ok (failure "Vapi API request timed out")
            | RequestError => Ok (failure ("Vapi API request failed: " +:+ exn_str e))
            | OtherException =>
                Ok (failure ("Unexpected error calling Vapi API: " +:+ exn_str e))
            end),
       [request])
  end.

(** The text each handler of the network call puts in the result. *)
Definition transport_message (e : Exn) : string :=
  match exn_class e with
  | TimeoutException => "Vapi API request timed out"
  | RequestError => "Vapi API request failed: " +:+ exn_str e
  | OtherException => "Unexpected error calling Vapi API: " +:+ exn_str e
  end.

(** A provider that answers every request with the response [r]. *)
Definition always (r : Response) : HttpRequest -> HttpReply := fun _ => Ok r.

Definition sample_service : VapiService :=
  {| api_url := "https://api.vapi.ai"; api_key := "key";
     assistant_id := "asst"; phone_number_id := "pn" |}.

(** A response with status 201 and a call object in the body. *)
Definition created_201 : Response :=
  {| status_code := 201;
     text := "{" +:+ dquote +:+ "id" +:+ dquote +:+ ": "
             +:+ dquote +:+ "abc123" +:+ dquote +:+ "}";
     json := Ok (JObj [("id", JStr "abc123"); ("status", JStr "queued")]);
     rejection := EmptyString |}.


End Vapi.

Module Scheduler.

(** *** models/reminder.py *)

Inductive ReminderStatus := scheduled | completed | failed.

#[global] Instance ReminderStatus_eq_dec : EqDecision ReminderStatus.
Proof. solve_decision. Defined.

(** A row of the [reminders] table.  A timestamp is the wall-clock
    reading the column holds, counted in seconds: SQLite keeps no UTC
    offset, and the due query compares the reading with the wall clock
    of UTC. *)
Record Reminder := {
  id : Z;
  title : string;
  message : string;
  phone_number : string;
  trigger_at : Z;
  timezone : string;
  status : ReminderStatus;
  created_at : Z;
}.

#[global] Instance Reminder_eq_dec : EqDecision Reminder.
Proof. solve_decision. Defined.

(** [reminder.status = s]: the other columns keep their values. *)
Definition with_status (s : ReminderStatus) (r : Reminder) : Reminder :=
  {| id := id r; title := title r; message := message r;
     phone_number := phone_number r; trigger_at := trigger_at r;
     timezone := timezone r; status := s; created_at := created_at r |}.

Definition terminal (s : ReminderStatus) : bool :=
  match s with
  | scheduled => false
  | completed | failed => true
  end.

(** *** What the scheduler does to the outside, in order *)

Inductive Level := DEBUG | INFO | WARNING | ERROR.

Inductive Event :=
  | Log (lvl : Level) (msg : string)
  | SessionOpened
  | Queried
  | CallPlaced (rid : Z) (phone message reminder_title : string)
  | Committed
  | RolledBack
  | SessionClosed
  | Slept (seconds : Z)
  | TaskCreated (tid : nat)
  | WaitedFor (tid : nat) (timeout : Z)
  | TaskCancelled (tid : nat).

(** An [asyncio.Task] running [_run_loop]: created and not yet run,
    suspended inside the loop, returned, or cancelled. *)
Inductive TaskState := Pending | Suspended | Finished | Cancelled.

Definition alive (t : TaskState) : bool :=
  match t with
  | Pending | Suspended => true
  | Finished | Cancelled => false
  end.

(** The scheduler's session.  [Loaded]: usable, the objects read last
    hold their attributes.  [Expired]: usable, every object is expired (a
    commit or a rollback does that), so the next read of an attribute goes
    to the database.  [Deactivated pending]: a flush failed; the session
    has rolled its transaction back, every object is expired, and whatever
    needs the database raises [pending] ([PendingRollbackError]) until
    [rollback].  [Unfinished again]: the COMMIT statement failed; the
    objects keep their attributes, and [commit] raises [again] until
    [rollback]. *)
Inductive SessionState :=
  | Loaded
  | Expired
  | Deactivated (pending : Exn)
  | Unfinished (again : Exn).

(** The database, the scheduler object and the event loop's tasks.
    [rows] holds what is committed, under the primary key; [dirty] holds
    the status assignments the open session has not committed yet. *)
Record World := {
  rows : gmap Z Reminder;
  dirty : gmap Z ReminderStatus;
  session : SessionState;
  open_sessions : nat;
  scheduler_interval_seconds : Z;
  _running : bool;
  _task : option nat;
  _check_count : option Z;
  tasks : list TaskState;
  trace : list Event;
}.

Definition set_rows (f : gmap Z Reminder -> gmap Z Reminder) (w : World) : World :=
  {| rows := f (rows w); dirty := dirty w; session := session w;
     open_sessions := open_sessions w;
     scheduler_interval_seconds := scheduler_interval_seconds w;
     _running := _running w; _task := _task w; _check_count := _check_count w;
     tasks := tasks w; trace := trace w |}.

Definition set_dirty (f : gmap Z ReminderStatus -> gmap Z ReminderStatus) (w : World) : World :=
  {| rows := rows w; dirty := f (dirty w); session := session w;
     open_sessions := open_sessions w;
     scheduler_interval_seconds := scheduler_interval_seconds w;
     _running := _running w; _task := _task w; _check_count := _check_count w;
     tasks := tasks w; trace := trace w |}.

Definition set_session (s : SessionState) (w : World) : World :=
  {| rows := rows w; dirty := dirty w; session := s;
     open_sessions := open_sessions w;
     scheduler_interval_seconds := scheduler_interval_seconds w;
     _running := _running w; _task := _task w; _check_count := _check_count w;
     tasks := tasks w; trace := trace w |}.

Definition set_open_sessions (f : nat -> nat) (w : World) : World :=
  {| rows := rows w; dirty := dirty w; session := session w;
     open_sessions := f (open_sessions w);
     scheduler_interval_seconds := scheduler_interval_seconds w;
     _running := _running w; _task := _task w; _check_count := _check_count w;
     tasks := tasks w; trace := trace w |}.

Definition set_running (b : bool) (w : World) : World :=
  {| rows := rows w; dirty := dirty w; session := session w;
     open_sessions := open_sessions w;
     scheduler_interval_seconds := scheduler_interval_seconds w;
     _running := b; _task := _task w; _check_count := _check_count w;
     tasks := tasks w; trace := trace w |}.

Definition set_task (t : option nat) (w : World) : World :=
  {| rows := rows w; dirty := dirty w; session := session w;
     open_sessions := open_sessions w;
     scheduler_interval_seconds := scheduler_interval_seconds w;
     _running := _running w; _task := t; _check_count := _check_count w;
     tasks := tasks w; trace := trace w |}.

Definition set_check_count (c : option Z) (w : World) : World :=
  {| rows := rows w; dirty := dirty w; session := session w;
     open_sessions := open_sessions w;
     scheduler_interval_seconds := scheduler_interval_seconds w;
     _running := _running w; _task := _task w; _check_count := c;
     tasks := tasks w; trace := trace w |}.

Definition set_tasks (f : list TaskState -> list TaskState) (w : World) : World :=
  {| rows := rows w; dirty := dirty w; session := session w;
     open_sessions := open_sessions w;
     scheduler_interval_seconds := scheduler_interval_seconds w;
     _running := _running w; _task := _task w; _check_count := _check_count w;
     tasks := f (tasks w); trace := trace w |}.

Definition add_event (e : Event) (w : World) : World :=
  {| rows := rows w; dirty := dirty w; session := session w;
     open_sessions := open_sessions w;
     scheduler_interval_seconds := scheduler_interval_seconds w;
     _running := _running w; _task := _task w; _check_count := _check_count w;
     tasks := tasks w; trace := (trace w ++ [e])%list |}.

(** *** Computations that change the world and may raise *)

Definition M (A : Type) : Type := World -> Outcome A * World.

Definition ret {A} (a : A) : M A := fun w => (Ok a, w).

Definition bind {A B} (m : M A) (k : A -> M B) : M B :=
  fun w =>
    match m w with
    | (Ok a, w') => k a w'
    | (Raise e, w') => (Raise e, w')
    end.

Definition raise {A} (e : Exn) : M A := fun w => (Raise e, w).

(** [try: m  except Exception as e: h e]. *)
Definition try_except {A} (m : M A) (h : Exn -> M A) : M A :=
  fun w =>
    match m w with
    | (Ok a, w') => (Ok a, w')
    | (Raise e, w') => h e w'
    end.

(** [try: m  finally: f]: [f] runs either way; an exception of [f]
    replaces the result of [m]. *)
Definition try_finally {A} (m : M A) (f : M unit) : M A :=
  fun w =>
    match m w with
    | (r, w') =>
        match f w' with
        | (Ok _, w'') => (r, w'')
        | (Raise e, w'') => (Raise e, w'')
        end
    end.

Definition gets {A} (f : World -> A) : M A := fun w => (Ok (f w), w).
Definition modify (f : World -> World) : M unit := fun w => (Ok tt, f w).
Definition emit (e : Event) : M unit := modify (add_event e).
Definition log (lvl : Level) (msg : string) : M unit := emit (Log lvl msg).

Declare Scope sched_scope.
Delimit Scope sched_scope with sched.
Notation "x <- c1 ;; c2" := (bind c1 (fun x => c2))
  (at level 100, c1 at next level, right associativity) : sched_scope.
Notation "c1 ;; c2" := (bind c1 (fun _ => c2))
  (at level 100, right associativity) : sched_scope.
Open Scope sched_scope.

(** The world after running [m], and what [m] returned or raised. *)
Definition exec {A} (m : M A) (w : World) : World := snd (m w).
Definition result {A} (m : M A) (w : World) : Outcome A := fst (m w).

(** *** The outside world during one tick

    [now] is what [datetime.now(timezone.utc)] returns; [query_fault] is
    the exception of the due query, if it raises; [read_fault rid] is the
    exception of the SELECT that reloads the expired row [rid] when one of
    its attributes is read, if it raises; [call_reply rid ...] is what
    [vapi_service.trigger_call] does when invoked for reminder [rid];
    [commit_fault rid k] tells how the [k]-th [db.commit()] issued while
    reminder [rid] is processed fails on a usable session, if it does (0:
    the one after the call, 1: the one in the handler).  [db.rollback()]
    and [db.close()], which the source calls outside any handler, do not
    raise.  Nothing but the tick writes to the table while the tick
    runs. *)

(** How a [db.commit()] fails: in its flush, raising [e] and leaving the
    session deactivated, or at the COMMIT statement, raising [e] and
    leaving the transaction unfinished. *)
Inductive CommitFault :=
  | FlushFailed (e pending : Exn)
  | CommitFailed (e again : Exn).

Record Env := {
  now : Z;
  query_fault : option Exn;
  read_fault : Z -> option Exn;
  call_reply : Z -> string -> string -> string -> Outcome Vapi.VapiCallResult;
  commit_fault : Z -> nat -> option CommitFault;
}.

(** *** The session *)

(** [SessionLocal()]: a new session, with nothing pending and nothing
    loaded. *)
Definition _get_db : M unit :=
  modify (fun w => set_open_sessions S (set_session Expired (set_dirty (fun _ => ∅) w))) ;;
  emit SessionOpened.

Definition db_close : M unit :=
  modify (fun w =>
            set_open_sessions Nat.pred (set_session Expired (set_dirty (fun _ => ∅) w))) ;;
  emit SessionClosed.

(** [UPDATE reminders SET status = ? WHERE id = ?] for every pending
    assignment. *)
Definition flush (d : gmap Z ReminderStatus) (rs : gmap Z Reminder) : gmap Z Reminder :=
  map_imap (fun k r => Some (match d !! k with
                             | Some s => with_status s r
                             | None => r
                             end)) rs.

(** [db.commit()].  On a usable session it writes the pending
    assignments and expires every object, or fails as the environment
    says and writes nothing; a session that is deactivated or unfinished
    refuses. *)
Definition db_commit (env : Env) (rid : Z) (attempt : nat) : M unit :=
  s <- gets session ;;
  match s with
  | Deactivated pending => raise pending
  | Unfinished again => raise again
  | Loaded | Expired =>
      match commit_fault env rid attempt with
      | None =>
          modify (fun w =>
                    set_session Expired
                      (set_dirty (fun _ => ∅) (set_rows (flush (dirty w)) w))) ;;
          emit Committed
      | Some (FlushFailed e pending) =>
          modify (fun w => set_session (Deactivated pending) (set_dirty (fun _ => ∅) w)) ;;
          raise e
      | Some (CommitFailed e again) =>
          modify (set_session (Unfinished again)) ;;
          raise e
      end
  end.

(** [db.rollback()]: drops the pending assignments, expires every object
    and makes the session usable again. *)
Definition db_rollback : M unit :=
  modify (fun w => set_session Expired (set_dirty (fun _ => ∅) w)) ;;
  emit RolledBack.

(** [reminder.status = s] on an object of the session. *)
Definition assign_status (rid : Z) (s : ReminderStatus) : M unit :=
  modify (set_dirty (insert rid s)).

(** Reading a column attribute of the object [rid] ([reminder.id],
    [reminder.title], ...): an expired object is reloaded first, which
    can raise; on a deactivated session the reload raises. *)
Definition read_attrs (env : Env) (rid : Z) : M unit :=
  s <- gets session ;;
  match s with
  | Loaded | Unfinished _ => ret tt
  | Expired =>
      match read_fault env rid with
      | Some e => raise e
      | None => modify (set_session Loaded)
      end
  | Deactivated pending => raise pending
  end.

(** What reading [reminder.status] gives: the pending assignment if
    there is one, else the committed column. *)
Definition status_of (w : World) (rid : Z) : option ReminderStatus :=
  match dirty w !! rid with
  | Some s => Some s
  | None => status <$> rows w !! rid
  end.

(** *** services/scheduler.py *)

Definition is_due (t : Z) (r : Reminder) : bool :=
  bool_decide (status r = scheduled) && (trigger_at r <=? t)%Z.

(** The order of a scan of the table: by primary key.  The query has no
    [ORDER BY]; SQLite reads the table in the order of its row ids. *)
Definition by_id (a b : Reminder) : Prop := id a <= id b.

#[global] Instance by_id_dec (a b : Reminder) : Decision (by_id a b).
Proof. unfold by_id. apply _. Defined.

Definition due_rows (t : Z) (rs : gmap Z Reminder) : list Reminder :=
  merge_sort by_id (filter (fun r => is_due t r) ((map_to_list rs).*2)).

(** The rows the query returns are loaded. *)
Definition _get_due_reminders (env : Env) : M (list Reminder) :=
  match query_fault env with
  | Some e => raise e
  | None =>
      emit Queried ;;
      modify (set_session Loaded) ;;
      gets (fun w => due_rows (now env) (rows w))
  end.

Definition trigger_call (env : Env) (r : Reminder) : M Vapi.VapiCallResult :=
  emit (CallPlaced (id r) (phone_number r) (message r) (title r)) ;;
  match call_reply env (id r) (phone_number r) (message r) (title r) with
  | Ok res => ret res
  | Raise e => raise e
  end.

(** The f-strings of the first log call and of the handler's log call
    read [reminder.id] outside the [try] blocks: an exception of that
    read leaves [_process_reminder]. *)
Definition _process_reminder (env : Env) (reminder : Reminder) : M unit :=
  read_attrs env (id reminder) ;;
  log INFO ("Processing reminder " +:+ pretty (id reminder) +:+ ": '"
            +:+ title reminder +:+ "' for " +:+ phone_number reminder) ;;
  try_except
    (res <- trigger_call env reminder ;;
     (if Vapi.success res then
        assign_status (id reminder) completed ;;
        log INFO ("Reminder " +:+ pretty (id reminder)
                  +:+ " completed successfully. Vapi call ID: "
                  +:+ default "None" (Vapi.call_id res))
      else
        assign_status (id reminder) failed ;;
        log ERROR ("Reminder " +:+ pretty (id reminder) +:+ " failed: "
                   +:+ default "None" (Vapi.error_message res))) ;;
     db_commit env (id reminder) 0)
    (fun e =>
       read_attrs env (id reminder) ;;
       log ERROR ("Error processing reminder " +:+ pretty (id reminder)
                  +:+ ": " +:+ exn_str e) ;;
       try_except
         (assign_status (id reminder) failed ;;
          db_commit env (id reminder) 1)
         (fun _ => db_rollback)).

(** [for reminder in due_reminders: await self._process_reminder(...)]. *)
Fixpoint process_each (env : Env) (due_reminders : list Reminder) : M unit :=
  match due_reminders with
  | [] => ret tt
  | reminder :: rest => _process_reminder env reminder ;; process_each env rest
  end.

Definition count_empty_check : M unit :=
  c <- gets _check_count ;;
  let c' := match c with
            | Some n => n + 1
            | None => 1
            end in
  modify (set_check_count (Some c')) ;;
  if (c' mod 10 =? 0)%Z then
    log INFO ("Scheduler running (check #" +:+ pretty c' +:+ ") - no due reminders")
  else ret tt.

Definition _check_and_process_reminders (env : Env) : M unit :=
  _get_db ;;
  try_finally
    (try_except
       (due_reminders <- _get_due_reminders env ;;
        match due_reminders with
        | _ :: _ =>
            log INFO ("Found " +:+ pretty (length due_reminders)
                      +:+ " due reminder(s) to process") ;;
            process_each env due_reminders
        | [] =>
            log DEBUG "No due reminders found" ;;
            count_empty_check
        end)
       (fun e => log ERROR ("Error checking for due reminders: " +:+ exn_str e)))
    db_close.

(** One pass of the body of [while self._running] in [_run_loop]. *)
Definition loop_body (env : Env) : M unit :=
  try_except
    (_check_and_process_reminders env)
    (fun e => log ERROR ("Scheduler loop error: " +:+ exn_str e)) ;;
  interval <- gets scheduler_interval_seconds ;;
  emit (Slept interval).

(** [while self._running: ...], one environment per pass.  The result is
    [true] when the loop is still suspended in its sleep after the last
    pass, [false] when it found [_running] false and returned. *)
Fixpoint while_running (envs : list Env) : M bool :=
  running <- gets _running ;;
  if running then
    match envs with
    | [] => ret true
    | env :: rest => loop_body env ;; while_running rest
    end
  else
    log INFO "Reminder scheduler stopped." ;;
    ret false.

Definition _run_loop (envs : list Env) : M bool :=
  interval <- gets scheduler_interval_seconds ;;
  log INFO ("Reminder scheduler started. Checking every " +:+ pretty interval
            +:+ " seconds.") ;;
  while_running envs.

(** *** Tasks of the event loop *)

Definition set_task_state (tid : nat) (t : TaskState) : M unit :=
  modify (set_tasks (fun ts => <[tid := t]> ts)).

(** [asyncio.create_task(self._run_loop())]: the handle of the new task. *)
Definition create_task : M nat :=
  tid <- gets (fun w => length (tasks w)) ;;
  modify (set_tasks (fun ts => (ts ++ [Pending])%list)) ;;
  emit (TaskCreated tid) ;;
  ret tid.

(** The event loop lets task [tid] run through the passes [envs]; a task
    that has returned or was cancelled runs no more. *)
Definition run_task (envs : list Env) (tid : nat) : M unit :=
  t <- gets (fun w => tasks w !! tid) ;;
  match t with
  | Some Pending =>
      looping <- _run_loop envs ;;
      set_task_state tid (if looping then Suspended else Finished)
  | Some Suspended =>
      looping <- while_running envs ;;
      set_task_state tid (if looping then Suspended else Finished)
  | _ => ret tt
  end.

(** [task.cancel()] followed by [await task]: the task ends with
    [CancelledError], which the caller swallows. *)
Definition cancel_task (tid : nat) : M unit :=
  t <- gets (fun w => tasks w !! tid) ;;
  match t with
  | Some Pending | Some Suspended =>
      set_task_state tid Cancelled ;; emit (TaskCancelled tid)
  | _ => ret tt
  end.

(** *** Lifecycle *)

Definition start : M unit :=
  running <- gets _running ;;
  if running then log WARNING "Scheduler is already running"
  else
    modify (set_running true) ;;
    tid <- create_task ;;
    modify (set_task (Some tid)) ;;
    log INFO "Reminder scheduler task created".

(** The grace period of [stop], in seconds. *)
Definition grace_period : Z := 5.

(** How [asyncio.wait_for(self._task, timeout=5.0)] ends: the task
    returned within the timeout, or [TimeoutError]. *)
Inductive WaitOutcome := TaskReturned | TimedOut.

(** [stop] up to its first suspension point: the guard, and the signal
    to the loop.  The result tells whether there is anything to wait
    for. *)
Definition stop_begin : M bool :=
  running <- gets _running ;;
  if negb running then
    log WARNING "Scheduler is not running" ;;
    ret false
  else
    log INFO "Stopping reminder scheduler..." ;;
    modify (set_running false) ;;
    ret true.

(** [stop] from the [await] on: while [stop] waits the loop task runs;
    either it reaches the loop condition in time, or [wait_for] cancels
    it and raises [TimeoutError], after which [stop] cancels a task that
    has ended already. *)
Definition stop_join (o : WaitOutcome) : M unit :=
  t <- gets _task ;;
  match t with
  | Some tid =>
      emit (WaitedFor tid grace_period) ;;
      match o with
      | TaskReturned => run_task [] tid
      | TimedOut =>
          cancel_task tid ;;
          log WARNING "Scheduler task did not stop gracefully, cancelling" ;;
          cancel_task tid
      end ;;
      modify (set_task None)
  | None => ret tt
  end.

Definition stop (o : WaitOutcome) : M unit :=
  waiting <- stop_begin ;;
  if waiting then stop_join o else ret tt.

Definition is_running (w : World) : bool := _running w.

(** The number of loop tasks that can still run. *)
Definition alive_tasks (w : World) : nat :=
  length (filter (fun t => alive t) (tasks w)).

(** A new process: the given table, a scheduler that was never started,
    no task. *)
Definition init (rs : gmap Z Reminder) (interval : Z) : World :=
  {| rows := rs; dirty := ∅; session := Expired; open_sessions := 0;
     scheduler_interval_seconds := interval;
     _running := false; _task := None; _check_count := None;
     tasks := []; trace := [] |}.

(** The call trigger of the running system: [VapiService.trigger_call]
    over a provider [http]. *)
Definition vapi_reply (service : Vapi.VapiService)
    (http : Vapi.HttpRequest -> Vapi.HttpReply)
    (phone message reminder_title : string) : Outcome Vapi.VapiCallResult :=
  fst (Vapi.trigger_call service http phone message reminder_title).

(** *** main.py *)

(** [trigger_scheduler_manually]: one tick on request, refused while the
    scheduler is not running.  The result tells whether the tick ran. *)
Definition trigger_scheduler_manually (env : Env) : M bool :=
  running <- gets is_running ;;
  if negb running then ret false
  else _check_and_process_reminders env ;; ret true.

(** *** Runs of the system *)

(** One tick, and a sequence of ticks, each in its own environment. *)
Definition tick (env : Env) (w : World) : World :=
  exec (_check_and_process_reminders env) w.

Definition ticks (envs : list Env) (w : World) : World :=
  fold_left (fun w' env => tick env w') envs w.

(** The event loop gives every task a turn. *)
Fixpoint run_each (envs : list Env) (tids : list nat) : M unit :=
  match tids with
  | [] => ret tt
  | tid :: rest => run_task envs tid ;; run_each envs rest
  end.

Definition run_all_tasks (envs : list Env) : M unit :=
  n <- gets (fun w => length (tasks w)) ;;
  run_each envs (seq 0 n).

(** What can happen to the scheduler of a process, one after the other:
    a call of [start], a call of [stop] (with the way its wait ends), the
    event loop running the tasks, a manual trigger. *)
Inductive Op :=
  | OpStart
  | OpStop (o : WaitOutcome)
  | OpRunTasks (envs : list Env)
  | OpTrigger (env : Env).

Definition apply_op (w : World) (op : Op) : World :=
  match op with
  | OpStart => exec start w
  | OpStop o => exec (stop o) w
  | OpRunTasks envs => exec (run_all_tasks envs) w
  | OpTrigger env => exec (trigger_scheduler_manually env) w
  end.

Definition run_ops (ops : list Op) (w : World) : World :=
  fold_left apply_op ops w.

(** *** Summaries used in the statements *)

(** [id] is the primary key: every row is stored under its own id. *)
Definition keyed (rs : gmap Z Reminder) : Prop :=
  map_Forall (fun k r => id r = k) rs.

(** How processing one reminder ends: a status was committed; nothing
    was committed and [_process_reminder] returned; an exception left
    [_process_reminder], after the call was placed or before. *)
Inductive Ending :=
  | Recorded (s : ReminderStatus)
  | Unrecorded
  | Escaped (e : Exn) (called : bool).

(** The exception of reading the row of [r] at the start of its
    processing: none when the row is loaded. *)
Definition entry_fault (env : Env) (loaded : bool) (r : Reminder) : option Exn :=
  if loaded then None else read_fault env (id r).

Definition ending (env : Env) (loaded : bool) (r : Reminder) : Ending :=
  match entry_fault env loaded r with
  | Some e => Escaped e false
  | None =>
      match call_reply env (id r) (phone_number r) (message r) (title r) with
      | Ok res =>
          match commit_fault env (id r) 0 with
          | None => Recorded (if Vapi.success res then completed else failed)
          | Some (FlushFailed _ pending) => Escaped pending true
          | Some (CommitFailed _ _) => Unrecorded
          end
      | Raise _ =>
          match commit_fault env (id r) 1 with
          | None => Recorded failed
          | Some _ => Unrecorded
          end
      end
  end.

(** The status that processing [r] commits once its row has been read,
    if a commit gets through. *)
Definition decided_status (env : Env) (r : Reminder) : option ReminderStatus :=
  match call_reply env (id r) (phone_number r) (message r) (title r) with
  | Ok res =>
      match commit_fault env (id r) 0 with
      | None => Some (if Vapi.success res then completed else failed)
      | Some _ => None
      end
  | Raise _ =>
      match commit_fault env (id r) 1 with
      | None => Some failed
      | Some _ => None
      end
  end.

(** The events of processing one reminder. *)
Definition processing_line (r : Reminder) : Event :=
  Log INFO ("Processing reminder " +:+ pretty (id r) +:+ ": '"
            +:+ title r +:+ "' for " +:+ phone_number r).

Definition call_event (r : Reminder) : Event :=
  CallPlaced (id r) (phone_number r) (message r) (title r).

Definition outcome_line (r : Reminder) (res : Vapi.VapiCallResult) : Event :=
  if Vapi.success res then
    Log INFO ("Reminder " +:+ pretty (id r)
              +:+ " completed successfully. Vapi call ID: "
              +:+ default "None" (Vapi.call_id res))
  else
    Log ERROR ("Reminder " +:+ pretty (id r) +:+ " failed: "
               +:+ default "None" (Vapi.error_message res)).

Definition handler_line (r : Reminder) (e : Exn) : Event :=
  Log ERROR ("Error processing reminder " +:+ pretty (id r)
             +:+ ": " +:+ exn_str e).

Definition process_events (env : Env) (loaded : bool) (r : Reminder) : list Event :=
  match entry_fault env loaded r with
  | Some _ => []
  | None =>
      processing_line r :: call_event r ::
      match call_reply env (id r) (phone_number r) (message r) (title r) with
      | Ok res =>
          outcome_line r res ::
          match commit_fault env (id r) 0 with
          | None => [Committed]
          | Some (FlushFailed _ _) => []
          | Some (CommitFailed e _) => [handler_line r e; RolledBack]
          end
      | Raise e =>
          handler_line r e ::
          match commit_fault env (id r) 1 with
          | None => [Committed]
          | Some _ => [RolledBack]
          end
      end
  end.

(** The reminders of a batch for which the call is placed: the batch up
    to the first reminder whose processing lets an exception out.  The
    first row of a batch is loaded, the later ones are expired. *)
Fixpoint attempted (env : Env) (loaded : bool) (l : list Reminder) : list Reminder :=
  match l with
  | [] => []
  | r :: rest =>
      match ending env loaded r with
      | Escaped _ called => if called then [r] else []
      | Recorded _ | Unrecorded => r :: attempted env false rest
      end
  end.

Fixpoint each_events (env : Env) (loaded : bool) (l : list Reminder) : list Event :=
  match l with
  | [] => []
  | r :: rest =>
      (process_events env loaded r
       ++ match ending env loaded r with
          | Escaped _ _ => []
          | Recorded _ | Unrecorded => each_events env false rest
          end)%list
  end.

Fixpoint each_result (env : Env) (loaded : bool) (l : list Reminder) : Outcome unit :=
  match l with
  | [] => Ok tt
  | r :: rest =>
      match ending env loaded r with
      | Escaped e _ => Raise e
      | Recorded _ | Unrecorded => each_result env false rest
      end
  end.

(** The session after a batch. *)
Fixpoint each_session (env : Env) (s : SessionState) (loaded : bool) (l : list Reminder)
  : SessionState :=
  match l with
  | [] => s
  | r :: rest =>
      match ending env loaded r with
      | Escaped e called => if called then Deactivated e else s
      | Recorded _ | Unrecorded => each_session env Expired false rest
      end
  end.

(** The rows after processing [r]: its status column takes the decided
    status, if there is one. *)
Definition apply_decision (env : Env) (rs : gmap Z Reminder) (r : Reminder)
  : gmap Z Reminder :=
  match decided_status env r with
  | Some s => flush {[id r := s]} rs
  | None => rs
  end.

(** The rows after one tick. *)
Definition tick_rows (env : Env) (rs : gmap Z Reminder) : gmap Z Reminder :=
  match query_fault env with
  | Some _ => rs
  | None =>
      fold_left (apply_decision env) (attempted env true (due_rows (now env) rs)) rs
  end.

(** No processing ends a tick early: every reload of a row succeeds and
    no commit after a call fails in its flush. *)
Definition steady (env : Env) : Prop :=
  (forall rid, read_fault env rid = None)
  /\ (forall rid e pending, commit_fault env rid 0 <> Some (FlushFailed e pending)).

(** Whether the session holds the attributes of the objects read
    last. *)
Definition loaded (s : SessionState) : bool :=
  match s with
  | Loaded => true
  | _ => false
  end.

Definition usable (s : SessionState) : Prop := s = Loaded \/ s = Expired.

(** The world [w] with new rows, new pending assignments, a new session
    state and further events. *)
Definition evolve (rs : gmap Z Reminder) (d : gmap Z ReminderStatus)
    (s : SessionState) (es : list Event) (w : World) : World :=
  {| rows := rs; dirty := d; session := s; open_sessions := open_sessions w;
     scheduler_interval_seconds := scheduler_interval_seconds w;
     _running := _running w; _task := _task w; _check_count := _check_count w;
     tasks := tasks w; trace := (trace w ++ es)%list |}.

(** The world after processing [r] in [w]. *)
Definition processed (env : Env) (r : Reminder) (w : World) : World :=
  match ending env (loaded (session w)) r with
  | Recorded s =>
      evolve (flush (<[id r := s]> (dirty w)) (rows w)) ∅ Expired
        (process_events env (loaded (session w)) r) w
  | Unrecorded =>
      evolve (rows w) ∅ Expired (process_events env (loaded (session w)) r) w
  | Escaped e called =>
      if called then
        evolve (rows w) ∅ (Deactivated e) (process_events env (loaded (session w)) r) w
      else w
  end.

Definition ending_result (x : Ending) : Outcome unit :=
  match x with
  | Escaped e _ => Raise e
  | Recorded _ | Unrecorded => Ok tt
  end.

(** The scheduler and the tasks agree: while [_running] holds, [_task]
    is the one task that can run; otherwise no task can run. *)
Definition lifecycle_ok (w : World) : Prop :=
  if _running w then
    exists tid st, _task w = Some tid /\ tasks w !! tid = Some st
                   /\ alive st = true /\ alive_tasks w = 1%nat
  else alive_tasks w = 0%nat.

(** How the loop task ends when [stop] joins it. *)
Definition joined (o : WaitOutcome) : TaskState :=
  match o with
  | TaskReturned => Finished
  | TimedOut => Cancelled
  end.

(** *** Sample data *)

Definition sample_reminder (i at_ : Z) (s : ReminderStatus) : Reminder :=
  {| id := i; title := "Dentist"; message := "Your appointment is at 3pm";
     phone_number := "+14155551234"; trigger_at := at_;
     timezone := "America/New_York"; status := s; created_at := 0 |}.

(** Reminders 1 and 2 are due at time 1000, reminder 3 is scheduled for
    later, reminder 4 has been completed. *)
Definition sample_rows : gmap Z Reminder :=
  <[1 := sample_reminder 1 700 scheduled]>
    (<[2 := sample_reminder 2 900 scheduled]>
       (<[3 := sample_reminder 3 5000 scheduled]>
          (<[4 := sample_reminder 4 100 completed]> ∅))).

Definition sample_world : World := init sample_rows 30.

Definition call_placed : Vapi.VapiCallResult :=
  {| Vapi.success := true; Vapi.call_id := Some "abc123";
     Vapi.error_message := None |}.

(** Every call is placed, every store operation succeeds. *)
Definition env_ok : Env :=
  {| now := 1000; query_fault := None; read_fault := fun _ => None;
     call_reply := fun _ _ _ _ => Ok call_placed;
     commit_fault := fun _ _ => None |}.

Definition locked : Exn := MkExn OtherException "database is locked".

(** What the session raises while it waits for a rollback. *)
Definition pending_rollback : Exn :=
  MkExn OtherException "This Session's transaction has been rolled back".

(** The call for reminder 1 raises, and so does the commit in its
    handler; everything else succeeds. *)
Definition env_call_fault : Env :=
  {| now := 1000; query_fault := None; read_fault := fun _ => None;
     call_reply := fun rid _ _ _ =>
       if Z.eqb rid 1 then Raise (MkExn OtherException "connection reset")
       else Ok call_placed;
     commit_fault := fun rid attempt =>
       if Z.eqb rid 1 && Nat.eqb attempt 1
       then Some (FlushFailed locked pending_rollback)
       else None |}.

(** Every call is placed; the commit after the call for reminder 1 fails
    at its COMMIT statement. *)
Definition env_commit_fault : Env :=
  {| now := 1000; query_fault := None; read_fault := fun _ => None;
     call_reply := fun _ _ _ _ => Ok call_placed;
     commit_fault := fun rid attempt =>
       if Z.eqb rid 1 && Nat.eqb attempt 0
       then Some (CommitFailed locked pending_rollback)
       else None |}.

(** Every call is placed; the commit after the call for reminder 1 fails
    in its flush. *)
Definition env_flush_fault : Env :=
  {| now := 1000; query_fault := None; read_fault := fun _ => None;
     call_reply := fun _ _ _ _ => Ok call_placed;
     commit_fault := fun rid attempt =>
       if Z.eqb rid 1 && Nat.eqb attempt 0
       then Some (FlushFailed locked pending_rollback)
       else None |}.

(** Every call is placed and every commit succeeds; the reload of
    reminder 2 raises. *)
Definition env_read_fault : Env :=
  {| now := 1000; query_fault := None;
     read_fault := fun rid => if Z.eqb rid 2 then Some locked else None;
     call_reply := fun _ _ _ _ => Ok call_placed;
     commit_fault := fun _ _ => None |}.

(** The due query raises. *)
Definition env_query_fault : Env :=
  {| now := 1000;
     query_fault := Some (MkExn OtherException "unable to open database file");
     read_fault := fun _ => None;
     call_reply := fun _ _ _ _ => Ok call_placed;
     commit_fault := fun _ _ => None |}.

(** A scheduler that was started and whose loop task has run one pass
    and sleeps. *)
Definition sleeping_world : World :=
  exec (run_task [env_ok] 0) (exec start sample_world).

End Scheduler.

(** * The rest of the code *)

Module VapiHealth.

Import Vapi.

(** The request [health_check] sends: [client.get] with query
    parameters. *)
Record HttpGet := {
  get_url : string;
  get_headers : list (string * string);
  get_params : list (string * Z);
}.

Definition health_request (self : VapiService) : HttpGet :=
  {| get_url := api_url self +:+ "/calls";
     get_headers := _get_headers self;
     get_params := [("limit", 1)] |}.

(** [VapiService.health_check], with the provider's answer to the GET
    as the argument [http].  The second component lists the requests that
    were sent. *)
Definition health_check (self : VapiService) (http : HttpGet -> HttpReply)
  : Outcome bool * list HttpGet :=
  if negb (str_truthy (api_key self)) then (Ok false, [])
  else
    (catch_outcome
       (bind_outcome (http (health_request self))
          (fun response => Ok (Z.eqb (status_code response) 200)))
       (fun _ => Ok false),
     [health_request self]).

(** A service with an API key and nothing else, and a provider that
    answers every GET with status 200. *)
Definition key_only_service : VapiService :=
  {| api_url := "https://api.vapi.ai"; api_key := "key";
     assistant_id := EmptyString; phone_number_id := EmptyString |}.

Definition listed_200 : Response :=
  {| status_code := 200; text := "[]"; json := Ok (JArr []);
     rejection := EmptyString |}.

End VapiHealth.

Module Schemas.

Import Scheduler.

(** *** The pattern of [validate_phone_number]

    Strings are sequences of code points below 256; among those [\d]
    matches the ten ASCII digits only. *)

Definition is_digit (c : Ascii.ascii) : bool :=
  Nat.leb 48 (Ascii.nat_of_ascii c) && Nat.leb (Ascii.nat_of_ascii c) 57.

Definition is_nonzero_digit (c : Ascii.ascii) : bool :=
  Nat.leb 49 (Ascii.nat_of_ascii c) && Nat.leb (Ascii.nat_of_ascii c) 57.

Definition is_plus (c : Ascii.ascii) : bool := Nat.eqb (Ascii.nat_of_ascii c) 43.

Definition is_newline (c : Ascii.ascii) : bool := Nat.eqb (Ascii.nat_of_ascii c) 10.

(** Every character of [s] is of class [p]. *)
Fixpoint all_of (p : Ascii.ascii -> bool) (s : string) : bool :=
  match s with
  | EmptyString => true
  | String c s' => p c && all_of p s'
  end.

(** The pieces a pattern is made of: one character of a class, between
    [lo] and [hi] characters of a class, the anchor [$]. *)
Inductive Item :=
  | One (p : Ascii.ascii -> bool)
  | Many (p : Ascii.ascii -> bool) (lo hi : nat)
  | Dollar.

(** [$] without [re.MULTILINE]: the end of the string, or just before a
    newline that ends the string. *)
Definition at_dollar (s : string) : bool :=
  match s with
  | EmptyString => true
  | String c EmptyString => is_newline c
  | String _ (String _ _) => false
  end.

(** Between [lo] and [hi] characters of class [p], then [k] on the rest,
    trying the longest run first. *)
Fixpoint many (p : Ascii.ascii -> bool) (k : string -> bool) (lo hi : nat) (s : string)
  : bool :=
  match hi with
  | O => Nat.eqb lo 0 && k s
  | S hi' =>
      match s with
      | String c s' => (p c && many p k (Nat.pred lo) hi' s') || (Nat.eqb lo 0 && k s)
      | EmptyString => Nat.eqb lo 0 && k s
      end
  end.

(** [re.match(pattern, s)]: the pattern matches at the start of [s]. *)
Fixpoint re_match (pattern : list Item) (s : string) : bool :=
  match pattern with
  | [] => true
  | One p :: rest =>
      match s with
      | String c s' => p c && re_match rest s'
      | EmptyString => false
      end
  | Many p lo hi :: rest => many p (re_match rest) lo hi s
  | Dollar :: rest => at_dollar s && re_match rest s
  end.

(** [^\+[1-9]\d{1,14}$]. *)
Definition e164_pattern : list Item :=
  [One is_plus; One is_nonzero_digit; Many is_digit 1 14; Dollar].

Definition phone_error : Exn :=
  MkExn OtherException "Phone number must be in E.164 format (e.g., +14155551234)".

(** [ReminderBase.validate_phone_number]. *)
Definition validate_phone_number (v : string) : Outcome string :=
  if negb (re_match e164_pattern v) then Raise phone_error else Ok v.

(** [ReminderUpdate.validate_phone_number]. *)
Definition validate_phone_number_opt (v : option string) : Outcome (option string) :=
  match v with
  | None => Ok None
  | Some s => if negb (re_match e164_pattern s) then Raise phone_error else Ok (Some s)
  end.

(** *** The request bodies *)

(** A [datetime] of a request body: its wall-clock reading, counted in
    seconds, and its UTC offset when the value carries one. *)
Record DateTime := {
  wall : Z;
  utcoffset : option Z;
}.

(** The instant an aware value stands for, as a reading of the UTC
    clock. *)
Definition instant (d : DateTime) : option Z :=
  (fun offset => wall d - offset) <$> utcoffset d.

Record ReminderCreate := {
  c_title : string;
  c_message : string;
  c_phone_number : string;
  c_trigger_at : DateTime;
  c_timezone : string;
}.

(** [Field(..., min_length=lo, max_length=hi)] on a [str]. *)
Definition length_ok (lo hi : nat) (s : string) : bool :=
  Nat.leb lo (String.length s) && Nat.leb (String.length s) hi.

Definition length_error (field : string) : Exn :=
  MkExn OtherException ("1 validation error for ReminderCreate: " +:+ field).

(** Validation of a [ReminderCreate]: the two length constraints and the
    phone number validator. *)
Definition validate_create (body : ReminderCreate) : Outcome ReminderCreate :=
  if negb (length_ok 1 255 (c_title body)) then Raise (length_error "title")
  else if negb (length_ok 1 1000 (c_message body)) then Raise (length_error "message")
  else
    bind_outcome (validate_phone_number (c_phone_number body)) (fun _ => Ok body).

(** A field of a PATCH body: left out, given as [null], or given a
    value.  [model_dump(exclude_unset=True)] keeps the last two. *)
Inductive Patch (A : Type) :=
  | Unset
  | Null
  | Value (a : A).
Arguments Unset {A}.
Arguments Null {A}.
Arguments Value {A} a.

Record ReminderUpdate := {
  u_title : Patch string;
  u_message : Patch string;
  u_phone_number : Patch string;
  u_trigger_at : Patch DateTime;
  u_timezone : Patch string;
  u_status : Patch ReminderStatus;
}.

Definition patch_length_ok (lo hi : nat) (f : Patch string) : bool :=
  match f with
  | Value s => length_ok lo hi s
  | Unset | Null => true
  end.

(** Validation of a [ReminderUpdate]: every field may be left out or be
    [null]; a given value meets the constraints of its field. *)
Definition validate_update (body : ReminderUpdate) : Outcome ReminderUpdate :=
  if negb (patch_length_ok 1 255 (u_title body)) then Raise (length_error "title")
  else if negb (patch_length_ok 1 1000 (u_message body)) then Raise (length_error "message")
  else
    match u_phone_number body with
    | Value s => bind_outcome (validate_phone_number_opt (Some s)) (fun _ => Ok body)
    | Unset | Null => Ok body
    end.

(** A PATCH body [{"title": null}]. *)
Definition null_title_body : ReminderUpdate :=
  {| u_title := Null; u_message := Unset; u_phone_number := Unset;
     u_trigger_at := Unset; u_timezone := Unset; u_status := Unset |}.

(** A PATCH body that gives [trigger_at] with the offset [+01:00]: the
    wall clock reads 4600, the instant is 1000. *)
Definition later_body : ReminderUpdate :=
  {| u_title := Unset; u_message := Unset; u_phone_number := Unset;
     u_trigger_at := Value {| wall := 4600; utcoffset := Some 3600 |};
     u_timezone := Unset; u_status := Unset |}.

Definition good_create : ReminderCreate :=
  {| c_title := "Dentist"; c_message := "Your appointment is at 3pm";
     c_phone_number := "+14155551234";
     c_trigger_at := {| wall := 700; utcoffset := Some 0 |};
     c_timezone := "America/New_York" |}.

End Schemas.

Module Routers.

Import Scheduler Schemas.

(** What an endpoint answers: its return value, an [HTTPException], or
    the [IntegrityError] of a commit, which no handler catches. *)
Inductive Reply (A : Type) :=
  | Sent (a : A)
  | HTTPException (status_code : Z) (detail : string)
  | IntegrityError.
Arguments Sent {A} a.
Arguments HTTPException {A} status_code detail.
Arguments IntegrityError {A}.

Definition not_found {A} : Reply A := HTTPException 404 "Reminder not found".

(** What the SQLite [DateTime] column keeps of a value: the wall-clock
    fields; the UTC offset is dropped. *)
Definition stored (d : DateTime) : Z := wall d.

(** [create_reminder].  [new_id] is the primary key the database assigns
    to the inserted row and [now] the value of its [func.now()]; the
    column default gives [status].  [db.refresh] reads the row back, so
    the answer holds what the columns keep. *)
Definition create_reminder (new_id now : Z) (reminder : ReminderCreate)
    (rs : gmap Z Reminder) : Reply Reminder * gmap Z Reminder :=
  let db_reminder :=
    {| id := new_id; title := c_title reminder; message := c_message reminder;
       phone_number := c_phone_number reminder;
       trigger_at := stored (c_trigger_at reminder);
       timezone := c_timezone reminder; status := scheduled; created_at := now |} in
  (Sent db_reminder, <[new_id := db_reminder]> rs).

(** [get_reminder]. *)
Definition get_reminder (reminder_id : Z) (rs : gmap Z Reminder) : Reply Reminder :=
  match rs !! reminder_id with
  | Some reminder => Sent reminder
  | None => not_found
  end.

(** The attributes of a session object between the [setattr] calls and
    the flush: each holds a value or [None]. *)
Record Attrs := {
  a_title : option string;
  a_message : option string;
  a_phone_number : option string;
  a_trigger_at : option DateTime;
  a_timezone : option string;
  a_status : option ReminderStatus;
}.

(** The attributes of a row that was loaded. *)
Definition attrs_of (r : Reminder) : Attrs :=
  {| a_title := Some (title r); a_message := Some (message r);
     a_phone_number := Some (phone_number r);
     a_trigger_at := Some {| wall := trigger_at r; utcoffset := None |};
     a_timezone := Some (timezone r); a_status := Some (status r) |}.

(** [setattr(reminder, field, value)] for one key of
    [model_dump(exclude_unset=True)]: a field the body leaves out is no
    key; a field given as [null] is a key with the value [None]. *)
Definition setattr {A} (f : Patch A) (old : option A) : option A :=
  match f with
  | Unset => old
  | Null => None
  | Value a => Some a
  end.

Definition setattrs (u : ReminderUpdate) (a : Attrs) : Attrs :=
  {| a_title := setattr (u_title u) (a_title a);
     a_message := setattr (u_message u) (a_message a);
     a_phone_number := setattr (u_phone_number u) (a_phone_number a);
     a_trigger_at := setattr (u_trigger_at u) (a_trigger_at a);
     a_timezone := setattr (u_timezone u) (a_timezone a);
     a_status := setattr (u_status u) (a_status a) |}.

(** The row the UPDATE of the flush writes for [r], read back by
    [db.refresh]: every column is [nullable=False], so the statement is
    refused when an attribute is [None]. *)
Definition update_row (r : Reminder) (a : Attrs) : option Reminder :=
  t ← a_title a; m ← a_message a; p ← a_phone_number a;
  d ← a_trigger_at a; z ← a_timezone a; s ← a_status a;
  Some {| id := id r; title := t; message := m; phone_number := p;
          trigger_at := stored d; timezone := z; status := s;
          created_at := created_at r |}.

(** [update_reminder].  The [IntegrityError] of the commit is not
    caught; the session is closed without a commit. *)
Definition update_reminder (reminder_id : Z) (reminder_update : ReminderUpdate)
    (rs : gmap Z Reminder) : Reply Reminder * gmap Z Reminder :=
  match rs !! reminder_id with
  | None => (not_found, rs)
  | Some reminder =>
      match update_row reminder (setattrs reminder_update (attrs_of reminder)) with
      | Some reminder' => (Sent reminder', <[reminder_id := reminder']> rs)
      | None => (IntegrityError, rs)
      end
  end.

(** A body gives [null] for some field. *)
Definition is_null {A} (f : Patch A) : bool :=
  match f with
  | Null => true
  | Unset | Value _ => false
  end.

Definition has_null (u : ReminderUpdate) : bool :=
  is_null (u_title u) || is_null (u_message u) || is_null (u_phone_number u)
  || is_null (u_trigger_at u) || is_null (u_timezone u) || is_null (u_status u).

(** [delete_reminder]. *)
Definition delete_reminder (reminder_id : Z) (rs : gmap Z Reminder)
  : Reply unit * gmap Z Reminder :=
  match rs !! reminder_id with
  | None => (not_found, rs)
  | Some _ => (Sent tt, delete reminder_id rs)
  end.

(** *** [list_reminders] *)

Record ReminderList := {
  items : list Reminder;
  total : nat;
  page_ : Z;
  per_page_ : Z;
}.

Definition earlier (a b : Reminder) : Prop := trigger_at a <= trigger_at b.

#[global] Instance earlier_dec (a b : Reminder) : Decision (earlier a b).
Proof. unfold earlier. apply _. Defined.

#[global] Instance earlier_transitive : Transitive earlier.
Proof. intros a b c. unfold earlier. lia. Qed.

#[global] Instance earlier_total : Total earlier.
Proof. intros a b. unfold earlier. lia. Qed.

Section ListReminders.

(** [title ILIKE pattern], as the database of the deployment evaluates
    it. *)
Variable ilike : string -> string -> bool.

(** The two optional filters: [if status:] holds for every status,
    [if search:] for every search term but the empty one. *)
Definition selected (status_filter : option ReminderStatus) (search : option string)
    (r : Reminder) : bool :=
  match status_filter with
  | Some s => bool_decide (status r = s)
  | None => true
  end
  && match search with
     | Some term =>
         if str_truthy term then ilike (title r) ("%" +:+ term +:+ "%") else true
     | None => true
     end.

(** The rows of the filtered query. *)
Definition matching (status_filter : option ReminderStatus) (search : option string)
    (rs : gmap Z Reminder) : list Reminder :=
  filter (fun r => selected status_filter search r) ((map_to_list rs).*2).

(** [order_by(Reminder.trigger_at.asc())].  Rows of equal [trigger_at]
    come in one order, the same for every query. *)
Definition ordered (l : list Reminder) : list Reminder := merge_sort earlier l.

(** An integer the driver can bind as a parameter of a statement: it
    fits a signed 64-bit integer. *)
Definition bindable (n : Z) : Prop := - 2 ^ 63 <= n < 2 ^ 63.

#[global] Instance bindable_dec (n : Z) : Decision (bindable n).
Proof. unfold bindable. apply _. Defined.


(** What [list_reminders] returns when its two statements run, for a
    [page] and a [per_page] that passed the bounds of their [Query]
    declarations. *)
Definition list_reminders (page per_page : Z) (status_filter : option ReminderStatus)
    (search : option string) (rs : gmap Z Reminder) : ReminderList :=
  let query := matching status_filter search rs in
  {| items := take (Z.to_nat per_page)
                (drop (Z.to_nat ((page - 1) * per_page)) (ordered query));
     total := length query;
     page_ := page;
     per_page_ := per_page |}.


End ListReminders.

(** A body that changes the status only. *)
Definition set_status_body (s : ReminderStatus) : ReminderUpdate :=
  {| u_title := Unset; u_message := Unset; u_phone_number := Unset;
     u_trigger_at := Unset; u_timezone := Unset; u_status := Value s |}.

End Routers.

Module App.

Import Scheduler.

(** *** config.py *)

Record Settings := {
  vapi_api_key : string;
  vapi_api_url : string;
  vapi_assistant_id : string;
  vapi_phone_number_id : string;
}.

(** [VapiService.__init__]. *)
Definition vapi_service (settings : Settings) : Vapi.VapiService :=
  {| Vapi.api_url := vapi_api_url settings;
     Vapi.api_key := vapi_api_key settings;
     Vapi.assistant_id := vapi_assistant_id settings;
     Vapi.phone_number_id := vapi_phone_number_id settings |}.

(** *** main.py: the [/health] endpoint *)

Record Health := {
  health_status : string;
  scheduler_running : bool;
  vapi_configured : bool;
  vapi_healthy : bool;
}.

Definition health_endpoint (settings : Settings)
    (http : VapiHealth.HttpGet -> Vapi.HttpReply) (w : World) : Outcome Health :=
  bind_outcome (fst (VapiHealth.health_check (vapi_service settings) http))
    (fun healthy =>
       Ok {| health_status := "healthy";
             scheduler_running := is_running w;
             vapi_configured := str_truthy (vapi_api_key settings);
             vapi_healthy := healthy |}).

(** *** scheduler.py: [scheduler_lifespan] *)

(** [async with scheduler_lifespan(): body]: [start] on entry, [stop] on
    exit, also when the body raises. *)
Definition scheduler_lifespan {A} (body : M A) (o : WaitOutcome) : M A :=
  start ;; try_finally body (stop o).

(** *** The scheduler over the real call trigger *)

(** The environment of a tick whose calls go through
    [VapiService.trigger_call] over the provider [http]. *)
Definition vapi_env (service : Vapi.VapiService)
    (http : Vapi.HttpRequest -> Vapi.HttpReply) (t : Z)
    (qf : option Exn) (rf : Z -> option Exn)
    (cf : Z -> nat -> option CommitFault) : Env :=
  {| now := t; query_fault := qf; read_fault := rf;
     call_reply := fun _ phone message reminder_title =>
       vapi_reply service http phone message reminder_title;
     commit_fault := cf |}.

(** The reminders for which a call was placed, in order. *)
Definition calls_of (es : list Event) : list Z :=
  omap (fun e => match e with
                 | CallPlaced rid _ _ _ => Some rid
                 | _ => None
                 end) es.

(** The world once an endpoint has left the table as [rs]. *)
Definition with_rows (rs : gmap Z Reminder) (w : World) : World :=
  set_rows (fun _ => rs) w.

(** The events [w'] has recorded since [w]. *)
Definition added (w w' : World) : list Event :=
  drop (length (trace w)) (trace w').

(** The events that open or close a session. *)
Definition is_session_event (e : Event) : bool :=
  match e with
  | SessionOpened | SessionClosed => true
  | _ => false
  end.

Definition no_session_event (es : list Event) : bool :=
  forallb (fun e => negb (is_session_event e)) es.

(** The liveness line of an empty tick. *)
Definition liveness_line (n : Z) : Event :=
  Log INFO ("Scheduler running (check #" +:+ pretty n +:+ ") - no due reminders").

End App.



(** * Proof automation *)

Import Scheduler.

#[local] Arguments pretty : simpl never.
#[local] Arguments String.append : simpl never.

Ltac run_m :=
  cbv [bind try_except try_finally ret raise gets modify emit log exec result
       assign_status db_commit db_rollback trigger_call _get_db db_close
       read_attrs _get_due_reminders count_empty_check
       set_dirty set_rows set_session set_open_sessions set_check_count
       add_event evolve
       fst snd
       rows dirty session open_sessions scheduler_interval_seconds _running _task
       _check_count tasks trace].

Ltac run_life :=
  cbv [bind try_except try_finally ret raise gets modify emit log exec result
       start stop stop_begin stop_join create_task cancel_task run_task
       set_task_state _run_loop is_running trigger_scheduler_manually
       set_running set_task set_tasks add_event negb fst snd
       rows dirty session open_sessions scheduler_interval_seconds _running _task
       _check_count tasks trace].

Ltac run_process :=
  cbv [_process_reminder processed ending ending_result process_events entry_fault
       loaded outcome_line handler_line processing_line call_event];
  run_m.

(** * Properties *)

(** ** The call trigger *)

Section TriggerCall.

Import Vapi.

Variable self : VapiService.
Variable http : HttpRequest -> HttpReply.
Variables phone_number message reminder_title : string.

Lemma str_truthy_false (s : string) : str_truthy s = false <-> s = EmptyString.
Proof. destruct s; simpl; split; congruence. Qed.

Lemma validate_configuration_none :
  _validate_configuration self = None <->
  api_key self <> EmptyString /\ assistant_id self <> EmptyString
  /\ phone_number_id self <> EmptyString.
Proof.
  unfold _validate_configuration.
  destruct (api_key self), (assistant_id self), (phone_number_id self); simpl;
    (split; [intros H; try discriminate H; repeat split; discriminate
            | intros (H1 & H2 & H3); congruence]).
Qed.

Lemma handle_response_returns (r : Response) :
  exists res, handle_response r = Ok res.
Proof.
  unfold handle_response.
  destruct (_ || _); [| eauto].
  destruct (json r) as [j |e]; simpl; [| eauto].
  destruct (model_validate (rejection r) j); simpl; eauto.
Qed.

Lemma trigger_call_configured :
  _validate_configuration self = None ->
  trigger_call self http phone_number message reminder_title =
  (catch_outcome
     (bind_outcome (http (call_request self phone_number message reminder_title))
        handle_response)
     (fun e =>
        match exn_class e with
        | TimeoutException => Ok (failure "Vapi API request timed out")
        | RequestError => Ok (failure ("Vapi API request failed: " +:+ exn_str e))
        | OtherException =>
            Ok (failure ("Unexpected error calling Vapi API: " +:+ exn_str e))
        end),
   [call_request self phone_number message reminder_title]).
Proof. unfold trigger_call. intros ->. reflexivity. Qed.

Lemma trigger_call_returns :
  exists res, fst (trigger_call self http phone_number message reminder_title) = Ok res.
Proof.
  unfold trigger_call.
  destruct (_validate_configuration self); simpl; [eauto |].
  destruct (http _) as [r | e]; simpl.
  - destruct (handle_response_returns r) as [res ->]. simpl. eauto.
  - destruct (exn_class e); eauto.
Qed.

End TriggerCall.

Section TriggerCallClaims.

Import Vapi.

(** C9: [trigger_call] returns a result on every input and never raises.
    When the API key, the assistant id or the phone number id is missing
    the result is a non-success one and no request has been sent; when the
    network call raises (a timeout, a connection failure, any other
    exception) the result is a non-success one that carries the error
    message. *)
Theorem trigger_call_never_raises
    (self : VapiService) (http : HttpRequest -> HttpReply)
    (phone_number message reminder_title : string) :
  (exists res, fst (trigger_call self http phone_number message reminder_title) = Ok res)
  /\ (api_key self = EmptyString \/ assistant_id self = EmptyString
      \/ phone_number_id self = EmptyString ->
      exists msg,
        trigger_call self http phone_number message reminder_title
        = (Ok {| success := false; call_id := None; error_message := Some msg |}, []))
  /\ (forall e,
        _validate_configuration self = None ->
        http (call_request self phone_number message reminder_title) = Raise e ->
        fst (trigger_call self http phone_number message reminder_title)
        = Ok {| success := false; call_id := None;
                error_message := Some (transport_message e) |}).
Proof.
  split; [apply trigger_call_returns |]. split.
  - intros Hmiss.
    destruct (_validate_configuration self) as [m |] eqn:Hcfg.
    + exists m. unfold trigger_call. rewrite Hcfg. reflexivity.
    + apply validate_configuration_none in Hcfg. tauto.
  - intros e Hcfg He.
    rewrite trigger_call_configured by exact Hcfg. simpl. rewrite He. simpl.
    unfold transport_message, failure. destruct (exn_class e); reflexivity.
Qed.



End TriggerCallClaims.

(** ** The reminder processor *)

Lemma world_eq_trace rs d ss n i b t c ts es es' :
  es = es' ->
  {| rows := rs; dirty := d; session := ss; open_sessions := n;
     scheduler_interval_seconds := i; _running := b; _task := t;
     _check_count := c; tasks := ts; trace := es |}
  = {| rows := rs; dirty := d; session := ss; open_sessions := n;
       scheduler_interval_seconds := i; _running := b; _task := t;
       _check_count := c; tasks := ts; trace := es' |}.
Proof. intros ->. reflexivity. Qed.

(** What [_process_reminder] returns or raises, and the world it
    leaves. *)
Lemma process_reminder_spec (env : Env) (r : Reminder) (w : World) :
  usable (session w) ->
  _process_reminder env r w
  = (ending_result (ending env (loaded (session w)) r), processed env r w).
Proof.
  destruct w as [rs d ss n i b t c ts es0]. simpl. intros [-> | ->].
  - destruct (call_reply env (id r) (phone_number r) (message r) (title r))
      as [res | e] eqn:Hcall;
      [destruct (Vapi.success res) eqn:Hs |];
      destruct (commit_fault env (id r) 0) as [[e0 p0 | e0 a0] |] eqn:H0;
      destruct (commit_fault env (id r) 1) as [[e1 p1 | e1 a1] |] eqn:H1;
      repeat (progress (run_process; try rewrite Hcall; try rewrite Hs;
                        try rewrite H0; try rewrite H1));
      rewrite ?insert_insert_eq;
      f_equal; apply world_eq_trace; rewrite <- ?app_assoc; reflexivity.
  - destruct (read_fault env (id r)) as [er |] eqn:Hread;
      [run_process; rewrite Hread; reflexivity |].
    destruct (call_reply env (id r) (phone_number r) (message r) (title r))
      as [res | e] eqn:Hcall;
      [destruct (Vapi.success res) eqn:Hs |];
      destruct (commit_fault env (id r) 0) as [[e0 p0 | e0 a0] |] eqn:H0;
      destruct (commit_fault env (id r) 1) as [[e1 p1 | e1 a1] |] eqn:H1;
      repeat (progress (run_process; try rewrite Hread; try rewrite Hcall;
                        try rewrite Hs; try rewrite H0; try rewrite H1));
      rewrite ?insert_insert_eq;
      f_equal; apply world_eq_trace; rewrite <- ?app_assoc; reflexivity.
Qed.

Lemma with_status_same (r : Reminder) : with_status (status r) r = r.
Proof. destruct r; reflexivity. Qed.

Lemma lookup_flush (d : gmap Z ReminderStatus) (rs : gmap Z Reminder) (k : Z) :
  flush d rs !! k
  = (fun r => match d !! k with
              | Some s => with_status s r
              | None => r
              end) <$> rs !! k.
Proof.
  unfold flush. rewrite map_lookup_imap.
  destruct (rs !! k); reflexivity.
Qed.

Lemma lookup_apply_decision (env : Env) (rs : gmap Z Reminder) (r : Reminder) (k : Z) :
  apply_decision env rs r !! k
  = if decide (k = id r) then
      (fun r0 => match decided_status env r with
                 | Some s => with_status s r0
                 | None => r0
                 end) <$> rs !! k
    else rs !! k.
Proof.
  unfold apply_decision.
  destruct (decided_status env r) as [s |].
  - rewrite lookup_flush. case_decide as Hk.
    + subst k. rewrite lookup_singleton_eq. reflexivity.
    + rewrite lookup_singleton_ne by congruence.
      destruct (rs !! k); reflexivity.
  - case_decide; [| reflexivity]. destruct (rs !! k); reflexivity.
Qed.

Lemma evolve_evolve rs1 d1 s1 es1 rs2 d2 s2 es2 (w : World) :
  evolve rs2 d2 s2 es2 (evolve rs1 d1 s1 es1 w) = evolve rs2 d2 s2 (es1 ++ es2) w.
Proof. unfold evolve; simpl. rewrite app_assoc. reflexivity. Qed.

Lemma evolve_id (w : World) : evolve (rows w) (dirty w) (session w) [] w = w.
Proof. destruct w; unfold evolve; simpl. rewrite app_nil_r. reflexivity. Qed.

(** *** How the processing of one reminder ends *)

Lemma ending_recorded (env : Env) (b : bool) (r : Reminder) (s : ReminderStatus) :
  ending env b r = Recorded s ->
  entry_fault env b r = None /\ decided_status env r = Some s /\ terminal s = true.
Proof.
  unfold ending, decided_status.
  destruct (entry_fault env b r); [discriminate |].
  destruct (call_reply env _ _ _ _) as [res | e].
  - destruct (commit_fault env (id r) 0) as [[] |]; intros [= <-].
    destruct (Vapi.success res); auto.
  - destruct (commit_fault env (id r) 1); intros [= <-]. auto.
Qed.

Lemma ending_unrecorded (env : Env) (b : bool) (r : Reminder) :
  ending env b r = Unrecorded ->
  entry_fault env b r = None /\ decided_status env r = None
  /\ In RolledBack (process_events env b r).
Proof.
  unfold ending, decided_status, process_events.
  destruct (entry_fault env b r); [discriminate |].
  destruct (call_reply env _ _ _ _) as [res | e].
  - destruct (commit_fault env (id r) 0) as [[] |]; intros [=]. simpl. auto 10.
  - destruct (commit_fault env (id r) 1); intros [=]. simpl. auto 10.
Qed.

Lemma ending_escaped (env : Env) (b : bool) (r : Reminder) (e : Exn) (called : bool) :
  ending env b r = Escaped e called ->
  decided_status env r = None \/ called = false.
Proof.
  unfold ending, decided_status.
  destruct (entry_fault env b r); [intros [= <- <-]; auto |].
  destruct (call_reply env _ _ _ _) as [res | e'].
  - destruct (commit_fault env (id r) 0) as [[] |]; intros [=]. auto.
  - destruct (commit_fault env (id r) 1); intros [=].
Qed.

Lemma ending_escaped_before (env : Env) (b : bool) (r : Reminder) (e : Exn) :
  ending env b r = Escaped e false ->
  entry_fault env b r = Some e /\ process_events env b r = [].
Proof.
  unfold ending, process_events.
  destruct (entry_fault env b r); [intros [= <-]; auto |].
  destruct (call_reply env _ _ _ _) as [res | e'].
  - destruct (commit_fault env (id r) 0) as [[] |]; intros [=].
  - destruct (commit_fault env (id r) 1); intros [=].
Qed.

Lemma ending_escaped_called (env : Env) (b : bool) (r : Reminder) (e : Exn) :
  ending env b r = Escaped e true ->
  entry_fault env b r = None
  /\ exists res e0,
       call_reply env (id r) (phone_number r) (message r) (title r) = Ok res
       /\ commit_fault env (id r) 0 = Some (FlushFailed e0 e).
Proof.
  unfold ending.
  destruct (entry_fault env b r); [intros [=] |].
  destruct (call_reply env _ _ _ _) as [res | e'].
  - destruct (commit_fault env (id r) 0) as [[] |]; intros [= <-]. eauto.
  - destruct (commit_fault env (id r) 1); intros [=].
Qed.

Lemma entry_fault_loaded (env : Env) (r : Reminder) : entry_fault env true r = None.
Proof. reflexivity. Qed.

Lemma process_events_read (env : Env) (b : bool) (r : Reminder) :
  entry_fault env b r = None -> process_events env b r = process_events env true r.
Proof. unfold process_events. intros ->. reflexivity. Qed.

Lemma ending_read (env : Env) (b : bool) (r : Reminder) :
  entry_fault env b r = None -> ending env b r = ending env true r.
Proof. unfold ending. intros ->. reflexivity. Qed.

Lemma ending_steady (env : Env) (b : bool) (r : Reminder) :
  steady env ->
  match decided_status env r with
  | Some s => ending env b r = Recorded s
  | None => ending env b r = Unrecorded
  end.
Proof.
  intros [Hread Hflush]. unfold ending, decided_status, entry_fault.
  rewrite Hread. destruct b;
    (destruct (call_reply env _ _ _ _) as [res | e];
     [ pose proof (Hflush (id r)) as Hf;
       destruct (commit_fault env (id r) 0) as [[e0 p | e0 a] |];
       [exfalso; eapply Hf; reflexivity | reflexivity | reflexivity]
     | destruct (commit_fault env (id r) 1); reflexivity ]).
Qed.

(** *** The batch *)

Lemma attempted_prefix (env : Env) (b : bool) (l : list Reminder) :
  attempted env b l `prefix_of` l.
Proof.
  revert b. induction l as [| r l IH]; intros b; simpl; [reflexivity |].
  destruct (ending env b r) as [s | | e called].
  - apply prefix_cons, IH.
  - apply prefix_cons, IH.
  - destruct called; [apply prefix_cons, prefix_nil | apply prefix_nil].
Qed.

Lemma attempted_sublist (env : Env) (b : bool) (l : list Reminder) :
  attempted env b l `sublist_of` l.
Proof.
  revert b. induction l as [| r l IH]; intros b; simpl; [reflexivity |].
  destruct (ending env b r) as [s | | e called].
  - apply sublist_skip, IH.
  - apply sublist_skip, IH.
  - destruct called; [apply sublist_skip, sublist_nil_l | apply sublist_nil_l].
Qed.

Lemma attempted_In (env : Env) (b : bool) (l : list Reminder) (r : Reminder) :
  In r (attempted env b l) -> In r l.
Proof.
  intros Hin. apply list_elem_of_In.
  eapply sublist_subseteq; [apply attempted_sublist |].
  apply list_elem_of_In. exact Hin.
Qed.

Lemma attempted_NoDup (env : Env) (b : bool) (l : list Reminder) :
  NoDup (id <$> l) -> NoDup (id <$> attempted env b l).
Proof.
  intros Hnd. eapply sublist_NoDup; [exact Hnd |].
  apply fmap_sublist, attempted_sublist.
Qed.

Lemma attempted_steady (env : Env) (b : bool) (l : list Reminder) :
  steady env -> attempted env b l = l /\ each_result env b l = Ok tt.
Proof.
  intros Hst. revert b. induction l as [| r l IH]; intros b; simpl; [auto |].
  pose proof (ending_steady env b r Hst) as He.
  destruct (decided_status env r); rewrite He; destruct (IH false) as [-> ->]; auto.
Qed.

Lemma attempted_head (env : Env) (r : Reminder) (l : list Reminder) :
  In r (attempted env true (r :: l)).
Proof.
  simpl. destruct (ending env true r) as [s | | e called] eqn:He;
    try (left; reflexivity).
  destruct called; [left; reflexivity |].
  apply ending_escaped_before in He as [He _]. discriminate He.
Qed.

(** The events of a reminder whose call was placed are events of the
    batch. *)
Lemma attempted_events (env : Env) (b : bool) (l : list Reminder) (r : Reminder) :
  In r (attempted env b l) ->
  forall x, In x (process_events env true r) -> In x (each_events env b l).
Proof.
  revert b. induction l as [| r0 l IH]; intros b Hin x Hx; [contradiction |].
  simpl in *. apply in_or_app.
  destruct (ending env b r0) as [s | | e called] eqn:He.
  - destruct Hin as [-> | Hin]; [left | right; eauto].
    apply ending_recorded in He as [Hf _].
    rewrite process_events_read by exact Hf. exact Hx.
  - destruct Hin as [-> | Hin]; [left | right; eauto].
    apply ending_unrecorded in He as [Hf _].
    rewrite process_events_read by exact Hf. exact Hx.
  - destruct called; [| contradiction].
    destruct Hin as [-> | []]. left.
    apply ending_escaped_called in He as [Hf _].
    rewrite process_events_read by exact Hf. exact Hx.
Qed.

Lemma each_events_from (env : Env) (b : bool) (l : list Reminder) (x : Event) :
  In x (each_events env b l) ->
  exists r, In r (attempted env b l) /\ In x (process_events env true r).
Proof.
  revert b. induction l as [| r0 l IH]; intros b Hx; [contradiction |].
  simpl in *. apply in_app_or in Hx.
  destruct (ending env b r0) as [s | | e called] eqn:He.
  - destruct Hx as [Hx | Hx].
    + exists r0. split; [left; reflexivity |].
      apply ending_recorded in He as [Hf _].
      rewrite (process_events_read env b r0 Hf) in Hx. exact Hx.
    + destruct (IH false Hx) as (r & Hr & Hx'). exists r. split; [right |]; auto.
  - destruct Hx as [Hx | Hx].
    + exists r0. split; [left; reflexivity |].
      apply ending_unrecorded in He as [Hf _].
      rewrite (process_events_read env b r0 Hf) in Hx. exact Hx.
    + destruct (IH false Hx) as (r & Hr & Hx'). exists r. split; [right |]; auto.
  - destruct Hx as [Hx | []]. destruct called.
    + exists r0. split; [left; reflexivity |].
      apply ending_escaped_called in He as [Hf _].
      rewrite (process_events_read env b r0 Hf) in Hx. exact Hx.
    + apply ending_escaped_before in He as [_ He]. rewrite He in Hx. contradiction.
Qed.

Lemma process_events_call (env : Env) (r : Reminder) :
  In (call_event r) (process_events env true r)
  /\ (forall rid p m t, In (CallPlaced rid p m t) (process_events env true r) ->
      CallPlaced rid p m t = call_event r)
  /\ (forall x, In x (process_events env true r) ->
      x <> SessionOpened /\ x <> SessionClosed)
  /\ (forall res,
        call_reply env (id r) (phone_number r) (message r) (title r) = Ok res ->
        In (outcome_line r res) (process_events env true r)).
Proof.
  unfold process_events, entry_fault, processing_line, handler_line, call_event.
  assert (Hline : forall res x, x = outcome_line r res ->
            (forall rid p m t, x <> CallPlaced rid p m t)
            /\ x <> SessionOpened /\ x <> SessionClosed).
  { intros res x ->. unfold outcome_line.
    destruct (Vapi.success res); repeat split; try intros ? ? ? ?; discriminate. }
  destruct (call_reply env _ _ _ _) as [res | e];
    destruct (commit_fault env (id r) 0) as [[] |];
    destruct (commit_fault env (id r) 1) as [[] |];
    (split; [simpl; auto |]);
    (split; [intros rid p m t Hin; simpl in Hin;
             repeat (destruct Hin as [Hin | Hin];
                     [ try discriminate Hin; try (symmetry; exact Hin);
                       destruct (Hline _ _ (eq_sym Hin)) as [Hc _];
                       exfalso; exact (Hc _ _ _ _ eq_refl)
                     |]);
             contradiction |]);
    (split; [intros x Hin; simpl in Hin;
             repeat (destruct Hin as [Hin | Hin];
                     [ try (subst x; split; discriminate);
                       destruct (Hline _ _ (eq_sym Hin)) as (_ & Ho & Hc);
                       split; assumption
                     |]);
             contradiction |]);
    intros res0 [=]; subst; simpl; auto.
Qed.

Lemma process_each_spec (env : Env) (l : list Reminder) (w : World) :
  usable (session w) -> dirty w = ∅ ->
  process_each env l w
  = (each_result env (loaded (session w)) l,
     evolve (fold_left (apply_decision env)
               (attempted env (loaded (session w)) l) (rows w))
       ∅ (each_session env (session w) (loaded (session w)) l)
       (each_events env (loaded (session w)) l) w).
Proof.
  revert w. induction l as [| r l IH]; intros w Hus Hd.
  - cbn [process_each each_result attempted each_session each_events fold_left].
    rewrite <- Hd, evolve_id. reflexivity.
  - change (process_each env (r :: l) w)
      with (bind (_process_reminder env r) (fun _ => process_each env l) w).
    unfold bind. rewrite process_reminder_spec by exact Hus.
    unfold processed.
    cbn [each_result attempted each_session each_events fold_left].
    destruct (ending env (loaded (session w)) r) as [s | | e called] eqn:He;
      cbn [ending_result].
    + apply ending_recorded in He as (_ & Hdec & _).
      rewrite IH by (first [right; reflexivity | reflexivity]).
      cbn [evolve session rows loaded]. rewrite evolve_evolve.
      assert (Hrows : apply_decision env (rows w) r
                      = flush (<[id r := s]> (dirty w)) (rows w))
        by (unfold apply_decision; rewrite Hdec, Hd, insert_empty; reflexivity).
      cbn [fold_left]. rewrite Hrows. reflexivity.
    + apply ending_unrecorded in He as (_ & Hdec & _).
      rewrite IH by (first [right; reflexivity | reflexivity]).
      cbn [evolve session rows loaded]. rewrite evolve_evolve.
      assert (Hrows : apply_decision env (rows w) r = rows w)
        by (unfold apply_decision; rewrite Hdec; reflexivity).
      cbn [fold_left]. rewrite Hrows. reflexivity.
    + destruct called.
      * apply ending_escaped_called in He as (_ & res & e0 & Hcall & Hc).
        cbn [fold_left]. rewrite app_nil_r.
        unfold apply_decision, decided_status. rewrite Hcall, Hc. reflexivity.
      * apply ending_escaped_before in He as [_ Hpe]. rewrite Hpe.
        cbn [fold_left app]. rewrite <- Hd, evolve_id. reflexivity.
Qed.

(** One tick: what it returns, the world it leaves and the events it
    adds. *)
Lemma tick_spec (env : Env) (w : World) :
  exists mid c,
    _check_and_process_reminders env w
    = (Ok tt,
       {| rows := tick_rows env (rows w); dirty := ∅; session := Expired;
          open_sessions := open_sessions w;
          scheduler_interval_seconds := scheduler_interval_seconds w;
          _running := _running w; _task := _task w; _check_count := c;
          tasks := tasks w;
          trace := (trace w ++ [SessionOpened] ++ mid ++ [SessionClosed])%list |})
    /\ match query_fault env with
       | Some e =>
           mid = [Log ERROR ("Error checking for due reminders: " +:+ exn_str e)]
           /\ c = _check_count w
       | None =>
           match due_rows (now env) (rows w) with
           | [] =>
               let counted := match _check_count w with
                              | Some n => n + 1
                              | None => 1
                              end in
               c = Some counted
               /\ mid = ([Queried; Log DEBUG "No due reminders found"]
                         ++ if (counted mod 10 =? 0)%Z
                            then [App.liveness_line counted] else [])%list
           | r :: l =>
               c = _check_count w
               /\ mid = ([Queried;
                          Log INFO ("Found " +:+ pretty (length (r :: l))
                                    +:+ " due reminder(s) to process")]
                         ++ each_events env true (r :: l)
                         ++ match each_result env true (r :: l) with
                            | Raise e =>
                                [Log ERROR ("Error checking for due reminders: "
                                            +:+ exn_str e)]
                            | Ok _ => []
                            end)%list
           end
       end.
Proof.
  destruct w as [rs d ss n i b t c ts es0].
  unfold _check_and_process_reminders, tick_rows.
  destruct (query_fault env) as [e |] eqn:Hq.
  - run_m. rewrite Hq. run_m.
    eexists. eexists. split; [| split; reflexivity].
    f_equal. apply world_eq_trace. rewrite <- !app_assoc. reflexivity.
  - run_m. rewrite Hq. run_m.
    destruct (due_rows (now env) rs) as [| r l] eqn:Hdue.
    + destruct c as [k |]; run_m;
        match goal with
        | |- context [(?x mod 10 =? 0)%Z] => destruct (x mod 10 =? 0)%Z
        end;
        run_m;
        (eexists; eexists; split; [| split; reflexivity]);
        f_equal; apply world_eq_trace; rewrite <- !app_assoc; reflexivity.
    + match goal with
      | |- context [process_each env ?l ?w0] =>
          rewrite (process_each_spec env l w0 (or_introl eq_refl) eq_refl)
      end.
      cbn [session loaded rows].
      destruct (each_result env true (r :: l)) as [[] | e]; run_m;
        (eexists; eexists; split; [| split; reflexivity]);
        f_equal; apply world_eq_trace; rewrite <- !app_assoc; reflexivity.
Qed.

(** ** The due query and the rows after a tick *)

Lemma keyed_lookup (rs : gmap Z Reminder) (k : Z) (r : Reminder) :
  keyed rs -> rs !! k = Some r -> id r = k.
Proof. intros Hk Hr. exact (Hk k r Hr). Qed.

Lemma due_rows_perm (rs : gmap Z Reminder) (t : Z) :
  due_rows t rs ≡ₚ filter (fun r => is_due t r) ((map_to_list rs).*2).
Proof. apply merge_sort_Permutation. Qed.

Lemma due_rows_elem (rs : gmap Z Reminder) (t : Z) (r : Reminder) :
  keyed rs ->
  In r (due_rows t rs) <-> rs !! id r = Some r /\ is_due t r = true.
Proof.
  intros Hk.
  rewrite <- list_elem_of_In, due_rows_perm, list_elem_of_filter, list_elem_of_fmap.
  rewrite Is_true_true. split.
  - intros (Hdue & [k r'] & -> & Hin). simpl in *.
    apply elem_of_map_to_list in Hin.
    rewrite (keyed_lookup rs k r' Hk Hin). auto.
  - intros (Hr & Hdue). split; [exact Hdue |].
    exists (id r, r). split; [reflexivity |].
    apply elem_of_map_to_list. exact Hr.
Qed.

Lemma keyed_ids (rs : gmap Z Reminder) :
  keyed rs -> id <$> (map_to_list rs).*2 = (map_to_list rs).*1.
Proof.
  intros Hk.
  assert (H : Forall (fun kr => id kr.2 = kr.1) (map_to_list rs)).
  { apply Forall_forall. intros [k r] Hin. simpl.
    apply elem_of_map_to_list in Hin. exact (Hk k r Hin). }
  induction H as [| [k r] l Hx _ IH]; [reflexivity |].
  rewrite !fmap_cons. simpl in *. f_equal; [exact Hx | exact IH].
Qed.

Lemma due_rows_NoDup (rs : gmap Z Reminder) (t : Z) :
  keyed rs -> NoDup (id <$> due_rows t rs).
Proof.
  intros Hk. rewrite due_rows_perm.
  eapply sublist_NoDup; [| apply fmap_sublist, sublist_filter].
  rewrite keyed_ids by exact Hk. apply NoDup_fst_map_to_list.
Qed.

Lemma lookup_decisions_other (env : Env) (l : list Reminder)
    (rs : gmap Z Reminder) (k : Z) :
  (forall r, In r l -> id r <> k) ->
  fold_left (apply_decision env) l rs !! k = rs !! k.
Proof.
  revert rs. induction l as [| r l IH]; intros rs Hne; simpl; [reflexivity |].
  rewrite IH by (intros; apply Hne; right; assumption).
  rewrite lookup_apply_decision.
  case_decide as Hk; [| reflexivity].
  exfalso. apply (Hne r); [left; reflexivity | congruence].
Qed.

Lemma lookup_decisions_elem (env : Env) (l : list Reminder)
    (rs : gmap Z Reminder) (r : Reminder) :
  NoDup (id <$> l) -> In r l ->
  fold_left (apply_decision env) l rs !! id r
  = (fun r0 => match decided_status env r with
               | Some s => with_status s r0
               | None => r0
               end) <$> rs !! id r.
Proof.
  revert rs. induction l as [| r' l IH]; intros rs Hnd Hin; [contradiction |].
  simpl in *. apply NoDup_cons in Hnd as [Hnotin Hnd].
  destruct Hin as [-> | Hin].
  - rewrite lookup_decisions_other.
    + rewrite lookup_apply_decision. rewrite decide_True by reflexivity. reflexivity.
    + intros r0 Hr0 Heq. apply Hnotin. rewrite <- Heq.
      apply list_elem_of_fmap. exists r0. split; [reflexivity |].
      apply list_elem_of_In. exact Hr0.
  - rewrite IH by assumption.
    rewrite lookup_apply_decision. rewrite decide_False; [reflexivity |].
    intros Heq. apply Hnotin. rewrite <- Heq.
    apply list_elem_of_fmap. exists r. split; [reflexivity |].
    apply list_elem_of_In. exact Hin.
Qed.

Lemma lookup_decisions_shape (env : Env) (l : list Reminder)
    (rs : gmap Z Reminder) (k : Z) :
  fold_left (apply_decision env) l rs !! k = None /\ rs !! k = None
  \/ exists r0 s, rs !! k = Some r0
       /\ fold_left (apply_decision env) l rs !! k = Some (with_status s r0).
Proof.
  revert rs. induction l as [| r l IH]; intros rs; simpl.
  - destruct (rs !! k) as [r0 |] eqn:Hr; [right | left; auto].
    exists r0, (status r0). rewrite with_status_same. auto.
  - destruct (IH (apply_decision env rs r)) as [[H1 H2] | (r0 & s & H1 & H2)].
    + left. split; [exact H1 |].
      rewrite lookup_apply_decision in H2.
      case_decide; [| exact H2]. destruct (rs !! k); [discriminate H2 | reflexivity].
    + right. rewrite lookup_apply_decision in H1.
      case_decide as Hk; [| eauto].
      destruct (rs !! k) as [r1 |]; [| discriminate H1].
      simpl in H1. injection H1 as <-.
      destruct (decided_status env r) as [s' |]; [| eauto].
      exists r1, s. split; [reflexivity |]. rewrite H2.
      destruct r1; reflexivity.
Qed.

Lemma tick_rows_shape (env : Env) (rs : gmap Z Reminder) (k : Z) :
  tick_rows env rs !! k = None /\ rs !! k = None
  \/ exists r0 s, rs !! k = Some r0 /\ tick_rows env rs !! k = Some (with_status s r0).
Proof.
  unfold tick_rows. destruct (query_fault env); [| apply lookup_decisions_shape].
  destruct (rs !! k) as [r0 |] eqn:Hr; [right | left; auto].
  exists r0, (status r0). rewrite with_status_same. auto.
Qed.

Lemma tick_rows_keyed (env : Env) (rs : gmap Z Reminder) :
  keyed rs -> keyed (tick_rows env rs).
Proof.
  intros Hk k r Hr.
  destruct (tick_rows_shape env rs k) as [[H1 _] | (r0 & s & H1 & H2)];
    [congruence |].
  rewrite H2 in Hr. injection Hr as <-. simpl. exact (Hk k r0 H1).
Qed.

(** The row of a reminder whose call was placed. *)
Lemma tick_rows_attempted (env : Env) (rs : gmap Z Reminder) (k : Z) (r : Reminder) :
  keyed rs -> query_fault env = None ->
  rs !! k = Some r ->
  In r (attempted env true (due_rows (now env) rs)) ->
  tick_rows env rs !! k
  = Some (match decided_status env r with
          | Some s => with_status s r
          | None => r
          end).
Proof.
  intros Hk Hq Hr Hin. unfold tick_rows. rewrite Hq.
  pose proof (keyed_lookup rs k r Hk Hr) as Hid. subst k.
  rewrite lookup_decisions_elem.
  - rewrite Hr. reflexivity.
  - apply attempted_NoDup, due_rows_NoDup, Hk.
  - exact Hin.
Qed.

(** The row of a reminder whose call was not placed. *)
Lemma tick_rows_unattempted (env : Env) (rs : gmap Z Reminder) (k : Z) (r : Reminder) :
  keyed rs -> rs !! k = Some r ->
  ~ In r (attempted env true (due_rows (now env) rs)) ->
  tick_rows env rs !! k = Some r.
Proof.
  intros Hk Hr Hnot. unfold tick_rows.
  destruct (query_fault env); [exact Hr |].
  rewrite lookup_decisions_other; [exact Hr |].
  intros r' Hin Hid. apply Hnot.
  pose proof (attempted_In _ _ _ _ Hin) as Hdue.
  apply due_rows_elem in Hdue as [Hr' _]; [| exact Hk].
  rewrite Hid, Hr in Hr'. injection Hr' as ->. exact Hin.
Qed.

Lemma tick_rows_not_due (env : Env) (rs : gmap Z Reminder) (k : Z) (r : Reminder) :
  keyed rs -> rs !! k = Some r -> is_due (now env) r = false ->
  tick_rows env rs !! k = Some r.
Proof.
  intros Hk Hr Hdue. apply tick_rows_unattempted; [exact Hk | exact Hr |].
  intros Hin. apply attempted_In, due_rows_elem in Hin as [_ Hd]; [| exact Hk].
  congruence.
Qed.

(** In a steady tick the call is placed for every due reminder. *)
Lemma steady_attempted (env : Env) (rs : gmap Z Reminder) (k : Z) (r : Reminder) :
  steady env -> keyed rs -> rs !! k = Some r -> is_due (now env) r = true ->
  In r (attempted env true (due_rows (now env) rs)).
Proof.
  intros Hst Hk Hr Hdue.
  destruct (attempted_steady env true (due_rows (now env) rs) Hst) as [-> _].
  apply due_rows_elem; [exact Hk |].
  rewrite (keyed_lookup rs k r Hk Hr). auto.
Qed.

Lemma tick_rows_due (env : Env) (rs : gmap Z Reminder) (k : Z) (r : Reminder) :
  steady env -> keyed rs -> query_fault env = None ->
  rs !! k = Some r -> is_due (now env) r = true ->
  tick_rows env rs !! k
  = Some (match decided_status env r with
          | Some s => with_status s r
          | None => r
          end).
Proof.
  intros Hst Hk Hq Hr Hdue.
  apply tick_rows_attempted; auto.
  eapply steady_attempted; eauto.
Qed.

Lemma decided_status_terminal (env : Env) (r : Reminder) (s : ReminderStatus) :
  decided_status env r = Some s -> terminal s = true.
Proof.
  unfold decided_status.
  destruct (call_reply env _ _ _ _) as [res | e];
    [destruct (commit_fault env (id r) 0), (Vapi.success res) |];
    destruct (commit_fault env (id r) 1);
    intros [= <-]; reflexivity.
Qed.

Lemma is_due_scheduled (t : Z) (r : Reminder) :
  is_due t r = true <-> status r = scheduled /\ trigger_at r <= t.
Proof.
  unfold is_due. rewrite andb_true_iff, bool_decide_eq_true, Z.leb_le. tauto.
Qed.

Lemma is_due_false (t : Z) (r : Reminder) :
  trigger_at r > t \/ status r <> scheduled -> is_due t r = false.
Proof.
  intros H. destruct (is_due t r) eqn:Hd; [| reflexivity].
  apply is_due_scheduled in Hd as [Hs Ht]. destruct H; [lia | contradiction].
Qed.

(** A tick leaves a row as it is, or gives a due row the status its
    processing decided. *)
Lemma tick_rows_cases (env : Env) (rs : gmap Z Reminder) (k : Z) (r : Reminder) :
  keyed rs -> rs !! k = Some r ->
  tick_rows env rs !! k = Some r
  \/ (query_fault env = None /\ is_due (now env) r = true
      /\ In r (attempted env true (due_rows (now env) rs))
      /\ exists s, decided_status env r = Some s
                   /\ tick_rows env rs !! k = Some (with_status s r)).
Proof.
  intros Hk Hr.
  destruct (query_fault env) as [e |] eqn:Hq.
  { left. unfold tick_rows. rewrite Hq. exact Hr. }
  destruct (decide (r ∈ attempted env true (due_rows (now env) rs))) as [Hin | Hnot];
    rewrite list_elem_of_In in *.
  - rewrite (tick_rows_attempted env rs k r Hk Hq Hr Hin).
    destruct (decided_status env r) as [s |] eqn:Hdec; [right | left; reflexivity].
    split; [reflexivity |]. split; [| split; [exact Hin | eauto]].
    apply attempted_In, due_rows_elem in Hin as [_ Hd]; [exact Hd | exact Hk].
  - left. apply tick_rows_unattempted; assumption.
Qed.

Lemma rows_tick (env : Env) (w : World) :
  rows (tick env w) = tick_rows env (rows w).
Proof.
  unfold tick, exec.
  destruct (tick_spec env w) as (mid & c & -> & _). reflexivity.
Qed.

Lemma tick_returns (env : Env) (w : World) :
  result (_check_and_process_reminders env) w = Ok tt.
Proof.
  unfold result.
  destruct (tick_spec env w) as (mid & c & -> & _). reflexivity.
Qed.

Lemma tick_control (env : Env) (w : World) :
  _running (tick env w) = _running w
  /\ _task (tick env w) = _task w
  /\ tasks (tick env w) = tasks w
  /\ scheduler_interval_seconds (tick env w) = scheduler_interval_seconds w
  /\ open_sessions (tick env w) = open_sessions w
  /\ dirty (tick env w) = ∅.
Proof.
  unfold tick, exec.
  destruct (tick_spec env w) as (mid & c & -> & _). simpl. auto 10.
Qed.

(** What a tick adds to the trace. *)
Lemma tick_events (env : Env) (w : World) :
  exists es,
    trace (tick env w) = (trace w ++ es)%list
    /\ In SessionClosed es
    /\ (forall e, query_fault env = Some e ->
        es = [SessionOpened;
              Log ERROR ("Error checking for due reminders: " +:+ exn_str e);
              SessionClosed])
    /\ (query_fault env = None ->
        forall r, In r (attempted env true (due_rows (now env) (rows w))) ->
          In (call_event r) es
          /\ (forall res,
                call_reply env (id r) (phone_number r) (message r) (title r) = Ok res ->
                In (outcome_line r res) es)
          /\ (ending env true r = Unrecorded -> In RolledBack es))
    /\ (forall rid p m t, In (CallPlaced rid p m t) es ->
        query_fault env = None
        /\ exists r, In r (attempted env true (due_rows (now env) (rows w)))
                     /\ CallPlaced rid p m t = call_event r).
Proof.
  unfold tick, exec.
  destruct (tick_spec env w) as (mid & c & -> & Hmid).
  exists ([SessionOpened] ++ mid ++ [SessionClosed])%list.
  cbn [snd trace]. split; [reflexivity |].
  split; [apply in_or_app; right; apply in_or_app; right; left; reflexivity |].
  destruct (query_fault env) as [e |] eqn:Hq.
  { destruct Hmid as [-> _]. split; [intros e' [= <-]; reflexivity |].
    split; [discriminate |].
    intros rid p m t Hin. simpl in Hin.
    repeat (destruct Hin as [Hin | Hin]; [discriminate Hin |]). contradiction. }
  split; [discriminate |].
  destruct (due_rows (now env) (rows w)) as [| r0 l] eqn:Hdue.
  { destruct Hmid as [_ ->]. split; [intros _ r [] |].
    intros rid p m t Hin. exfalso.
    destruct ((_ mod 10 =? 0)%Z); unfold App.liveness_line in Hin; simpl in Hin;
      repeat (destruct Hin as [Hin | Hin]; [discriminate Hin |]); contradiction. }
  destruct Hmid as [_ ->].
  assert (Hsub : forall x, In x (each_events env true (r0 :: l)) ->
            In x ([SessionOpened]
                  ++ ([Queried;
                       Log INFO ("Found " +:+ pretty (length (r0 :: l))
                                 +:+ " due reminder(s) to process")]
                      ++ each_events env true (r0 :: l)
                      ++ match each_result env true (r0 :: l) with
                         | Ok _ => []
                         | Raise e =>
                             [Log ERROR ("Error checking for due reminders: "
                                         +:+ exn_str e)]
                         end)
                  ++ [SessionClosed])%list).
  { intros x Hx. apply in_or_app. right. apply in_or_app. left.
    apply in_or_app. right. apply in_or_app. left. exact Hx. }
  split.
  - intros _ r Hr.
    pose proof (attempted_events env true (r0 :: l) r Hr) as Hev.
    destruct (process_events_call env r) as (Hcall & _ & _ & Hline).
    split; [apply Hsub, Hev, Hcall |].
    split; [intros res Hres; apply Hsub, Hev, Hline, Hres |].
    intros Hend. apply Hsub, Hev.
    apply ending_unrecorded in Hend as (_ & _ & Hrb). exact Hrb.
  - intros rid p m t Hin. split; [reflexivity |].
    apply in_app_or in Hin as [Hin | Hin];
      [destruct Hin as [Hin | []]; discriminate Hin |].
    apply in_app_or in Hin as [Hin | Hin];
      [| destruct Hin as [Hin | []]; discriminate Hin].
    apply in_app_or in Hin as [Hin | Hin];
      [repeat (destruct Hin as [Hin | Hin]; [discriminate Hin |]); contradiction |].
    apply in_app_or in Hin as [Hin | Hin].
    + destruct (each_events_from env true (r0 :: l) _ Hin) as (r & Hr & Hx).
      exists r. split; [exact Hr |].
      destruct (process_events_call env r) as (_ & Honly & _).
      apply Honly, Hx.
    + destruct (each_result env true (r0 :: l)) as [[] | e]; simpl in Hin;
        [contradiction | destruct Hin as [Hin | []]; discriminate Hin].
Qed.

(** A call the tick placed for a row of the table is a call for a
    reminder the tick reached. *)
Lemma called_attempted (env : Env) (w : World) (k : Z) (r : Reminder) (es : list Event) :
  keyed (rows w) ->
  rows w !! k = Some r ->
  trace (tick env w) = (trace w ++ es)%list ->
  In (call_event r) es ->
  query_fault env = None
  /\ In r (attempted env true (due_rows (now env) (rows w))).
Proof.
  intros Hk Hr Htr Hin.
  destruct (tick_events env w) as (es' & Htr' & _ & _ & _ & Hcalls).
  rewrite Htr' in Htr. apply app_inv_head in Htr. subst es'.
  destruct (Hcalls _ _ _ _ Hin) as (Hq & r' & Hr' & Heq).
  split; [exact Hq |].
  pose proof (attempted_In _ _ _ _ Hr') as Hdue.
  apply due_rows_elem in Hdue as [Hrow _]; [| exact Hk].
  unfold call_event in Heq. injection Heq as Hid _ _ _.
  rewrite <- Hid, (keyed_lookup _ _ _ Hk Hr), Hr in Hrow.
  injection Hrow as <-. exact Hr'.
Qed.

(** ** Claims about one tick *)

Lemma process_reminder_recorded
    (env : Env) (r : Reminder) (w0 : World) (s : ReminderStatus) :
  usable (session w0) ->
  entry_fault env (loaded (session w0)) r = None ->
  decided_status env r = Some s ->
  rows w0 !! id r = Some r ->
  result (_process_reminder env r) w0 = Ok tt
  /\ rows (exec (_process_reminder env r) w0) !! id r = Some (with_status s r)
  /\ dirty (exec (_process_reminder env r) w0) = ∅
  /\ session (exec (_process_reminder env r) w0) = Expired
  /\ trace (exec (_process_reminder env r) w0)
     = (trace w0 ++ process_events env true r)%list.
Proof.
  intros Hus Hentry Hdec Hrow.
  unfold result, exec. rewrite process_reminder_spec by exact Hus.
  unfold processed.
  rewrite (process_events_read env _ r Hentry), (ending_read env _ r Hentry).
  assert (Hend : ending env true r = Recorded s).
  { unfold ending, decided_status in *. cbn [entry_fault].
    destruct (call_reply env _ _ _ _) as [res | e].
    - destruct (commit_fault env (id r) 0) as [[] |]; congruence.
    - destruct (commit_fault env (id r) 1); congruence. }
  rewrite Hend. cbn [ending_result fst snd evolve rows dirty session trace].
  split; [reflexivity |]. split; [| auto].
  rewrite lookup_flush, Hrow, lookup_insert_eq. reflexivity.
Qed.

Lemma process_reminder_unrecorded (env : Env) (r : Reminder) (w0 : World) :
  usable (session w0) ->
  entry_fault env (loaded (session w0)) r = None ->
  ending env true r = Unrecorded ->
  result (_process_reminder env r) w0 = Ok tt
  /\ rows (exec (_process_reminder env r) w0) = rows w0
  /\ dirty (exec (_process_reminder env r) w0) = ∅
  /\ session (exec (_process_reminder env r) w0) = Expired
  /\ trace (exec (_process_reminder env r) w0)
     = (trace w0 ++ process_events env true r)%list.
Proof.
  intros Hus Hentry Hend.
  unfold result, exec. rewrite process_reminder_spec by exact Hus.
  unfold processed.
  rewrite (process_events_read env _ r Hentry), (ending_read env _ r Hentry), Hend.
  cbn [ending_result fst snd evolve rows dirty session trace]. auto.
Qed.

Lemma readable_entry (env : Env) (r : Reminder) (w0 : World) :
  session w0 = Loaded \/ (session w0 = Expired /\ read_fault env (id r) = None) ->
  usable (session w0) /\ entry_fault env (loaded (session w0)) r = None.
Proof.
  intros [-> | [-> Hread]]; (split; [unfold usable; auto |]); [reflexivity | exact Hread].
Qed.

(** C1: for a due reminder whose call returns an outcome and whose
    commit succeeds, [_process_reminder] returns exactly when the row of
    the reminder can be read at its start, and once it has returned the
    reminder has status [completed] if the outcome says success and
    [failed] if not: the status is in the committed row, nothing is left
    pending, and the status is never [scheduled].  A tick that placed the
    call for the reminder ends with that status in its row; a tick that
    no fault ends early places the call for every due reminder. *)
Theorem processed_reminder_takes_outcome_status
    (env : Env) (w : World) (k : Z) (r : Reminder) (res : Vapi.VapiCallResult) :
  keyed (rows w) ->
  rows w !! k = Some r ->
  is_due (now env) r = true ->
  call_reply env (id r) (phone_number r) (message r) (title r) = Ok res ->
  commit_fault env (id r) 0 = None ->
  let s := if Vapi.success res then completed else failed in
  (forall w0,
     rows w0 !! id r = Some r ->
     session w0 = Loaded \/ (session w0 = Expired /\ read_fault env (id r) = None) ->
     result (_process_reminder env r) w0 = Ok tt
     /\ rows (exec (_process_reminder env r) w0) !! id r = Some (with_status s r)
     /\ status <$> rows (exec (_process_reminder env r) w0) !! id r = Some s
     /\ dirty (exec (_process_reminder env r) w0) = ∅
     /\ exists es,
          trace (exec (_process_reminder env r) w0) = (trace w0 ++ es)%list
          /\ In (CallPlaced (id r) (phone_number r) (message r) (title r)) es
          /\ In Committed es /\ ~ In RolledBack es)
  /\ (forall w0,
        usable (session w0) ->
        result (_process_reminder env r) w0 = Ok tt ->
        session w0 = Loaded \/ (session w0 = Expired /\ read_fault env (id r) = None))
  /\ s <> scheduled
  /\ (forall es,
        trace (tick env w) = (trace w ++ es)%list ->
        In (CallPlaced (id r) (phone_number r) (message r) (title r)) es ->
        rows (tick env w) !! k = Some (with_status s r)
        /\ status <$> rows (tick env w) !! k = Some s)
  /\ (query_fault env = None -> steady env ->
      In (CallPlaced (id r) (phone_number r) (message r) (title r))
         (trace (tick env w))
      /\ status <$> rows (tick env w) !! k = Some s).
Proof.
  intros Hk Hr Hdue Hcall Hc s.
  assert (Hdec : decided_status env r = Some s).
  { unfold decided_status. rewrite Hcall, Hc. reflexivity. }
  assert (Hrow : In r (attempted env true (due_rows (now env) (rows w))) ->
                 query_fault env = None ->
                 rows (tick env w) !! k = Some (with_status s r)).
  { intros Hin Hq.
    rewrite rows_tick, (tick_rows_attempted env _ k r Hk Hq Hr Hin), Hdec.
    reflexivity. }
  split; [| split; [| split; [| split]]].
  - intros w0 Hr0 Hread.
    destruct (readable_entry env r w0 Hread) as [Hus Hentry].
    destruct (process_reminder_recorded env r w0 s Hus Hentry Hdec Hr0)
      as (H1 & H2 & H3 & _ & H5).
    split; [exact H1 |]. split; [exact H2 |].
    split; [rewrite H2; reflexivity |]. split; [exact H3 |].
    exists (process_events env true r). split; [exact H5 |].
    unfold process_events, outcome_line, processing_line. cbn [entry_fault].
    rewrite Hcall, Hc.
    split; [simpl; auto |]. split; [simpl; auto |].
    intros Hin. simpl in Hin.
    destruct (Vapi.success res);
      repeat (destruct Hin as [Hin | Hin]; [discriminate Hin |]); contradiction.
  - intros w0 Hus Hres.
    unfold result in Hres. rewrite process_reminder_spec in Hres by exact Hus.
    cbn [fst] in Hres.
    destruct Hus as [Hs | Hs]; [left; exact Hs | right].
    split; [exact Hs |].
    rewrite Hs in Hres. unfold ending in Hres. cbn [loaded entry_fault] in Hres.
    destruct (read_fault env (id r)); [discriminate Hres | reflexivity].
  - subst s. destruct (Vapi.success res); discriminate.
  - intros es Htr Hin.
    destruct (called_attempted env w k r es Hk Hr Htr Hin) as [Hq Hatt].
    rewrite (Hrow Hatt Hq). split; reflexivity.
  - intros Hq Hst.
    pose proof (steady_attempted env _ k r Hst Hk Hr Hdue) as Hatt.
    split; [| rewrite (Hrow Hatt Hq); reflexivity].
    destruct (tick_events env w) as (es & -> & _ & _ & Hok & _).
    apply in_or_app. right. apply (Hok Hq r Hatt).
Qed.

(** C4: a reminder that is not due when the tick runs (its [trigger_at]
    is after the current time, or its status is not [scheduled]) is left
    as it was by the tick, in every column, whatever the call trigger and
    the store do. *)
Theorem tick_leaves_not_due_unchanged
    (env : Env) (w : World) (k : Z) (r : Reminder) :
  keyed (rows w) ->
  rows w !! k = Some r ->
  trigger_at r > now env \/ status r <> scheduled ->
  rows (tick env w) !! k = Some r.
Proof.
  intros Hk Hr Hnd. rewrite rows_tick.
  apply tick_rows_not_due; auto using is_due_false.
Qed.

Lemma process_each_continues (env : Env) (r : Reminder) (rest : list Reminder) (w0 : World) :
  result (_process_reminder env r) w0 = Ok tt ->
  process_each env (r :: rest) w0
  = process_each env rest (exec (_process_reminder env r) w0).
Proof.
  unfold result, exec. intros Hres.
  change (process_each env (r :: rest) w0)
    with (bind (_process_reminder env r) (fun _ => process_each env rest) w0).
  unfold bind. destruct (_process_reminder env r w0) as [o w1].
  simpl in Hres. subst o. reflexivity.
Qed.

(** C2: when the call trigger raises, [_process_reminder] lets no
    exception out: the handler assigns [failed] and commits, and the row
    then has status [failed]; if that commit raises too, the session is
    rolled back and the rows stay as the store holds them.  Either way the
    session is usable afterwards and the loop over the batch goes on with
    the next reminder.  In a tick that no other fault ends early, the
    call is placed for the reminder and for another due reminder, and the
    other reminder ends in the terminal status its own outcome gives when
    its own commit succeeds. *)
Theorem call_fault_is_contained
    (env : Env) (w : World) (kA kB : Z) (A B : Reminder) (e : Exn) :
  keyed (rows w) ->
  query_fault env = None ->
  rows w !! kA = Some A -> is_due (now env) A = true ->
  rows w !! kB = Some B -> is_due (now env) B = true ->
  kA <> kB ->
  call_reply env (id A) (phone_number A) (message A) (title A) = Raise e ->
  (forall w0,
     rows w0 !! id A = Some A ->
     session w0 = Loaded \/ (session w0 = Expired /\ read_fault env (id A) = None) ->
     result (_process_reminder env A) w0 = Ok tt
     /\ session (exec (_process_reminder env A) w0) = Expired
     /\ dirty (exec (_process_reminder env A) w0) = ∅
     /\ (forall rest,
           process_each env (A :: rest) w0
           = process_each env rest (exec (_process_reminder env A) w0))
     /\ (commit_fault env (id A) 1 = None ->
         rows (exec (_process_reminder env A) w0) !! id A = Some (with_status failed A)
         /\ status <$> rows (exec (_process_reminder env A) w0) !! id A = Some failed)
     /\ (commit_fault env (id A) 1 <> None ->
         rows (exec (_process_reminder env A) w0) = rows w0
         /\ exists es,
              trace (exec (_process_reminder env A) w0) = (trace w0 ++ es)%list
              /\ In RolledBack es))
  /\ result (_check_and_process_reminders env) w = Ok tt
  /\ (steady env ->
      exists es,
        trace (tick env w) = (trace w ++ es)%list
        /\ In (CallPlaced (id A) (phone_number A) (message A) (title A)) es
        /\ In (CallPlaced (id B) (phone_number B) (message B) (title B)) es
        /\ (commit_fault env (id A) 1 = None ->
            status <$> rows (tick env w) !! kA = Some failed)
        /\ (commit_fault env (id A) 1 <> None ->
            rows (tick env w) !! kA = Some A /\ In RolledBack es)
        /\ (forall res,
              call_reply env (id B) (phone_number B) (message B) (title B) = Ok res ->
              commit_fault env (id B) 0 = None ->
              status <$> rows (tick env w) !! kB
              = Some (if Vapi.success res then completed else failed))
        /\ ((forall n, commit_fault env (id B) n = None) ->
            exists s, terminal s = true
                      /\ status <$> rows (tick env w) !! kB = Some s)).
Proof.
  intros Hk Hq HA HdA HB HdB Hne Hcall.
  assert (HdecA : decided_status env A
                  = match commit_fault env (id A) 1 with
                    | None => Some failed
                    | Some _ => None
                    end).
  { unfold decided_status. rewrite Hcall. reflexivity. }
  assert (HendA : ending env true A
                  = match commit_fault env (id A) 1 with
                    | None => Recorded failed
                    | Some _ => Unrecorded
                    end).
  { unfold ending. cbn [entry_fault]. rewrite Hcall. reflexivity. }
  split; [| split; [apply tick_returns |]].
  - intros w0 Hr0 Hread.
    destruct (readable_entry env A w0 Hread) as [Hus Hentry].
    destruct (commit_fault env (id A) 1) as [f |] eqn:Hc1.
    + destruct (process_reminder_unrecorded env A w0 Hus Hentry HendA)
        as (H1 & H2 & H3 & H4 & H5).
      split; [exact H1 |]. split; [exact H4 |]. split; [exact H3 |].
      split; [intros rest; apply process_each_continues, H1 |].
      split; [discriminate |]. intros _. split; [exact H2 |].
      exists (process_events env true A). split; [exact H5 |].
      apply ending_unrecorded in HendA as (_ & _ & Hrb). exact Hrb.
    + destruct (process_reminder_recorded env A w0 failed Hus Hentry HdecA Hr0)
        as (H1 & H2 & H3 & H4 & H5).
      split; [exact H1 |]. split; [exact H4 |]. split; [exact H3 |].
      split; [intros rest; apply process_each_continues, H1 |].
      split; [| intros Hc; contradiction].
      intros _. split; [exact H2 | rewrite H2; reflexivity].
  - intros Hst.
    pose proof (steady_attempted env _ kA A Hst Hk HA HdA) as HattA.
    pose proof (steady_attempted env _ kB B Hst Hk HB HdB) as HattB.
    destruct (tick_events env w) as (es & Htr & _ & _ & Hok & _).
    specialize (Hok Hq).
    exists es. split; [exact Htr |].
    split; [apply (Hok A HattA) |]. split; [apply (Hok B HattB) |].
    pose proof (tick_rows_attempted env _ kA A Hk Hq HA HattA) as HrowA.
    pose proof (tick_rows_attempted env _ kB B Hk Hq HB HattB) as HrowB.
    rewrite <- rows_tick in HrowA, HrowB.
    split; [| split; [| split]].
    + intros Hc. rewrite HrowA, HdecA, Hc. reflexivity.
    + intros Hc. destruct (commit_fault env (id A) 1) eqn:Hc1; [| contradiction].
      rewrite HrowA, HdecA. split; [reflexivity |].
      apply (Hok A HattA). exact HendA.
    + intros res HcallB HcB. rewrite HrowB.
      unfold decided_status. rewrite HcallB, HcB. reflexivity.
    + intros Hcommits. rewrite HrowB.
      destruct (decided_status env B) as [s |] eqn:HdecB.
      * exists s. split; [eapply decided_status_terminal; eauto | reflexivity].
      * exfalso. unfold decided_status in HdecB.
        rewrite (Hcommits 0%nat), (Hcommits 1%nat) in HdecB.
        destruct (call_reply env (id B) (phone_number B) (message B) (title B));
          discriminate HdecB.
Qed.

(** ** Sequences of ticks *)

Lemma ticks_cons (env : Env) (envs : list Env) (w : World) :
  ticks (env :: envs) w = ticks envs (tick env w).
Proof. reflexivity. Qed.

Lemma tick_keyed (env : Env) (w : World) :
  keyed (rows w) -> keyed (rows (tick env w)).
Proof. intros Hk. rewrite rows_tick. apply tick_rows_keyed, Hk. Qed.

Lemma terminal_not_due (t : Z) (r : Reminder) :
  terminal (status r) = true -> is_due t r = false.
Proof.
  intros Ht. apply is_due_false. right. intros Hs. rewrite Hs in Ht. discriminate.
Qed.

Lemma ticks_terminal_row (envs : list Env) (w : World) (k : Z) (r : Reminder) :
  keyed (rows w) ->
  rows w !! k = Some r ->
  terminal (status r) = true ->
  keyed (rows (ticks envs w))
  /\ rows (ticks envs w) !! k = Some r
  /\ exists es, trace (ticks envs w) = (trace w ++ es)%list
                /\ forall p m t, ~ In (CallPlaced k p m t) es.
Proof.
  revert w. induction envs as [| env envs IH]; intros w Hk Hr Ht.
  - simpl. repeat split; auto. exists []. rewrite app_nil_r. auto.
  - rewrite ticks_cons.
    assert (Hr1 : rows (tick env w) !! k = Some r).
    { rewrite rows_tick. apply tick_rows_not_due; auto using terminal_not_due. }
    destruct (IH (tick env w) (tick_keyed env w Hk) Hr1 Ht)
      as (Hk' & Hr' & es2 & Htr2 & Hno2).
    split; [exact Hk' |]. split; [exact Hr' |].
    destruct (tick_events env w) as (es1 & Htr1 & _ & _ & _ & Hcalls).
    exists (es1 ++ es2)%list. split.
    + rewrite Htr2, Htr1, app_assoc. reflexivity.
    + intros p m t Hin. apply in_app_or in Hin as [Hin | Hin].
      * destruct (Hcalls _ _ _ _ Hin) as (_ & r' & Hr'in & Heq).
        apply attempted_In, due_rows_elem in Hr'in as [Hrow Hdue]; [| exact Hk].
        unfold call_event in Heq. injection Heq as Hid _ _ _.
        rewrite <- Hid, Hr in Hrow. injection Hrow as <-.
        rewrite terminal_not_due in Hdue by exact Ht. discriminate.
      * exact (Hno2 p m t Hin).
Qed.

(** C5: a tick leaves the status of a reminder as it is or moves it from
    [scheduled] to [completed] or [failed], and changes no other column.
    A reminder in a terminal status is not among the rows the due query
    returns, now or after any sequence of ticks, and its row stays what
    it is through any sequence of ticks. *)
Theorem status_moves_one_way (w : World) (k : Z) (r : Reminder) :
  keyed (rows w) ->
  rows w !! k = Some r ->
  (forall env, exists s',
      rows (tick env w) !! k = Some (with_status s' r)
      /\ (s' = status r \/ status r = scheduled /\ terminal s' = true))
  /\ (terminal (status r) = true ->
      forall envs,
        rows (ticks envs w) !! k = Some r
        /\ forall t r', In r' (due_rows t (rows (ticks envs w))) -> id r' <> k).
Proof.
  intros Hk Hr. split.
  - intros env. rewrite rows_tick.
    destruct (tick_rows_cases env (rows w) k r Hk Hr)
      as [Hsame | (_ & Hdue & _ & s & Hdec & Hrow)].
    + exists (status r). rewrite with_status_same. auto.
    + exists s. split; [exact Hrow |]. right.
      apply is_due_scheduled in Hdue as [Hs _].
      eauto using decided_status_terminal.
  - intros Ht envs.
    destruct (ticks_terminal_row envs w k r Hk Hr Ht) as (Hk' & Hr' & _).
    split; [exact Hr' |].
    intros t r' Hin Hid.
    apply due_rows_elem in Hin as [Hrow Hdue]; [| exact Hk'].
    rewrite Hid, Hr' in Hrow. injection Hrow as <-.
    rewrite terminal_not_due in Hdue by exact Ht. discriminate.
Qed.

(** A reminder that a tick left [scheduled] is called by the next tick
    that nothing ends early, when the clock has not gone back. *)
Lemma left_scheduled_is_called_again
    (env env2 : Env) (w : World) (k : Z) (r : Reminder) (es2 : list Event) :
  keyed (rows w) ->
  is_due (now env) r = true ->
  rows (tick env w) !! k = Some r ->
  query_fault env2 = None -> steady env2 -> now env <= now env2 ->
  trace (tick env2 (tick env w)) = (trace (tick env w) ++ es2)%list ->
  In (call_event r) es2.
Proof.
  intros Hk Hdue Hrow Hq2 Hst2 Hnow Htr2.
  assert (Hdue2 : is_due (now env2) r = true).
  { apply is_due_scheduled in Hdue as [Hs Ht].
    apply is_due_scheduled. split; [exact Hs | lia]. }
  pose proof (steady_attempted env2 _ k r Hst2 (tick_keyed env w Hk) Hrow Hdue2) as Hatt.
  destruct (tick_events env2 (tick env w)) as (es & Htr & _ & _ & Hok & _).
  rewrite Htr in Htr2. apply app_inv_head in Htr2. subst es2.
  apply (Hok Hq2 r Hatt).
Qed.

(** The call of a reminder whose commit fails in its flush is the last
    call of its batch. *)
Lemma attempted_ends_at_escape
    (env : Env) (b : bool) (l : list Reminder) (r : Reminder) (e : Exn) :
  In r (attempted env b l) ->
  ending env true r = Escaped e true ->
  exists before, attempted env b l = (before ++ [r])%list.
Proof.
  revert b. induction l as [| r0 l IH]; intros b Hin Hend; [contradiction |].
  simpl in *.
  destruct (ending env b r0) as [s | | e' called] eqn:He.
  - destruct Hin as [-> | Hin].
    + apply ending_recorded in He as Hrec. destruct Hrec as (Hf & _).
      rewrite (ending_read env b r Hf) in He. congruence.
    + destruct (IH false Hin Hend) as (before & ->). exists (r0 :: before). reflexivity.
  - destruct Hin as [-> | Hin].
    + apply ending_unrecorded in He as Hun. destruct Hun as (Hf & _).
      rewrite (ending_read env b r Hf) in He. congruence.
    + destruct (IH false Hin Hend) as (before & ->). exists (r0 :: before). reflexivity.
  - destruct called; [| contradiction].
    destruct Hin as [-> | []]. exists []. reflexivity.
Qed.

Lemma calls_of_app (es1 es2 : list Event) :
  App.calls_of (es1 ++ es2) = (App.calls_of es1 ++ App.calls_of es2)%list.
Proof. unfold App.calls_of. apply omap_app. Qed.

Lemma process_events_calls (env : Env) (b : bool) (r : Reminder) :
  App.calls_of (process_events env b r)
  = match entry_fault env b r with
    | Some _ => []
    | None => [id r]
    end.
Proof.
  unfold process_events, processing_line, call_event, outcome_line, handler_line.
  destruct (entry_fault env b r); [reflexivity |].
  destruct (call_reply env _ _ _ _) as [res | e];
    [destruct (Vapi.success res) |];
    destruct (commit_fault env (id r) 0) as [[] |];
    destruct (commit_fault env (id r) 1) as [[] |]; reflexivity.
Qed.

Lemma each_events_calls (env : Env) (b : bool) (l : list Reminder) :
  App.calls_of (each_events env b l) = id <$> attempted env b l.
Proof.
  revert b. induction l as [| r l IH]; intros b; [reflexivity |].
  cbn [each_events attempted]. rewrite calls_of_app, process_events_calls.
  destruct (ending env b r) as [s | | e called] eqn:He.
  - apply ending_recorded in He as (-> & _). rewrite IH. reflexivity.
  - apply ending_unrecorded in He as (-> & _). rewrite IH. reflexivity.
  - destruct called.
    + apply ending_escaped_called in He as (-> & _). reflexivity.
    + apply ending_escaped_before in He as (-> & _). reflexivity.
Qed.

(** The calls a tick places. *)
Lemma tick_calls (env : Env) (w : World) (es : list Event) :
  trace (tick env w) = (trace w ++ es)%list ->
  App.calls_of es
  = match query_fault env with
    | Some _ => []
    | None => id <$> attempted env true (due_rows (now env) (rows w))
    end.
Proof.
  unfold tick, exec.
  destruct (tick_spec env w) as (mid & c & -> & Hmid).
  cbn [snd trace]. intros Htr. apply app_inv_head in Htr. subst es.
  rewrite !calls_of_app.
  destruct (query_fault env) as [e |].
  { destruct Hmid as [-> _]. reflexivity. }
  destruct (due_rows (now env) (rows w)) as [| r l].
  { destruct Hmid as [_ ->].
    destruct ((_ mod 10 =? 0)%Z); reflexivity. }
  destruct Hmid as [_ ->].
  rewrite !calls_of_app, each_events_calls.
  destruct (each_result env true (r :: l)) as [[] | e];
    cbn [App.calls_of omap app]; rewrite ?app_nil_r; reflexivity.
Qed.

(** C10: when the call trigger reports success and the commit of
    [completed] raises, [failed] is not recorded.  If the commit failed
    in its flush, the handler's own log line reads [reminder.id] on the
    deactivated session and raises: the exception leaves
    [_process_reminder] before [failed] is assigned, and the call is the
    last one of the tick.  If the COMMIT statement failed, the handler
    assigns [failed], its commit raises too and the session is rolled
    back.  Either way nothing is committed, the row keeps the status
    [scheduled], the log holds the line that reports the success, and the
    next tick that nothing ends early places the call again. *)
Theorem placed_call_stays_scheduled
    (env : Env) (w : World) (k : Z) (r : Reminder)
    (res : Vapi.VapiCallResult) (f : CommitFault) :
  keyed (rows w) ->
  rows w !! k = Some r ->
  is_due (now env) r = true ->
  call_reply env (id r) (phone_number r) (message r) (title r) = Ok res ->
  Vapi.success res = true ->
  commit_fault env (id r) 0 = Some f ->
  let placed := CallPlaced (id r) (phone_number r) (message r) (title r) in
  let reported := Log INFO ("Reminder " +:+ pretty (id r)
                            +:+ " completed successfully. Vapi call ID: "
                            +:+ default "None" (Vapi.call_id res)) in
  (forall w0,
     rows w0 !! id r = Some r ->
     session w0 = Loaded \/ (session w0 = Expired /\ read_fault env (id r) = None) ->
     rows (exec (_process_reminder env r) w0) = rows w0
     /\ status <$> rows (exec (_process_reminder env r) w0) !! id r = Some scheduled
     /\ (exists es,
           trace (exec (_process_reminder env r) w0) = (trace w0 ++ es)%list
           /\ In placed es /\ In reported es /\ ~ In Committed es)
     /\ match f with
        | FlushFailed _ pending =>
            result (_process_reminder env r) w0 = Raise pending
            /\ session (exec (_process_reminder env r) w0) = Deactivated pending
        | CommitFailed e0 _ =>
            result (_process_reminder env r) w0 = Ok tt
            /\ In RolledBack (trace (exec (_process_reminder env r) w0))
        end)
  /\ (forall es,
        trace (tick env w) = (trace w ++ es)%list ->
        In placed es ->
        rows (tick env w) !! k = Some r
        /\ status <$> rows (tick env w) !! k = Some scheduled
        /\ In reported es
        /\ (forall e0 pending, f = FlushFailed e0 pending ->
            exists before, App.calls_of es = (before ++ [id r])%list)
        /\ forall env2 es2,
             query_fault env2 = None -> steady env2 -> now env <= now env2 ->
             trace (tick env2 (tick env w)) = (trace (tick env w) ++ es2)%list ->
             In placed es2).
Proof.
  intros Hk Hr Hdue Hcall Hs Hc0 placed reported.
  assert (Hsched : status r = scheduled) by (apply is_due_scheduled in Hdue; tauto).
  assert (Hline : outcome_line r res = reported).
  { unfold outcome_line. rewrite Hs. reflexivity. }
  assert (Hdec : decided_status env r = None).
  { unfold decided_status. rewrite Hcall, Hc0. reflexivity. }
  split.
  - intros w0 Hr0 Hread.
    destruct (readable_entry env r w0 Hread) as [Hus Hentry].
    unfold result, exec. rewrite process_reminder_spec by exact Hus.
    unfold processed.
    rewrite (process_events_read env _ r Hentry), (ending_read env _ r Hentry).
    unfold ending, process_events. cbn [entry_fault]. rewrite Hcall, Hc0, Hline.
    destruct f as [e0 pending | e0 again];
      cbn [ending_result fst snd evolve rows dirty session trace].
    + split; [reflexivity |]. split; [rewrite Hr0; cbn; rewrite Hsched; reflexivity |].
      split; [| split; reflexivity].
      eexists. split; [reflexivity |].
      split; [right; left; reflexivity |]. split; [right; right; left; reflexivity |].
      intros Hin. unfold processing_line, call_event, reported in Hin.
      repeat (destruct Hin as [Hin | Hin]; [discriminate Hin |]). contradiction.
    + split; [reflexivity |]. split; [rewrite Hr0; cbn; rewrite Hsched; reflexivity |].
      split; [| split; [reflexivity |]].
      * eexists. split; [reflexivity |].
        split; [right; left; reflexivity |]. split; [right; right; left; reflexivity |].
        intros Hin. unfold processing_line, call_event, handler_line, reported in Hin.
        repeat (destruct Hin as [Hin | Hin]; [discriminate Hin |]). contradiction.
      * apply in_or_app. right. simpl. auto 10.
  - intros es Htr Hin.
    destruct (called_attempted env w k r es Hk Hr Htr Hin) as [Hq Hatt].
    assert (Hrow : rows (tick env w) !! k = Some r).
    { rewrite rows_tick, (tick_rows_attempted env _ k r Hk Hq Hr Hatt), Hdec.
      reflexivity. }
    split; [exact Hrow |].
    split; [rewrite Hrow; cbn; rewrite Hsched; reflexivity |].
    split; [| split].
    + destruct (tick_events env w) as (es' & Htr' & _ & _ & Hok & _).
      rewrite Htr' in Htr. apply app_inv_head in Htr. subst es'.
      destruct (Hok Hq r Hatt) as (_ & Hout & _).
      rewrite <- Hline. apply Hout, Hcall.
    + intros e0 pending ->.
      rewrite (tick_calls env w es Htr), Hq.
      destruct (attempted_ends_at_escape env true _ r pending Hatt) as (before & ->).
      { unfold ending. cbn [entry_fault]. rewrite Hcall, Hc0. reflexivity. }
      exists (id <$> before). rewrite fmap_app. reflexivity.
    + intros env2 es2 Hq2 Hst2 Hnow Htr2.
      exact (left_scheduled_is_called_again env env2 w k r es2 Hk Hdue Hrow
               Hq2 Hst2 Hnow Htr2).
Qed.

(** ** The loop *)

Lemma loop_body_spec (env : Env) (w : World) :
  exists es c,
    loop_body env w
    = (Ok tt,
       {| rows := tick_rows env (rows w); dirty := ∅; session := Expired;
          open_sessions := open_sessions w;
          scheduler_interval_seconds := scheduler_interval_seconds w;
          _running := _running w; _task := _task w; _check_count := c;
          tasks := tasks w;
          trace := (trace w ++ es ++ [Slept (scheduler_interval_seconds w)])%list |})
    /\ trace (tick env w) = (trace w ++ es)%list.
Proof.
  pose proof (tick_spec env w) as (mid & c & Heq & _).
  exists ([SessionOpened] ++ mid ++ [SessionClosed])%list, c. split.
  - unfold loop_body. unfold bind at 1. unfold try_except. rewrite Heq.
    destruct w. run_m. f_equal. apply world_eq_trace.
    rewrite <- app_assoc. reflexivity.
  - unfold tick, exec. rewrite Heq. reflexivity.
Qed.

Lemma loop_body_control (env : Env) (w : World) :
  result (loop_body env) w = Ok tt
  /\ _running (exec (loop_body env) w) = _running w
  /\ _task (exec (loop_body env) w) = _task w
  /\ tasks (exec (loop_body env) w) = tasks w
  /\ rows (exec (loop_body env) w) = rows (tick env w)
  /\ trace (exec (loop_body env) w)
     = (trace (tick env w) ++ [Slept (scheduler_interval_seconds w)])%list.
Proof.
  unfold result, exec.
  destruct (loop_body_spec env w) as (es & c & -> & Htr). simpl.
  rewrite Htr, rows_tick, <- app_assoc. auto 10.
Qed.

Lemma while_running_step (env : Env) (rest : list Env) (w : World) :
  _running w = true ->
  while_running (env :: rest) w = while_running rest (exec (loop_body env) w).
Proof.
  intros Hrun.
  change (while_running (env :: rest))
    with (bind (gets _running) (fun running =>
            if running then bind (loop_body env) (fun _ => while_running rest)
            else bind (log INFO "Reminder scheduler stopped.") (fun _ => ret false))).
  unfold bind at 1. unfold gets. rewrite Hrun. unfold bind, exec.
  destruct (loop_body_spec env w) as (es & c & -> & _). reflexivity.
Qed.

Lemma while_running_nil (w : World) :
  _running w = true -> while_running [] w = (Ok true, w).
Proof.
  intros Hrun. simpl. unfold bind, gets. rewrite Hrun. reflexivity.
Qed.

Lemma while_running_stopped (envs : list Env) (w : World) :
  _running w = false ->
  while_running envs w
  = (Ok false, add_event (Log INFO "Reminder scheduler stopped.") w).
Proof.
  intros Hrun. destruct envs; simpl; unfold bind, gets; rewrite Hrun; reflexivity.
Qed.

Lemma while_running_control (envs : list Env) (w : World) :
  _running w = true ->
  exists w',
    while_running envs w = (Ok true, w')
    /\ _running w' = true /\ _task w' = _task w /\ tasks w' = tasks w.
Proof.
  revert w. induction envs as [| env envs IH]; intros w Hrun.
  - exists w. rewrite while_running_nil by exact Hrun. auto.
  - rewrite while_running_step by exact Hrun.
    destruct (loop_body_control env w) as (_ & H1 & H2 & H3 & _).
    destruct (IH (exec (loop_body env) w)) as (w' & Heq & Hr & Ht & Hts);
      [congruence |].
    exists w'. repeat split; congruence.
Qed.

(** C3: when the due query raises, the tick catches the exception and
    returns: no row changes, no call is placed, the session that was
    opened is closed.  The loop then sleeps for the interval and goes on
    with its next pass, which queries again. *)
Theorem query_fault_skips_tick (env : Env) (w : World) (e : Exn) :
  query_fault env = Some e ->
  result (_check_and_process_reminders env) w = Ok tt
  /\ rows (tick env w) = rows w
  /\ open_sessions (tick env w) = open_sessions w
  /\ trace (tick env w)
     = (trace w ++ [SessionOpened;
                    Log ERROR ("Error checking for due reminders: " +:+ exn_str e);
                    SessionClosed])%list
  /\ (_running w = true ->
      result (loop_body env) w = Ok tt
      /\ _running (exec (loop_body env) w) = true
      /\ trace (exec (loop_body env) w)
         = (trace w ++ [SessionOpened;
                        Log ERROR ("Error checking for due reminders: "
                                   +:+ exn_str e);
                        SessionClosed;
                        Slept (scheduler_interval_seconds w)])%list
      /\ forall rest,
           while_running (env :: rest) w
           = while_running rest (exec (loop_body env) w)).
Proof.
  intros Hq.
  assert (Htr : trace (tick env w)
                = (trace w ++ [SessionOpened;
                     Log ERROR ("Error checking for due reminders: " +:+ exn_str e);
                     SessionClosed])%list).
  { destruct (tick_events env w) as (es & Htr & _ & Hf & _).
    rewrite Htr, (Hf e Hq). reflexivity. }
  split; [apply tick_returns |].
  split; [rewrite rows_tick; unfold tick_rows; rewrite Hq; reflexivity |].
  split; [apply tick_control |].
  split; [exact Htr |].
  intros Hrun.
  destruct (loop_body_control env w) as (H0 & H1 & _ & _ & _ & H5).
  split; [exact H0 |]. split; [congruence |]. split.
  - rewrite H5, Htr, <- app_assoc. reflexivity.
  - intros rest. apply while_running_step, Hrun.
Qed.

(** ** Tasks and lifecycle *)

Lemma alive_count_insert (l : list TaskState) (i : nat) (x y : TaskState) :
  l !! i = Some x ->
  (length (filter (fun t => alive t) (<[i := y]> l)) + (if alive x then 1 else 0)
   = length (filter (fun t => alive t) l) + (if alive y then 1 else 0))%nat.
Proof.
  revert i. induction l as [| a l IH]; intros i Hl; [discriminate Hl |].
  destruct i as [| i]; simpl in *.
  - injection Hl as ->. rewrite !filter_cons.
    destruct x, y; simpl; lia.
  - specialize (IH i Hl). rewrite !filter_cons.
    destruct (decide (alive a)); simpl; lia.
Qed.

Lemma alive_count_pos (l : list TaskState) (i : nat) (x : TaskState) :
  l !! i = Some x -> alive x = true ->
  (0 < length (filter (fun t => alive t) l))%nat.
Proof.
  revert i. induction l as [| a l IH]; intros i Hl Hx; [discriminate Hl |].
  rewrite filter_cons. destruct i as [| i]; simpl in *.
  - injection Hl as ->. rewrite decide_True by (rewrite Hx; exact I).
    simpl. lia.
  - specialize (IH i Hl Hx). destruct (decide (alive a)); simpl; lia.
Qed.

Lemma alive_count_app (l : list TaskState) (x : TaskState) :
  length (filter (fun t => alive t) (l ++ [x])%list)
  = (length (filter (fun t => alive t) l) + (if alive x then 1 else 0))%nat.
Proof.
  rewrite filter_app, length_app, filter_cons, filter_nil.
  destruct x; reflexivity.
Qed.

Lemma lifecycle_ok_control (w w' : World) :
  _running w' = _running w -> _task w' = _task w -> tasks w' = tasks w ->
  lifecycle_ok w -> lifecycle_ok w'.
Proof.
  unfold lifecycle_ok, alive_tasks. intros -> -> ->. auto.
Qed.

Lemma run_task_dead (envs : list Env) (tid : nat) (w : World) :
  alive_tasks w = 0%nat -> run_task envs tid w = (Ok tt, w).
Proof.
  unfold alive_tasks. intros H0. unfold run_task, bind, gets.
  destruct (tasks w !! tid) as [st |] eqn:Hst; [| reflexivity].
  destruct st; try reflexivity;
    pose proof (alive_count_pos _ _ _ Hst eq_refl); lia.
Qed.

Lemma run_loop_unfold (envs : list Env) (w : World) :
  _run_loop envs w
  = while_running envs
      (add_event (Log INFO ("Reminder scheduler started. Checking every "
                            +:+ pretty (scheduler_interval_seconds w)
                            +:+ " seconds.")) w).
Proof. reflexivity. Qed.

Lemma run_task_ok (envs : list Env) (tid : nat) (w : World) :
  lifecycle_ok w ->
  exists w', run_task envs tid w = (Ok tt, w')
             /\ _running w' = _running w /\ _task w' = _task w
             /\ lifecycle_ok w'.
Proof.
  intros Hok. unfold lifecycle_ok in Hok.
  destruct (_running w) eqn:Hrun.
  2: { exists w. rewrite run_task_dead by exact Hok.
       unfold lifecycle_ok. rewrite Hrun. auto. }
  destruct Hok as (tid0 & st0 & Ht & Hst0 & Hal & Hone).
  unfold run_task, bind at 1, gets.
  assert (Hloop : forall (m : M bool) (w0 w1 : World) st,
            tasks w !! tid = Some st -> alive st = true ->
            m w0 = (Ok true, w1) ->
            _running w1 = true -> _task w1 = _task w -> tasks w1 = tasks w ->
            exists w',
              bind m (fun looping =>
                        set_task_state tid (if looping then Suspended else Finished)) w0
              = (Ok tt, w')
              /\ _running w' = true /\ _task w' = _task w
              /\ lifecycle_ok w').
  { intros m w0 w1 st Hst Hst_alive Hm Hr1 Ht1 Hts1.
    unfold bind. rewrite Hm. eexists. split; [reflexivity |].
    unfold set_tasks. simpl. rewrite Hr1, Ht1, Hts1.
    split; [reflexivity |]. split; [reflexivity |].
    unfold lifecycle_ok, alive_tasks. simpl.
    pose proof (alive_count_insert _ _ _ Suspended Hst) as Hcnt.
    rewrite Hst_alive in Hcnt. simpl in Hcnt.
    unfold alive_tasks in Hone.
    destruct (decide (tid = tid0)) as [-> | Hne].
    - exists tid0, Suspended. rewrite Ht. repeat split; [| lia].
      apply list_lookup_insert_eq. eapply lookup_lt_Some; eauto.
    - exists tid0, st0. rewrite Ht. repeat split; [| assumption | lia].
      rewrite list_lookup_insert_ne by exact Hne. exact Hst0. }
  destruct (tasks w !! tid) as [st |] eqn:Hst.
  2: { exists w. split; [reflexivity |]. unfold lifecycle_ok. rewrite Hrun. eauto 10. }
  destruct st.
  - destruct (while_running_control envs
                (add_event (Log INFO ("Reminder scheduler started. Checking every "
                                      +:+ pretty (scheduler_interval_seconds w)
                                      +:+ " seconds.")) w) Hrun)
      as (w1 & Heq & Hr1 & Ht1 & Hts1).
    eapply (Hloop _ w w1 Pending eq_refl eq_refl); eassumption.
  - destruct (while_running_control envs w Hrun) as (w1 & Heq & Hr1 & Ht1 & Hts1).
    eapply (Hloop _ w w1 Suspended eq_refl eq_refl); eassumption.
  - exists w. split; [reflexivity |]. unfold lifecycle_ok. rewrite Hrun. eauto 10.
  - exists w. split; [reflexivity |]. unfold lifecycle_ok. rewrite Hrun. eauto 10.
Qed.

Lemma stop_begin_running (w : World) :
  _running w = true ->
  stop_begin w
  = (Ok true, set_running false (add_event (Log INFO "Stopping reminder scheduler...") w)).
Proof.
  intros Hrun. unfold stop_begin, bind at 1, gets. rewrite Hrun. reflexivity.
Qed.

Lemma stop_not_running (o : WaitOutcome) (w : World) :
  _running w = false ->
  stop o w = (Ok tt, add_event (Log WARNING "Scheduler is not running") w).
Proof.
  intros Hrun. unfold stop, stop_begin, bind, gets. rewrite Hrun. reflexivity.
Qed.

Lemma stop_running_spec (o : WaitOutcome) (w : World) (tid : nat) (st : TaskState) :
  _running w = true ->
  _task w = Some tid ->
  tasks w !! tid = Some st ->
  alive st = true ->
  exists es,
    stop o w
    = (Ok tt,
       {| rows := rows w; dirty := dirty w; session := session w;
          open_sessions := open_sessions w;
          scheduler_interval_seconds := scheduler_interval_seconds w;
          _running := false; _task := None; _check_count := _check_count w;
          tasks := <[tid := joined o]> (tasks w);
          trace := (trace w ++ es)%list |})
    /\ stop o w = stop_join o (exec stop_begin w)
    /\ In (WaitedFor tid grace_period) es
    /\ (In (TaskCancelled tid) es <-> o = TimedOut)
    /\ (forall x, In x es -> x <> SessionOpened).
Proof.
  intros Hrun Ht Hst Hal.
  assert (Hjoin : stop o w = stop_join o (exec stop_begin w)).
  { unfold stop, bind, exec. rewrite stop_begin_running by exact Hrun. reflexivity. }
  rewrite Hjoin. unfold exec. rewrite stop_begin_running by exact Hrun.
  destruct w as [rs d ss n i b t c ts es0]. simpl in *. subst b t.
  destruct o, st; try discriminate Hal;
    run_life; rewrite Hst; run_life;
    rewrite ?list_lookup_insert_eq by (eapply lookup_lt_Some; eassumption);
    cbv [while_running]; run_life;
    (eexists; split;
     [ f_equal; apply world_eq_trace; rewrite <- ?app_assoc; reflexivity |]);
    (split; [reflexivity |]); simpl;
    (split; [auto 10 |]);
    (split; [split; [intros Hin | intros Heq; try discriminate Heq; auto 10] |]);
    try reflexivity;
    try (repeat (destruct Hin as [Hin | Hin]; [discriminate Hin |]); contradiction);
    intros x Hin;
    repeat (destruct Hin as [<- | Hin]; [discriminate |]); contradiction.
Qed.

Lemma start_running (w : World) :
  _running w = true ->
  start w = (Ok tt, add_event (Log WARNING "Scheduler is already running") w).
Proof. intros Hrun. unfold start, bind, gets. rewrite Hrun. reflexivity. Qed.

Lemma start_idle (w : World) :
  _running w = false ->
  exists w',
    start w = (Ok tt, w')
    /\ _running w' = true
    /\ _task w' = Some (length (tasks w))
    /\ tasks w' = (tasks w ++ [Pending])%list
    /\ rows w' = rows w
    /\ trace w' = (trace w ++ [TaskCreated (length (tasks w));
                               Log INFO "Reminder scheduler task created"])%list.
Proof.
  intros Hrun. destruct w as [rs d ss n i b t c ts es0]. simpl in *. subst b.
  run_life. eexists. split; [reflexivity |]. simpl.
  rewrite <- app_assoc. auto 10.
Qed.

Lemma start_sets_running (w : World) : _running (exec start w) = true.
Proof.
  unfold exec. destruct (_running w) eqn:Hrun.
  - rewrite start_running by exact Hrun. exact Hrun.
  - destruct (start_idle w Hrun) as (w' & -> & H & _). exact H.
Qed.

Lemma start_ok (w : World) : lifecycle_ok w -> lifecycle_ok (exec start w).
Proof.
  intros Hok. unfold exec. destruct (_running w) eqn:Hrun.
  - rewrite start_running by exact Hrun.
    eapply lifecycle_ok_control; [| | | exact Hok]; reflexivity.
  - destruct (start_idle w Hrun) as (w' & -> & Hr & Ht & Hts & _). simpl.
    unfold lifecycle_ok in *. rewrite Hrun in Hok. rewrite Hr.
    exists (length (tasks w)), Pending. unfold alive_tasks in *.
    rewrite Hts, alive_count_app, Hok.
    repeat split; [exact Ht |].
    apply list_lookup_middle. reflexivity.
Qed.

Lemma stop_ok (o : WaitOutcome) (w : World) :
  lifecycle_ok w ->
  result (stop o) w = Ok tt
  /\ _running (exec (stop o) w) = false
  /\ alive_tasks (exec (stop o) w) = 0%nat
  /\ rows (exec (stop o) w) = rows w.
Proof.
  intros Hok. unfold result, exec, lifecycle_ok in *.
  destruct (_running w) eqn:Hrun.
  - destruct Hok as (tid & st & Ht & Hst & Hal & Hone).
    destruct (stop_running_spec o w tid st Hrun Ht Hst Hal) as (es & -> & _).
    simpl. split; [reflexivity |]. split; [reflexivity |]. split; [| reflexivity].
    unfold alive_tasks in *. simpl.
    pose proof (alive_count_insert _ _ _ (joined o) Hst) as Hcnt.
    rewrite Hal in Hcnt. destruct o; simpl in *; lia.
  - rewrite stop_not_running by exact Hrun. simpl. auto.
Qed.

Lemma dead_lifecycle_ok (w : World) :
  _running w = false -> alive_tasks w = 0%nat -> lifecycle_ok w.
Proof. intros Hrun H0. unfold lifecycle_ok. rewrite Hrun. exact H0. Qed.

Lemma run_each_dead (envs : list Env) (tids : list nat) (w : World) :
  alive_tasks w = 0%nat -> run_each envs tids w = (Ok tt, w).
Proof.
  intros H0. induction tids as [| tid tids IH]; [reflexivity |].
  simpl. unfold bind. rewrite run_task_dead by exact H0. exact IH.
Qed.

Lemma run_each_ok (envs : list Env) (tids : list nat) (w : World) :
  lifecycle_ok w ->
  exists w', run_each envs tids w = (Ok tt, w') /\ lifecycle_ok w'.
Proof.
  revert w. induction tids as [| tid tids IH]; intros w Hok.
  - exists w. auto.
  - destruct (run_task_ok envs tid w Hok) as (w1 & Heq & _ & _ & Hok1).
    destruct (IH w1 Hok1) as (w2 & Heq2 & Hok2).
    exists w2. split; [| exact Hok2].
    simpl. unfold bind. rewrite Heq. exact Heq2.
Qed.

Lemma trigger_ok (env : Env) (w : World) :
  lifecycle_ok w -> lifecycle_ok (exec (trigger_scheduler_manually env) w).
Proof.
  intros Hok. unfold exec, trigger_scheduler_manually, bind, gets, is_running.
  destruct (_running w) eqn:Hrun; simpl; [| exact Hok].
  destruct (tick_spec env w) as (es & c & -> & _). simpl.
  eapply lifecycle_ok_control; [| | | exact Hok]; reflexivity.
Qed.

Lemma apply_op_ok (w : World) (op : Op) :
  lifecycle_ok w -> lifecycle_ok (apply_op w op).
Proof.
  intros Hok. destruct op as [| o | envs | env]; simpl.
  - apply start_ok, Hok.
  - destruct (stop_ok o w Hok) as (_ & Hr & H0 & _).
    apply dead_lifecycle_ok; assumption.
  - unfold exec, run_all_tasks, bind at 1, gets.
    destruct (run_each_ok envs (seq 0 (length (tasks w))) w Hok) as (w' & -> & Hok').
    exact Hok'.
  - apply trigger_ok, Hok.
Qed.

Lemma run_ops_ok (ops : list Op) (w : World) :
  lifecycle_ok w -> lifecycle_ok (run_ops ops w).
Proof.
  revert w. induction ops as [| op ops IH]; intros w Hok; [exact Hok |].
  simpl. apply IH, apply_op_ok, Hok.
Qed.

Lemma init_ok (rs : gmap Z Reminder) (interval : Z) : lifecycle_ok (init rs interval).
Proof. reflexivity. Qed.

(** C7: in every state the scheduler can be in (any sequence of starts,
    stops, runs of the event loop and manual triggers from a new
    process), a second [start] only logs a warning and exactly one loop
    task can run after it; [stop] on a scheduler that is not running
    only logs a warning; and once [stop] has returned, [is_running] is
    false, no task can run, the event loop runs no tick and a manual
    trigger is refused. *)
Theorem lifecycle_calls_are_safe
    (rs : gmap Z Reminder) (interval : Z) (ops : list Op) :
  let w := run_ops ops (init rs interval) in
  start (exec start w)
  = (Ok tt, add_event (Log WARNING "Scheduler is already running") (exec start w))
  /\ alive_tasks (exec start (exec start w)) = 1%nat
  /\ (is_running w = false ->
      forall o,
        stop o w = (Ok tt, add_event (Log WARNING "Scheduler is not running") w))
  /\ forall o,
       let w' := exec (stop o) w in
       result (stop o) w = Ok tt
       /\ is_running w' = false
       /\ alive_tasks w' = 0%nat
       /\ (forall envs, run_all_tasks envs w' = (Ok tt, w'))
       /\ (forall env, trigger_scheduler_manually env w' = (Ok false, w')).
Proof.
  intros w.
  assert (Hok : lifecycle_ok w) by apply run_ops_ok, init_ok.
  split; [apply start_running, start_sets_running |].
  split.
  { unfold exec at 1. rewrite start_running by apply start_sets_running.
    pose proof (start_ok w Hok) as Hok1. unfold lifecycle_ok in Hok1.
    rewrite start_sets_running in Hok1.
    destruct Hok1 as (tid & st & _ & _ & _ & Hone). exact Hone. }
  split; [intros Hrun o; apply stop_not_running, Hrun |].
  intros o w'. destruct (stop_ok o w Hok) as (Hres & Hr & H0 & _).
  fold w' in Hr, H0.
  split; [exact Hres |]. split; [exact Hr |]. split; [exact H0 |]. split.
  - intros envs. unfold run_all_tasks, bind at 1, gets.
    apply run_each_dead, H0.
  - intros env. unfold trigger_scheduler_manually, bind, gets, is_running.
    rewrite Hr. reflexivity.
Qed.

(** C6, amended: [stop] on a running scheduler sets [_running] to false
    at once, as the signal to the loop, while the task can still run;
    it then waits for the task with a timeout of 5 seconds, cancels the
    task exactly when the wait times out, and clears the task handle.
    When [stop] returns the task has ended, by returning or by being
    cancelled, and [is_running] is false. *)
Theorem stop_signals_then_joins
    (w : World) (tid : nat) (st : TaskState) (o : WaitOutcome) :
  _running w = true ->
  _task w = Some tid ->
  tasks w !! tid = Some st ->
  alive st = true ->
  (result stop_begin w = Ok true
   /\ is_running (exec stop_begin w) = false
   /\ _task (exec stop_begin w) = Some tid
   /\ tasks (exec stop_begin w) !! tid = Some st)
  /\ stop o w = stop_join o (exec stop_begin w)
  /\ result (stop o) w = Ok tt
  /\ is_running (exec (stop o) w) = false
  /\ _task (exec (stop o) w) = None
  /\ tasks (exec (stop o) w) !! tid = Some (joined o)
  /\ alive (joined o) = false
  /\ grace_period = 5
  /\ exists es,
       trace (exec (stop o) w) = (trace w ++ es)%list
       /\ In (WaitedFor tid grace_period) es
       /\ (In (TaskCancelled tid) es <-> o = TimedOut).
Proof.
  intros Hrun Ht Hst Hal.
  split.
  { unfold result, exec. rewrite stop_begin_running by exact Hrun. simpl. auto. }
  destruct (stop_running_spec o w tid st Hrun Ht Hst Hal)
    as (es & Heq & Hjoin & Hwait & Hcancel & _).
  split; [exact Hjoin |].
  unfold result, exec. rewrite Heq. simpl.
  repeat split; try (destruct o; reflexivity).
  - apply list_lookup_insert_eq. eapply lookup_lt_Some; eauto.
  - exists es. auto.
Qed.

(** ** The claims on the sample data *)

Lemma sample_rows_keyed : keyed sample_rows.
Proof.
  unfold keyed. apply map_Forall_to_list. vm_compute. repeat constructor.
Qed.

Lemma steady_without_faults (env : Env) :
  (forall rid, read_fault env rid = None) ->
  (forall rid, commit_fault env rid 0 = None) ->
  steady env.
Proof.
  intros Hread Hcommit. split; [exact Hread |].
  intros rid e pending. rewrite Hcommit. discriminate.
Qed.

Lemma env_ok_steady : steady env_ok.
Proof. apply steady_without_faults; reflexivity. Qed.

Lemma env_call_fault_steady : steady env_call_fault.
Proof.
  apply steady_without_faults; [reflexivity |].
  intros rid. unfold env_call_fault. cbn. rewrite andb_false_r. reflexivity.
Qed.

Lemma vapi_reply_returns (service : Vapi.VapiService)
    (http : Vapi.HttpRequest -> Vapi.HttpReply) (phone message reminder_title : string) :
  exists res, vapi_reply service http phone message reminder_title = Ok res.
Proof. apply trigger_call_returns. Qed.


Lemma processed_reminder_takes_outcome_status_witness :
  keyed (rows sample_world)
  /\ rows sample_world !! 1 = Some (sample_reminder 1 700 scheduled)
  /\ is_due (now env_ok) (sample_reminder 1 700 scheduled) = true
  /\ call_reply env_ok 1 "+14155551234" "Your appointment is at 3pm" "Dentist"
     = Ok call_placed
  /\ commit_fault env_ok 1 0 = None
  /\ In (CallPlaced 1 "+14155551234" "Your appointment is at 3pm" "Dentist")
        (trace (tick env_ok sample_world))
  /\ status <$> rows (tick env_ok sample_world) !! 1 = Some completed.
Proof.
  split; [exact sample_rows_keyed |].
  do 4 (split; [reflexivity |]).
  apply (processed_reminder_takes_outcome_status env_ok sample_world 1
           (sample_reminder 1 700 scheduled) call_placed
           sample_rows_keyed eq_refl eq_refl eq_refl eq_refl);
    [reflexivity | exact env_ok_steady].
Defined.

Lemma call_fault_is_contained_witness :
  keyed (rows sample_world)
  /\ query_fault env_call_fault = None
  /\ rows sample_world !! 1 = Some (sample_reminder 1 700 scheduled)
  /\ is_due (now env_call_fault) (sample_reminder 1 700 scheduled) = true
  /\ rows sample_world !! 2 = Some (sample_reminder 2 900 scheduled)
  /\ is_due (now env_call_fault) (sample_reminder 2 900 scheduled) = true
  /\ 1 <> 2
  /\ call_reply env_call_fault 1 "+14155551234" "Your appointment is at 3pm" "Dentist"
     = Raise (MkExn OtherException "connection reset")
  /\ result (_check_and_process_reminders env_call_fault) sample_world = Ok tt
  /\ exists es,
       trace (tick env_call_fault sample_world) = (trace sample_world ++ es)%list
       /\ In (CallPlaced 2 "+14155551234" "Your appointment is at 3pm" "Dentist") es
       /\ rows (tick env_call_fault sample_world) !! 1
          = Some (sample_reminder 1 700 scheduled)
       /\ In RolledBack es
       /\ status <$> rows (tick env_call_fault sample_world) !! 2 = Some completed.
Proof.
  split; [exact sample_rows_keyed |].
  do 5 (split; [reflexivity |]).
  split; [discriminate |]. split; [reflexivity |].
  destruct (call_fault_is_contained env_call_fault sample_world 1 2
              (sample_reminder 1 700 scheduled) (sample_reminder 2 900 scheduled)
              (MkExn OtherException "connection reset")
              sample_rows_keyed eq_refl eq_refl eq_refl eq_refl eq_refl
              ltac:(discriminate) eq_refl)
    as (_ & Hres & Htick).
  split; [exact Hres |].
  destruct (Htick env_call_fault_steady)
    as (es & Htr & _ & HB & _ & Hfail & Hdone & _).
  exists es. split; [exact Htr |]. split; [exact HB |].
  destruct (Hfail ltac:(discriminate)) as (HA & Hrb).
  split; [exact HA |]. split; [exact Hrb |].
  apply (Hdone call_placed); reflexivity.
Defined.

Lemma query_fault_skips_tick_witness :
  query_fault env_query_fault
  = Some (MkExn OtherException "unable to open database file")
  /\ result (_check_and_process_reminders env_query_fault) sample_world = Ok tt
  /\ rows (tick env_query_fault sample_world) = rows sample_world
  /\ open_sessions (tick env_query_fault sample_world) = open_sessions sample_world
  /\ trace (tick env_query_fault sample_world)
     = [SessionOpened;
        Log ERROR "Error checking for due reminders: unable to open database file";
        SessionClosed].
Proof.
  split; [reflexivity |].
  destruct (query_fault_skips_tick env_query_fault sample_world
              (MkExn OtherException "unable to open database file") eq_refl)
    as (H1 & H2 & H3 & H4 & _).
  split; [exact H1 |]. split; [exact H2 |]. split; [exact H3 |]. exact H4.
Defined.

Lemma tick_leaves_not_due_unchanged_witness :
  keyed (rows sample_world)
  /\ rows sample_world !! 3 = Some (sample_reminder 3 5000 scheduled)
  /\ (trigger_at (sample_reminder 3 5000 scheduled) > now env_ok
      \/ status (sample_reminder 3 5000 scheduled) <> scheduled)
  /\ rows (tick env_ok sample_world) !! 3 = Some (sample_reminder 3 5000 scheduled).
Proof.
  split; [exact sample_rows_keyed |]. split; [reflexivity |].
  split; [left; reflexivity |].
  apply (tick_leaves_not_due_unchanged env_ok sample_world 3
           (sample_reminder 3 5000 scheduled) sample_rows_keyed eq_refl).
  left. reflexivity.
Defined.

Lemma status_moves_one_way_witness :
  keyed (rows sample_world)
  /\ rows sample_world !! 4 = Some (sample_reminder 4 100 completed)
  /\ forall envs,
       rows (ticks envs sample_world) !! 4 = Some (sample_reminder 4 100 completed).
Proof.
  split; [exact sample_rows_keyed |]. split; [reflexivity |].
  intros envs.
  apply (status_moves_one_way sample_world 4 (sample_reminder 4 100 completed)
           sample_rows_keyed eq_refl).
  reflexivity.
Defined.

Lemma placed_call_stays_scheduled_witness :
  keyed (rows sample_world)
  /\ rows sample_world !! 1 = Some (sample_reminder 1 700 scheduled)
  /\ is_due (now env_flush_fault) (sample_reminder 1 700 scheduled) = true
  /\ call_reply env_flush_fault 1 "+14155551234" "Your appointment is at 3pm"
       "Dentist" = Ok call_placed
  /\ Vapi.success call_placed = true
  /\ commit_fault env_flush_fault 1 0 = Some (FlushFailed locked pending_rollback)
  /\ result (_process_reminder env_flush_fault (sample_reminder 1 700 scheduled))
       (set_session Loaded sample_world)
     = Raise pending_rollback
  /\ status <$> rows (tick env_flush_fault sample_world) !! 1 = Some scheduled
  /\ In (Log INFO "Reminder 1 completed successfully. Vapi call ID: abc123")
        (trace (tick env_flush_fault sample_world))
  /\ In (CallPlaced 1 "+14155551234" "Your appointment is at 3pm" "Dentist")
        (drop 8 (trace (tick env_ok (tick env_flush_fault sample_world)))).
Proof.
  split; [exact sample_rows_keyed |].
  do 5 (split; [reflexivity |]).
  destruct (placed_call_stays_scheduled env_flush_fault sample_world 1
              (sample_reminder 1 700 scheduled) call_placed
              (FlushFailed locked pending_rollback)
              sample_rows_keyed eq_refl eq_refl eq_refl eq_refl eq_refl)
    as (Hone & Htick).
  destruct (Hone (set_session Loaded sample_world) eq_refl (or_introl eq_refl))
    as (_ & _ & _ & Hraise & _).
  split; [exact Hraise |].
  destruct (Htick (trace (tick env_flush_fault sample_world)) eq_refl)
    as (_ & Hst & Hlog & _ & Hagain).
  { vm_compute. auto 10. }
  split; [exact Hst |]. split; [exact Hlog |].
  apply (Hagain env_ok); [reflexivity | exact env_ok_steady | reflexivity |].
  vm_compute. reflexivity.
Defined.

(** C6, as stated, fails: when [stop] has given its signal and waits for
    the loop task, [is_running] is already false while the task has not
    ended: it is still suspended in the loop and can run. *)
Lemma is_running_false_before_task_ends :
  is_running sleeping_world = true
  /\ result stop_begin sleeping_world = Ok true
  /\ is_running (exec stop_begin sleeping_world) = false
  /\ tasks (exec stop_begin sleeping_world) !! 0%nat = Some Suspended
  /\ alive_tasks (exec stop_begin sleeping_world) = 1%nat.
Proof. vm_compute. auto. Qed.

Lemma stop_signals_then_joins_witness :
  _running sleeping_world = true
  /\ _task sleeping_world = Some 0%nat
  /\ tasks sleeping_world !! 0%nat = Some Suspended
  /\ alive Suspended = true
  /\ is_running (exec (stop TimedOut) sleeping_world) = false
  /\ tasks (exec (stop TimedOut) sleeping_world) !! 0%nat = Some Cancelled.
Proof.
  assert (H1 : _running sleeping_world = true) by (vm_compute; reflexivity).
  assert (H2 : _task sleeping_world = Some 0%nat) by (vm_compute; reflexivity).
  assert (H3 : tasks sleeping_world !! 0%nat = Some Suspended)
    by (vm_compute; reflexivity).
  do 4 (split; [assumption || reflexivity |]).
  destruct (stop_signals_then_joins sleeping_world 0 Suspended TimedOut
              H1 H2 H3 eq_refl)
    as (_ & _ & _ & Hr & _ & Hts & _).
  split; [exact Hr | exact Hts].
Defined.

(** * Further properties *)

(** ** Request validation *)

Section PhonePattern.

Import Schemas.

Lemma many_spec (p : Ascii.ascii -> bool) (k : string -> bool) (hi lo : nat) (s : string) :
  many p k lo hi s = true <->
  exists pre post,
    s = pre +:+ post /\ all_of p pre = true
    /\ (lo <= String.length pre <= hi)%nat /\ k post = true.
Proof.
  revert lo s. induction hi as [| hi IH]; intros lo s.
  - simpl. rewrite andb_true_iff, Nat.eqb_eq. split.
    + intros [-> Hk]. exists EmptyString, s. simpl. repeat split; auto.
    + intros (pre & post & -> & _ & [Hlo Hhi] & Hk).
      destruct pre; simpl in *; [split; [lia | exact Hk] | lia].
  - assert (Hzero : Nat.eqb lo 0 && k s = true <->
              exists pre post, s = pre +:+ post /\ all_of p pre = true
                /\ (lo <= String.length pre <= S hi)%nat /\ k post = true
                /\ pre = EmptyString).
    { rewrite andb_true_iff, Nat.eqb_eq. split.
      - intros [-> Hk]. exists EmptyString, s. simpl. repeat split; auto; lia.
      - intros (pre & post & -> & _ & [Hlo _] & Hk & ->). simpl in *.
        split; [lia | exact Hk]. }
    simpl. destruct s as [| c s'].
    + rewrite Hzero. split.
      * intros (pre & post & H1 & H2 & H3 & H4 & _). eauto 10.
      * intros (pre & post & H1 & H2 & H3 & H4).
        exists pre, post. repeat split; auto; try lia.
        destruct pre; [reflexivity | discriminate H1].
    + rewrite orb_true_iff, andb_true_iff, IH, Hzero. split.
      * intros [[Hp (pre & post & -> & Hall & [Hlo Hhi] & Hk)]
               | (pre & post & H1 & H2 & H3 & H4 & _)].
        -- exists (String c pre), post. simpl. rewrite Hp, Hall.
           repeat split; auto; lia.
        -- eauto 10.
      * intros (pre & post & H1 & Hall & [Hlo Hhi] & Hk).
        destruct pre as [| c' pre]; simpl in *.
        -- right. exists EmptyString, post. simpl. repeat split; auto; lia.
        -- injection H1 as <- ->. apply andb_true_iff in Hall as [Hp Hall].
           left. split; [exact Hp |]. exists pre, post.
           repeat split; auto; lia.
Qed.

Lemma at_dollar_spec (s : string) :
  at_dollar s = true <->
  s = EmptyString \/ exists c, s = String c EmptyString /\ is_newline c = true.
Proof.
  destruct s as [| c [| c' s']]; simpl; split; auto.
  - intros H. right. eauto.
  - intros [H | (c0 & [= <-] & H)]; [discriminate H | exact H].
  - discriminate.
  - intros [H | (c0 & H & _)]; discriminate H.
Qed.

(** What the pattern [^\+[1-9]\d{1,14}$] matches. *)
Lemma e164_match_spec (v : string) :
  re_match e164_pattern v = true <->
  exists plus d ds nl,
    v = String plus (String d (ds +:+ nl))
    /\ is_plus plus = true /\ is_nonzero_digit d = true
    /\ all_of is_digit ds = true
    /\ (1 <= String.length ds <= 14)%nat
    /\ (nl = EmptyString
        \/ exists c, nl = String c EmptyString /\ is_newline c = true).
Proof.
  unfold e164_pattern. cbn [re_match].
  destruct v as [| plus [| d rest]].
  - split; [discriminate |]. intros (? & ? & ? & ? & H & _). discriminate H.
  - rewrite andb_false_r. split; [discriminate |].
    intros (? & ? & ? & ? & H & _). discriminate H.
  - rewrite !andb_true_iff, many_spec. split.
    + intros (Hp & Hd & ds & nl & -> & Hall & Hlen & Hk).
      apply andb_true_iff in Hk as [Hk _]. apply at_dollar_spec in Hk.
      exists plus, d, ds, nl. auto 10.
    + intros (plus' & d' & ds & nl & [= <- <- ->] & Hp & Hd & Hall & Hlen & Hnl).
      repeat split; auto. exists ds, nl. repeat split; auto; try lia.
      rewrite andb_true_r. apply at_dollar_spec. exact Hnl.
Qed.

(** X1: the phone number validator accepts exactly the strings made of
    a plus sign, a digit from 1 to 9 and one to fourteen further digits,
    optionally followed by one newline at the very end (the [$] of the
    pattern matches before a trailing newline); an accepted value is
    returned as it is, any other raises the format error. *)
Theorem phone_number_accepted_iff (v : string) :
  ((exists v', validate_phone_number v = Ok v') <->
   exists plus d ds nl,
     v = String plus (String d (ds +:+ nl))
     /\ is_plus plus = true /\ is_nonzero_digit d = true
     /\ all_of is_digit ds = true
     /\ (1 <= String.length ds <= 14)%nat
     /\ (nl = EmptyString
         \/ exists c, nl = String c EmptyString /\ is_newline c = true))
  /\ (forall v', validate_phone_number v = Ok v' -> v' = v)
  /\ (forall e, validate_phone_number v = Raise e -> e = phone_error).
Proof.
  unfold validate_phone_number. rewrite <- e164_match_spec.
  destruct (re_match e164_pattern v); cbn [negb].
  - split; [split; eauto |]. split; [congruence | discriminate].
  - split; [split; [intros [v' H]; discriminate H | discriminate] |].
    split; [discriminate |]. intros e [= <-]. reflexivity.
Qed.

End PhonePattern.

Section Bodies.

Import Schemas.

Lemma string_length_app (a b : string) :
  String.length (a +:+ b) = (String.length a + String.length b)%nat.
Proof. induction a as [| c a IH]; simpl; [reflexivity | rewrite IH; reflexivity]. Qed.

Lemma length_ok_spec (lo hi : nat) (s : string) :
  length_ok lo hi s = true <-> (lo <= String.length s <= hi)%nat.
Proof.
  unfold length_ok. rewrite andb_true_iff, !Nat.leb_le. tauto.
Qed.

Lemma accepted_phone_length (v v' : string) :
  validate_phone_number v = Ok v' ->
  v' = v /\ (3 <= String.length v <= 17)%nat.
Proof.
  unfold validate_phone_number.
  destruct (re_match e164_pattern v) eqn:Hm; cbn [negb]; [| discriminate].
  intros [= <-]. split; [reflexivity |].
  apply e164_match_spec in Hm
    as (plus & d & ds & nl & -> & _ & _ & _ & Hlen & Hnl).
  simpl. rewrite string_length_app.
  destruct Hnl as [-> | (c & -> & _)]; simpl; lia.
Qed.

(** X2: a create body that passes validation is returned as it is, its
    title has 1 to 255 characters, its message 1 to 1000, and its phone
    number 3 to 17, so each fits its column ([String(255)],
    [String(1000)], [String(20)]). *)
Theorem validated_create_fits_columns (body b : ReminderCreate) :
  validate_create body = Ok b ->
  b = body
  /\ (1 <= String.length (c_title b) <= 255)%nat
  /\ (1 <= String.length (c_message b) <= 1000)%nat
  /\ (3 <= String.length (c_phone_number b) <= 17)%nat
  /\ (String.length (c_phone_number b) <= 20)%nat.
Proof.
  unfold validate_create.
  destruct (length_ok 1 255 (c_title body)) eqn:Ht; simpl; [| discriminate].
  destruct (length_ok 1 1000 (c_message body)) eqn:Hm; simpl; [| discriminate].
  destruct (validate_phone_number (c_phone_number body)) as [v' |] eqn:Hp;
    simpl; [| discriminate].
  intros [= <-].
  apply length_ok_spec in Ht, Hm.
  apply accepted_phone_length in Hp as [_ Hp].
  repeat split; lia.
Qed.

Lemma validated_create_fits_columns_witness :
  validate_create good_create = Ok good_create
  /\ (String.length (c_phone_number good_create) <= 20)%nat.
Proof.
  split; [reflexivity |].
  apply (validated_create_fits_columns good_create good_create eq_refl).
Defined.

(** X3: validation of a create body fails exactly when the title or the
    message is out of its length bounds or the phone number does not
    match the pattern. *)
Theorem create_rejected_iff (body : ReminderCreate) :
  (exists e, validate_create body = Raise e) <->
  ~ (1 <= String.length (c_title body) <= 255)%nat
  \/ ~ (1 <= String.length (c_message body) <= 1000)%nat
  \/ re_match e164_pattern (c_phone_number body) = false.
Proof.
  unfold validate_create, validate_phone_number.
  remember (re_match e164_pattern (c_phone_number body)) as matched eqn:Hmatched.
  clear Hmatched.
  pose proof (length_ok_spec 1 255 (c_title body)) as Ht.
  pose proof (length_ok_spec 1 1000 (c_message body)) as Hm.
  destruct (length_ok 1 255 (c_title body)); simpl.
  2: { split; [intros _; left; intros H; apply Ht in H; discriminate | eauto]. }
  destruct (length_ok 1 1000 (c_message body)); simpl.
  2: { split; [intros _; right; left; intros H; apply Hm in H; discriminate | eauto]. }
  destruct matched; simpl.
  - split; [intros [e H]; discriminate H |].
    intros [H | [H | H]];
      [exfalso; apply H, Ht; reflexivity
      | exfalso; apply H, Hm; reflexivity
      | discriminate H].
  - split; eauto.
Qed.

End Bodies.

(** ** The CRUD endpoints *)

Section Crud.

Import Schemas Routers.

Lemma keyed_insert (rs : gmap Z Reminder) (k : Z) (r : Reminder) :
  keyed rs -> id r = k -> keyed (<[k := r]> rs).
Proof.
  intros Hk Hid. unfold keyed. apply map_Forall_insert_2; assumption.
Qed.

Lemma keyed_delete (rs : gmap Z Reminder) (k : Z) :
  keyed rs -> keyed (delete k rs).
Proof.
  intros Hk. unfold keyed. apply map_Forall_delete. exact Hk.
Qed.

(** The attributes after the [setattr] calls of a body without [null]
    all hold a value. *)
Lemma update_row_without_null (u : ReminderUpdate) (r : Reminder) :
  has_null u = false ->
  update_row r (setattrs u (attrs_of r))
  = Some {| id := id r;
            title := match u_title u with Value a => a | _ => title r end;
            message := match u_message u with Value a => a | _ => message r end;
            phone_number :=
              match u_phone_number u with Value a => a | _ => phone_number r end;
            trigger_at :=
              match u_trigger_at u with Value a => wall a | _ => trigger_at r end;
            timezone := match u_timezone u with Value a => a | _ => timezone r end;
            status := match u_status u with Value a => a | _ => status r end;
            created_at := created_at r |}.
Proof.
  unfold has_null. intros Hnull.
  destruct u as [t m p d z s]. cbn in *.
  destruct t, m, p, d, z, s; try discriminate Hnull; reflexivity.
Qed.

Lemma update_row_with_null (u : ReminderUpdate) (r : Reminder) :
  has_null u = true -> update_row r (setattrs u (attrs_of r)) = None.
Proof.
  unfold has_null. intros Hnull.
  destruct u as [t m p d z s]. cbn in *.
  destruct t, m, p, d, z, s; try discriminate Hnull; reflexivity.
Qed.

(** X4: creating a reminder under a key the table does not use yet
    answers with the new row: it has that key, status [scheduled], the
    creation time of the database and the text fields of the body; its
    [trigger_at] is the wall-clock reading of the body's value, the UTC
    offset being dropped by the column, so it is the instant the body
    names exactly when the offset is zero.  Reading the row back gives
    the same row, no other row changes, and the table has one row
    more. *)
Theorem create_then_get (new_id now : Z) (body : ReminderCreate) (rs : gmap Z Reminder) :
  rs !! new_id = None ->
  keyed rs ->
  exists r,
    create_reminder new_id now body rs = (Sent r, <[new_id := r]> rs)
    /\ id r = new_id /\ status r = scheduled /\ created_at r = now
    /\ title r = c_title body /\ message r = c_message body
    /\ phone_number r = c_phone_number body
    /\ trigger_at r = wall (c_trigger_at body)
    /\ (forall offset, utcoffset (c_trigger_at body) = Some offset ->
        (instant (c_trigger_at body) = Some (trigger_at r) <-> offset = 0))
    /\ timezone r = c_timezone body
    /\ get_reminder new_id (<[new_id := r]> rs) = Sent r
    /\ (forall k r0, rs !! k = Some r0 -> <[new_id := r]> rs !! k = Some r0)
    /\ keyed (<[new_id := r]> rs)
    /\ size (<[new_id := r]> rs) = S (size rs).
Proof.
  intros Hfresh Hk. eexists. split; [reflexivity |]. simpl.
  do 7 (split; [reflexivity |]).
  split.
  { intros offset Hoff. unfold instant, stored. rewrite Hoff. cbn.
    split; [intros [= Heq]; lia | intros ->; f_equal; lia]. }
  split; [reflexivity |].
  split; [unfold get_reminder; rewrite lookup_insert_eq; reflexivity |].
  split; [| split].
  - intros k r0 Hr0. rewrite lookup_insert_ne; [exact Hr0 | congruence].
  - apply keyed_insert; [exact Hk | reflexivity].
  - apply map_size_insert_None, Hfresh.
Qed.

(** X5: deleting a reminder right after creating it gives back the
    table as it was. *)
Theorem create_then_delete (new_id now : Z) (body : ReminderCreate) (rs : gmap Z Reminder) :
  rs !! new_id = None ->
  delete_reminder new_id (snd (create_reminder new_id now body rs)) = (Sent tt, rs).
Proof.
  intros Hfresh. unfold create_reminder, delete_reminder. simpl.
  rewrite lookup_insert_eq, delete_insert_id by exact Hfresh. reflexivity.
Qed.

(** X6: for an id that is not in the table, reading, updating and
    deleting all answer 404 "Reminder not found" and leave the table as
    it is; reading answers 404 for no other id. *)
Theorem missing_id_is_404 (k : Z) (u : ReminderUpdate) (rs : gmap Z Reminder) :
  (get_reminder k rs = HTTPException 404 "Reminder not found" <-> rs !! k = None)
  /\ (rs !! k = None ->
      update_reminder k u rs = (HTTPException 404 "Reminder not found", rs)
      /\ delete_reminder k rs = (HTTPException 404 "Reminder not found", rs)).
Proof.
  unfold get_reminder, update_reminder, delete_reminder, not_found.
  destruct (rs !! k) as [r |]; split; try (split; congruence);
    intros H; try discriminate H; auto.
Qed.

(** X7: an update without [null]s answers with the patched row and
    stores it: the id and the creation time never change, a field the
    body leaves out keeps its value, a field the body gives takes it;
    a given [trigger_at] is stored as its wall-clock reading, the UTC
    offset being dropped by the column, so the stored value is the
    instant the body names exactly when the offset is zero.  Reading the
    id back gives the patched row, and no other row changes. *)
Theorem update_changes_given_fields_only
    (k : Z) (u : ReminderUpdate) (rs : gmap Z Reminder) (r : Reminder) :
  rs !! k = Some r ->
  has_null u = false ->
  exists r',
    update_reminder k u rs = (Sent r', <[k := r']> rs)
    /\ id r' = id r /\ created_at r' = created_at r
    /\ title r' = match u_title u with Value a => a | _ => title r end
    /\ message r' = match u_message u with Value a => a | _ => message r end
    /\ phone_number r'
       = match u_phone_number u with Value a => a | _ => phone_number r end
    /\ trigger_at r'
       = match u_trigger_at u with Value a => wall a | _ => trigger_at r end
    /\ (forall a offset,
          u_trigger_at u = Value a -> utcoffset a = Some offset ->
          (instant a = Some (trigger_at r') <-> offset = 0))
    /\ timezone r' = match u_timezone u with Value a => a | _ => timezone r end
    /\ status r' = match u_status u with Value a => a | _ => status r end
    /\ get_reminder k (<[k := r']> rs) = Sent r'
    /\ (forall j, j <> k -> <[k := r']> rs !! j = rs !! j)
    /\ (keyed rs -> keyed (<[k := r']> rs)).
Proof.
  intros Hr Hnull. eexists.
  unfold update_reminder. rewrite Hr, (update_row_without_null u r Hnull).
  split; [reflexivity |]. cbn [id created_at title message phone_number trigger_at
                                timezone status].
  do 6 (split; [reflexivity |]).
  split.
  { intros a offset Ha Hoff. rewrite Ha. unfold instant. rewrite Hoff. cbn.
    split; [intros [= Heq]; lia | intros ->; f_equal; lia]. }
  do 2 (split; [reflexivity |]).
  split; [unfold get_reminder; rewrite lookup_insert_eq; reflexivity |].
  split.
  - intros j Hj. apply lookup_insert_ne. congruence.
  - intros Hk. apply keyed_insert; [exact Hk |]. simpl. exact (Hk k r Hr).
Qed.

(** X8: an update whose body gives no field answers with the row as it
    is and leaves the table as it is. *)
Theorem empty_update_changes_nothing
    (k : Z) (rs : gmap Z Reminder) (r : Reminder) :
  rs !! k = Some r ->
  update_reminder k
    {| u_title := Unset; u_message := Unset; u_phone_number := Unset;
       u_trigger_at := Unset; u_timezone := Unset; u_status := Unset |} rs
  = (Sent r, rs).
Proof.
  intros Hr. unfold update_reminder. rewrite Hr.
  rewrite update_row_without_null by reflexivity. cbn.
  assert (Hsame : {| id := id r; title := title r; message := message r;
                     phone_number := phone_number r; trigger_at := trigger_at r;
                     timezone := timezone r; status := status r;
                     created_at := created_at r |} = r)
    by (destruct r; reflexivity).
  rewrite Hsame, insert_id by exact Hr. reflexivity.
Qed.

(** X9: a PATCH body whose given values meet the constraints of their
    fields passes validation whichever of its fields are [null], since
    every field of the schema admits [None].  When some field is [null],
    the UPDATE of the commit is refused, every column being
    [nullable=False]: the endpoint ends with the [IntegrityError] and
    the table is left as it is.  Without a [null] the update answers with
    a row. *)
Theorem null_patch_fails_at_commit
    (k : Z) (u : ReminderUpdate) (rs : gmap Z Reminder) (r : Reminder) :
  (forall s, u_title u = Value s -> (1 <= String.length s <= 255)%nat) ->
  (forall s, u_message u = Value s -> (1 <= String.length s <= 1000)%nat) ->
  (forall s, u_phone_number u = Value s -> re_match e164_pattern s = true) ->
  rs !! k = Some r ->
  validate_update u = Ok u
  /\ (has_null u = true -> update_reminder k u rs = (IntegrityError, rs))
  /\ (has_null u = false -> exists r', update_reminder k u rs = (Sent r', <[k := r']> rs)).
Proof.
  intros Ht Hm Hp Hr. split; [| split].
  - unfold validate_update.
    assert (H1 : patch_length_ok 1 255 (u_title u) = true).
    { unfold patch_length_ok, length_ok. destruct (u_title u) as [| | s]; auto.
      specialize (Ht s eq_refl). apply andb_true_intro.
      split; apply Nat.leb_le; lia. }
    assert (H2 : patch_length_ok 1 1000 (u_message u) = true).
    { unfold patch_length_ok, length_ok. destruct (u_message u) as [| | s]; auto.
      specialize (Hm s eq_refl). apply andb_true_intro.
      split; apply Nat.leb_le; lia. }
    rewrite H1, H2. cbn [negb].
    destruct (u_phone_number u) as [| | s]; try reflexivity.
    unfold validate_phone_number_opt. rewrite (Hp s eq_refl). reflexivity.
  - intros Hnull. unfold update_reminder.
    rewrite Hr, (update_row_with_null u r Hnull). reflexivity.
  - intros Hnull. unfold update_reminder.
    rewrite Hr, (update_row_without_null u r Hnull). eexists. reflexivity.
Qed.

(** X10: deleting a reminder that is in the table answers without
    content; afterwards reading it and deleting it again answer 404, no
    other row has changed, and the table has one row less. *)
Theorem delete_removes_row (k : Z) (rs : gmap Z Reminder) (r : Reminder) :
  rs !! k = Some r ->
  delete_reminder k rs = (Sent tt, delete k rs)
  /\ get_reminder k (delete k rs) = HTTPException 404 "Reminder not found"
  /\ delete_reminder k (delete k rs)
     = (HTTPException 404 "Reminder not found", delete k rs)
  /\ (forall j, j <> k -> delete k rs !! j = rs !! j)
  /\ (keyed rs -> keyed (delete k rs))
  /\ S (size (delete k rs)) = size rs.
Proof.
  intros Hr. unfold delete_reminder, get_reminder, not_found.
  rewrite Hr, lookup_delete_eq.
  repeat split; auto using keyed_delete.
  - intros j Hj. apply lookup_delete_ne. congruence.
  - rewrite <- (insert_delete_id rs k r Hr) at 2.
    rewrite map_size_insert_None by apply lookup_delete_eq. reflexivity.
Qed.

End Crud.

(** ** Listing *)

Section Listing.

Import Schemas Routers.

Variable ilike : string -> string -> bool.

Lemma StronglySorted_sublist {A} (R : relation A) (l1 l2 : list A) :
  l1 `sublist_of` l2 -> StronglySorted R l2 -> StronglySorted R l1.
Proof.
  intros Hsub. induction Hsub as [| x l1 l2 Hsub IH | x l1 l2 Hsub IH]; intros Hs.
  - constructor.
  - apply StronglySorted_inv in Hs as [Hs Hall]. constructor; [auto |].
    apply Forall_forall. intros y Hy.
    rewrite Forall_forall in Hall. apply Hall.
    eapply sublist_subseteq; eauto.
  - apply StronglySorted_inv in Hs as [Hs _]. auto.
Qed.

Lemma matching_elem (st : option ReminderStatus) (search : option string)
    (rs : gmap Z Reminder) (r : Reminder) :
  r ∈ matching ilike st search rs <->
  selected ilike st search r = true /\ exists k, rs !! k = Some r.
Proof.
  unfold matching. rewrite list_elem_of_filter, list_elem_of_fmap, Is_true_true.
  split.
  - intros (Hsel & [k r'] & -> & Hin). split; [exact Hsel |].
    exists k. apply elem_of_map_to_list. exact Hin.
  - intros (Hsel & k & Hr). split; [exact Hsel |].
    exists (k, r). split; [reflexivity |]. apply elem_of_map_to_list. exact Hr.
Qed.

Lemma ordered_perm (l : list Reminder) : ordered l ≡ₚ l.
Proof. apply merge_sort_Permutation. Qed.

Lemma items_sublist (page per_page : Z) st search rs :
  items (list_reminders ilike page per_page st search rs)
  `sublist_of` ordered (matching ilike st search rs).
Proof.
  simpl. etransitivity; [apply sublist_take | apply sublist_drop].
Qed.

(** X11: a page of [list_reminders] holds at most [per_page] rows, so
    at most 100; its rows are in ascending order of [trigger_at], each is
    a row of the table that passes the filters, and no row is on the page
    twice; [total] does not depend on the page asked for. *)
Theorem list_page_is_bounded_and_sorted
    (page per_page : Z) (st : option ReminderStatus) (search : option string)
    (rs : gmap Z Reminder) :
  1 <= page ->
  1 <= per_page <= 100 ->
  keyed rs ->
  let res := list_reminders ilike page per_page st search rs in
  (length (items res) <= Z.to_nat per_page <= 100)%nat
  /\ (length (items res) <= total res)%nat
  /\ StronglySorted earlier (items res)
  /\ (forall r, r ∈ items res ->
        selected ilike st search r = true /\ rs !! id r = Some r)
  /\ NoDup (id <$> items res)
  /\ (forall page' per_page',
        total (list_reminders ilike page' per_page' st search rs) = total res).
Proof.
  intros Hpage Hper Hk res.
  pose proof (items_sublist page per_page st search rs) as Hsub. fold res in Hsub.
  split; [| split; [| split; [| split; [| split]]]].
  - subst res. simpl. rewrite length_take. lia.
  - apply sublist_length in Hsub.
    rewrite (Permutation_length (ordered_perm _)) in Hsub. exact Hsub.
  - eapply StronglySorted_sublist; [exact Hsub |].
    apply StronglySorted_merge_sort; apply _.
  - intros r Hr.
    assert (Hin : r ∈ matching ilike st search rs).
    { rewrite <- (ordered_perm (matching ilike st search rs)).
      eapply sublist_subseteq; eauto. }
    apply matching_elem in Hin as (Hsel & k & Hrow).
    split; [exact Hsel |]. rewrite (Hk k r Hrow). exact Hrow.
  - eapply sublist_NoDup; [| apply fmap_sublist, Hsub].
    rewrite (ordered_perm (matching ilike st search rs)).
    unfold matching.
    eapply sublist_NoDup; [| apply fmap_sublist, sublist_filter].
    rewrite keyed_ids by exact Hk. apply NoDup_fst_map_to_list.
  - reflexivity.
Qed.

(** X12: the first [n] pages of a listing, one after the other, are the
    first [n * per_page] rows of the matching rows in ascending order of
    [trigger_at]; once [n * per_page] reaches [total] they hold every
    matching row exactly once. *)
Theorem pages_cover_matching_rows
    (per_page : Z) (st : option ReminderStatus) (search : option string)
    (rs : gmap Z Reminder) (n : nat) :
  1 <= per_page ->
  let pages :=
    mjoin ((fun i => items (list_reminders ilike (Z.of_nat i + 1) per_page
                              st search rs)) <$> seq 0 n) in
  pages = take (n * Z.to_nat per_page) (ordered (matching ilike st search rs))
  /\ ((total (list_reminders ilike 1 per_page st search rs)
       <= n * Z.to_nat per_page)%nat ->
      pages ≡ₚ matching ilike st search rs).
Proof.
  intros Hper pages.
  assert (Heq : pages
                = take (n * Z.to_nat per_page) (ordered (matching ilike st search rs))).
  { subst pages. induction n as [| n IH]; [reflexivity |].
    rewrite seq_S, fmap_app, join_app, IH. simpl. rewrite app_nil_r.
    replace (Z.to_nat ((Z.of_nat n + 1 - 1) * per_page))
      with (n * Z.to_nat per_page)%nat by lia.
    rewrite take_take_drop. f_equal. lia. }
  split; [exact Heq |].
  intros Htotal. rewrite Heq. simpl in Htotal.
  rewrite take_ge; [apply ordered_perm |].
  rewrite (Permutation_length (ordered_perm _)). exact Htotal.
Qed.


(** X14: an empty search term filters nothing, like no search term;
    without a status filter and without a search term [total] is the
    number of rows of the table; with a status filter every row of that
    status, and no other, is counted. *)
Theorem list_filters
    (page per_page : Z) (st : option ReminderStatus) (rs : gmap Z Reminder) :
  list_reminders ilike page per_page st (Some EmptyString) rs
  = list_reminders ilike page per_page st None rs
  /\ total (list_reminders ilike page per_page None None rs) = size rs
  /\ (forall s r,
        r ∈ matching ilike (Some s) None rs <->
        status r = s /\ exists k, rs !! k = Some r).
Proof.
  split; [reflexivity |]. split.
  - simpl. unfold matching.
    rewrite <- length_map_to_list, <- (length_fmap snd (map_to_list rs)).
    f_equal. induction ((map_to_list rs).*2) as [| r l IH]; [reflexivity |].
    rewrite filter_cons_True by exact I. f_equal. exact IH.
  - intros s r. rewrite matching_elem. unfold selected.
    rewrite andb_true_r, bool_decide_eq_true. reflexivity.
Qed.

End Listing.

(** ** More on ticks *)

Section Ticks.

Import App.

Lemma no_session_event_app (es1 es2 : list Event) :
  no_session_event (es1 ++ es2) = no_session_event es1 && no_session_event es2.
Proof. unfold no_session_event. apply forallb_app. Qed.

Lemma process_events_no_session (env : Env) (b : bool) (r : Reminder) :
  no_session_event (process_events env b r) = true.
Proof.
  unfold process_events, processing_line, call_event, outcome_line, handler_line.
  destruct (entry_fault env b r); [reflexivity |].
  destruct (call_reply env _ _ _ _) as [res | e];
    [destruct (Vapi.success res) |];
    destruct (commit_fault env (id r) 0) as [[] |];
    destruct (commit_fault env (id r) 1) as [[] |]; reflexivity.
Qed.

Lemma each_events_no_session (env : Env) (b : bool) (l : list Reminder) :
  no_session_event (each_events env b l) = true.
Proof.
  revert b. induction l as [| r l IH]; intros b; [reflexivity |].
  cbn [each_events]. rewrite no_session_event_app, process_events_no_session.
  destruct (ending env b r); cbn [andb]; auto.
Qed.

(** What a tick adds to the trace and to the empty-check counter. *)
Lemma tick_frame (env : Env) (w : World) :
  exists mid,
    trace (tick env w)
    = (trace w ++ [SessionOpened] ++ mid ++ [SessionClosed])%list
    /\ no_session_event mid = true
    /\ (let counted :=
          match _check_count w with
          | Some n => n + 1
          | None => 1
          end in
        match query_fault env, due_rows (now env) (rows w) with
        | None, [] =>
            _check_count (tick env w) = Some counted
            /\ (In (liveness_line counted) mid <-> counted mod 10 = 0)
        | _, _ => _check_count (tick env w) = _check_count w
        end).
Proof.
  unfold tick, exec.
  destruct (tick_spec env w) as (mid & c & -> & Hmid).
  exists mid. cbn [snd trace _check_count]. split; [reflexivity |].
  destruct (query_fault env) as [e |].
  { destruct Hmid as [-> ->]. split; reflexivity. }
  destruct (due_rows (now env) (rows w)) as [| r l].
  - destruct Hmid as [-> ->]. cbv zeta.
    destruct (Z.eqb_spec ((match _check_count w with
                           | Some n => n + 1
                           | None => 1
                           end) mod 10) 0) as [Hmod | Hmod].
    + split; [reflexivity |]. split; [reflexivity |].
      split; [auto |]. intros _. simpl. auto.
    + split; [reflexivity |]. split; [reflexivity |].
      split; [| contradiction].
      unfold liveness_line. intros Hin. simpl in Hin.
      repeat (destruct Hin as [Hin | Hin]; [discriminate Hin |]). contradiction.
  - destruct Hmid as [-> ->]. split; [| reflexivity].
    rewrite !no_session_event_app, each_events_no_session.
    destruct (each_result env true (r :: l)) as [[] | e]; reflexivity.
Qed.

(** X15: whatever the store and the call trigger do, a tick returns
    without raising, opens one session and closes it as its last act,
    with no other session event in between, and leaves no session open
    and no assignment pending. *)
Theorem tick_always_returns_and_closes (env : Env) (w : World) :
  result (_check_and_process_reminders env) w = Ok tt
  /\ open_sessions (tick env w) = open_sessions w
  /\ dirty (tick env w) = ∅
  /\ exists mid,
       trace (tick env w)
       = (trace w ++ [SessionOpened] ++ mid ++ [SessionClosed])%list
       /\ no_session_event mid = true.
Proof.
  split; [apply tick_returns |].
  destruct (tick_control env w) as (_ & _ & _ & _ & Hopen & Hdirty).
  split; [exact Hopen |]. split; [exact Hdirty |].
  destruct (tick_frame env w) as (mid & Htr & Hns & _).
  exists mid. auto.
Qed.

(** X16: the calls a tick places are calls for due rows, in the order of
    the query (ascending [id]), without gaps from the first due row on:
    none when the query raised, one for every due row when no reload
    and no flush raises, and otherwise the due rows up to the one whose
    processing let an exception out, which the call for that row has
    preceded when it was its commit that failed.  The first due row is
    always called.  No reminder is called twice in a tick. *)
Theorem tick_calls_each_due_row_once (env : Env) (w : World) (es : list Event) :
  keyed (rows w) ->
  trace (tick env w) = (trace w ++ es)%list ->
  calls_of es
  = match query_fault env with
    | Some _ => []
    | None => id <$> attempted env true (due_rows (now env) (rows w))
    end
  /\ calls_of es `prefix_of` (id <$> due_rows (now env) (rows w))
  /\ (query_fault env = None -> steady env ->
      calls_of es = id <$> due_rows (now env) (rows w))
  /\ (query_fault env = None ->
      forall r l, due_rows (now env) (rows w) = r :: l -> id r ∈ calls_of es)
  /\ NoDup (calls_of es).
Proof.
  intros Hk Htr. rewrite (tick_calls env w es Htr).
  split; [reflexivity |].
  destruct (query_fault env) as [e |].
  - split; [apply prefix_nil |]. split; [discriminate |].
    split; [discriminate | constructor].
  - split.
    { destruct (attempted_prefix env true (due_rows (now env) (rows w))) as [rest Hrest].
      exists (id <$> rest). rewrite <- fmap_app. f_equal. exact Hrest. }
    split; [intros _ Hst; rewrite (proj1 (attempted_steady env true _ Hst)); reflexivity |].
    split.
    + intros _ r l ->. apply list_elem_of_fmap. exists r. split; [reflexivity |].
      apply list_elem_of_In, attempted_head.
    + apply attempted_NoDup, due_rows_NoDup, Hk.
Qed.

(** X17: [_check_count] counts the ticks that found no due reminder: such
    a tick sets it to one more than before (to 1 the first time) and logs
    the liveness line exactly when the new count is a multiple of 10; a
    tick that found due reminders, or whose query raised, leaves the
    count as it is. *)
Theorem empty_ticks_are_counted (env : Env) (w : World) :
  let counted :=
    match _check_count w with
    | Some n => n + 1
    | None => 1
    end in
  (query_fault env = None -> due_rows (now env) (rows w) = [] ->
   _check_count (tick env w) = Some counted
   /\ (In (liveness_line counted) (trace (tick env w))
       <-> In (liveness_line counted) (trace w) \/ counted mod 10 = 0))
  /\ (query_fault env <> None \/ due_rows (now env) (rows w) <> [] ->
      _check_count (tick env w) = _check_count w).
Proof.
  intros counted.
  destruct (tick_frame env w) as (mid & Htr & _ & Hcount).
  fold counted in Hcount. split.
  - intros Hq Hdue. rewrite Hq, Hdue in Hcount. destruct Hcount as [Hc Hline].
    split; [exact Hc |]. rewrite Htr, <- Hline. split.
    + intros Hin. apply in_app_or in Hin as [Hin | Hin]; [left; exact Hin |].
      apply in_app_or in Hin as [[Hin | []] | Hin]; [discriminate Hin |].
      apply in_app_or in Hin as [Hin | [Hin | []]];
        [right; exact Hin | discriminate Hin].
    + intros [Hin | Hin]; apply in_or_app; [left; exact Hin | right].
      apply in_or_app. right. apply in_or_app. left. exact Hin.
  - intros Hother.
    destruct (query_fault env) as [e |]; [exact Hcount |].
    destruct (due_rows (now env) (rows w)); [| exact Hcount].
    destruct Hother as [H | H]; contradiction.
Qed.

Lemma no_due_tick_rows (env : Env) (rs : gmap Z Reminder) :
  due_rows (now env) rs = [] -> tick_rows env rs = rs.
Proof.
  intros Hdue. unfold tick_rows. rewrite Hdue.
  destruct (query_fault env); reflexivity.
Qed.

Lemma all_commits_decide (env : Env) (r : Reminder) :
  (forall rid n, commit_fault env rid n = None) ->
  exists s, decided_status env r = Some s /\ terminal s = true.
Proof.
  intros Hc. unfold decided_status. rewrite !Hc.
  destruct (call_reply env _ _ _ _) as [res | e]; [destruct (Vapi.success res) |];
    eauto.
Qed.

(** X18: after a tick whose query, reloads and commits all succeeded, a
    second tick at the same or an earlier clock reading finds nothing
    due: it changes no row and places no call, whatever the store and
    the call trigger would do. *)
Theorem second_tick_changes_nothing (env1 env2 : Env) (w : World) (es : list Event) :
  keyed (rows w) ->
  query_fault env1 = None ->
  (forall rid, read_fault env1 rid = None) ->
  (forall rid n, commit_fault env1 rid n = None) ->
  now env2 <= now env1 ->
  trace (tick env2 (tick env1 w)) = (trace (tick env1 w) ++ es)%list ->
  rows (tick env2 (tick env1 w)) = rows (tick env1 w)
  /\ calls_of es = [].
Proof.
  intros Hk Hq Hread Hc Hnow Htr.
  assert (Hst : steady env1).
  { split; [exact Hread |]. intros rid e pending. rewrite Hc. discriminate. }
  assert (Hdue : due_rows (now env2) (rows (tick env1 w)) = []).
  { apply elem_of_nil_inv. intros r' Hin.
    apply list_elem_of_In, due_rows_elem in Hin as [Hrow Hdue'];
      [| apply tick_keyed, Hk].
    rewrite rows_tick in Hrow.
    destruct (tick_rows_shape env1 (rows w) (id r')) as [[Hn _] | (r0 & s & Hr0 & Hr1)];
      [congruence |].
    apply is_due_scheduled in Hdue' as [Hs Ht].
    destruct (is_due (now env1) r0) eqn:Hd0.
    - rewrite (tick_rows_due env1 _ _ r0 Hst Hk Hq Hr0 Hd0) in Hrow.
      destruct (all_commits_decide env1 r0 Hc) as (s0 & Hdec & Hterm).
      rewrite Hdec in Hrow. injection Hrow as <-. simpl in Hs. subst s0.
      discriminate Hterm.
    - rewrite (tick_rows_not_due env1 _ _ r0 Hk Hr0 Hd0) in Hrow.
      injection Hrow as <-.
      assert (is_due (now env1) r0 = true) by (apply is_due_scheduled; split; [auto | lia]).
      congruence. }
  split.
  - rewrite (rows_tick env2). apply no_due_tick_rows, Hdue.
  - rewrite (tick_calls env2 (tick env1 w) es Htr), Hdue.
    destruct (query_fault env2); reflexivity.
Qed.

(** X19: a due reminder for which no commit gets through (the commit
    after its call fails, or its call raises and the commit of the
    handler fails) keeps its row, so it stays [scheduled] in the store,
    in every tick.  When the tick is not ended before the reminder is
    reached, the call is placed for it; and the next tick that is not
    ended early, whose query succeeds and whose clock is not earlier,
    places the call again. *)
Theorem unpersisted_reminder_is_called_again
    (env1 : Env) (w : World) (k : Z) (r : Reminder) :
  keyed (rows w) ->
  rows w !! k = Some r ->
  is_due (now env1) r = true ->
  (exists res,
     call_reply env1 (id r) (phone_number r) (message r) (title r) = Ok res
     /\ commit_fault env1 (id r) 0 <> None)
  \/ (exists e,
        call_reply env1 (id r) (phone_number r) (message r) (title r) = Raise e
        /\ commit_fault env1 (id r) 1 <> None) ->
  rows (tick env1 w) !! k = Some r
  /\ status <$> rows (tick env1 w) !! k = Some scheduled
  /\ (query_fault env1 = None -> steady env1 ->
      In (CallPlaced (id r) (phone_number r) (message r) (title r))
         (trace (tick env1 w)))
  /\ forall env2 es,
       query_fault env2 = None -> steady env2 -> now env1 <= now env2 ->
       trace (tick env2 (tick env1 w)) = (trace (tick env1 w) ++ es)%list ->
       In (CallPlaced (id r) (phone_number r) (message r) (title r)) es
       /\ id r ∈ calls_of es.
Proof.
  intros Hk Hr Hdue Hfail.
  assert (Hdec : decided_status env1 r = None).
  { unfold decided_status.
    destruct Hfail as [(res & -> & Hc) | (e & -> & Hc)].
    - destruct (commit_fault env1 (id r) 0); [reflexivity | contradiction].
    - destruct (commit_fault env1 (id r) 1); [reflexivity | contradiction]. }
  assert (Hrow : rows (tick env1 w) !! k = Some r).
  { rewrite rows_tick.
    destruct (tick_rows_cases env1 (rows w) k r Hk Hr)
      as [Hsame | (_ & _ & _ & s & Hs & _)]; [exact Hsame | congruence]. }
  split; [exact Hrow |].
  split.
  { rewrite Hrow. cbn. apply is_due_scheduled in Hdue as [-> _]. reflexivity. }
  split.
  - intros Hq1 Hst1.
    destruct (tick_events env1 w) as (es1 & Htr1 & _ & _ & Hok & _).
    rewrite Htr1. apply in_or_app. right.
    apply (Hok Hq1 r), (steady_attempted env1 _ k r Hst1 Hk Hr Hdue).
  - intros env2 es Hq2 Hst2 Hnow Htr.
    pose proof (left_scheduled_is_called_again env1 env2 w k r es Hk Hdue Hrow
                  Hq2 Hst2 Hnow Htr) as Hin.
    split; [exact Hin |].
    unfold calls_of. apply list_elem_of_omap.
    exists (call_event r). split; [apply list_elem_of_In, Hin | reflexivity].
Qed.

Lemma tick_dom (env : Env) (w : World) : dom (rows (tick env w)) = dom (rows w).
Proof.
  apply set_eq. intros k. rewrite !elem_of_dom, rows_tick.
  destruct (tick_rows_shape env (rows w) k) as [[H1 H2] | (r0 & s & H1 & H2)];
    rewrite H1, H2; split; intros [x Hx]; try discriminate Hx; eauto.
Qed.

Lemma ticks_trace_extends (envs : list Env) (w : World) :
  exists es, trace (ticks envs w) = (trace w ++ es)%list.
Proof.
  revert w. induction envs as [| env envs IH]; intros w.
  - exists []. simpl. rewrite app_nil_r. reflexivity.
  - rewrite ticks_cons. destruct (IH (tick env w)) as (es2 & ->).
    destruct (tick_frame env w) as (mid & -> & _).
    eexists. rewrite <- app_assoc. reflexivity.
Qed.

(** A call a tick places is a call for a due row of the table. *)
Lemma tick_called_due (env : Env) (w : World) (es : list Event) (rid : Z) :
  keyed (rows w) ->
  trace (tick env w) = (trace w ++ es)%list ->
  rid ∈ calls_of es ->
  query_fault env = None
  /\ exists r, id r = rid /\ rows w !! rid = Some r /\ is_due (now env) r = true
               /\ In r (attempted env true (due_rows (now env) (rows w))).
Proof.
  intros Hk Htr Hin. rewrite (tick_calls env w es Htr) in Hin.
  destruct (query_fault env); [apply elem_of_nil in Hin; contradiction |].
  split; [reflexivity |].
  apply list_elem_of_fmap in Hin as (r & -> & Hr).
  apply list_elem_of_In in Hr.
  pose proof (attempted_In _ _ _ _ Hr) as Hd.
  apply due_rows_elem in Hd as [Hrow Hdue]; [| exact Hk].
  exists r. auto.
Qed.

Lemma ticks_calls_in_dom (envs : list Env) (w : World) (es : list Event) :
  keyed (rows w) ->
  trace (ticks envs w) = (trace w ++ es)%list ->
  dom (rows (ticks envs w)) = dom (rows w)
  /\ forall rid, rid ∈ calls_of es -> rid ∈ dom (rows w).
Proof.
  revert w es. induction envs as [| env envs IH]; intros w es Hk Htr.
  - simpl in *. split; [reflexivity |].
    rewrite <- (app_nil_r (trace w)) in Htr at 1.
    apply app_inv_head in Htr. subst es. intros rid Hin.
    apply elem_of_nil in Hin. contradiction.
  - rewrite ticks_cons in *.
    destruct (tick_frame env w) as (mid & Htr1 & _).
    destruct (ticks_trace_extends envs (tick env w)) as (es2 & Htr2).
    destruct (IH (tick env w) es2 (tick_keyed env w Hk) Htr2) as (Hdom & Hcalls).
    split; [rewrite Hdom; apply tick_dom |].
    rewrite Htr2, Htr1, <- app_assoc in Htr. apply app_inv_head in Htr. subst es.
    intros rid Hin. rewrite calls_of_app in Hin.
    apply elem_of_app in Hin as [Hin | Hin].
    + destruct (tick_called_due env w _ rid Hk Htr1 Hin) as (_ & r & _ & Hrow & _).
      apply elem_of_dom. eauto.
    + rewrite <- (tick_dom env w). apply Hcalls, Hin.
Qed.

Lemma ticks_keyed (envs : list Env) (w : World) :
  keyed (rows w) -> keyed (rows (ticks envs w)).
Proof.
  revert w. induction envs as [| env envs IH]; intros w Hk; [exact Hk |].
  rewrite ticks_cons. apply IH, tick_keyed, Hk.
Qed.

Lemma tick_scheduled_before (env : Env) (w : World) (k : Z) (r' : Reminder) :
  keyed (rows w) ->
  rows (tick env w) !! k = Some r' ->
  status r' = scheduled ->
  exists r, rows w !! k = Some r /\ status r = scheduled.
Proof.
  intros Hk Hrow Hs. rewrite rows_tick in Hrow.
  destruct (tick_rows_shape env (rows w) k) as [[Hn _] | (r0 & s & Hr0 & _)];
    [congruence |].
  exists r0. split; [exact Hr0 |].
  destruct (is_due (now env) r0) eqn:Hdue.
  - apply is_due_scheduled in Hdue as [Hs0 _]. exact Hs0.
  - rewrite (tick_rows_not_due env _ _ r0 Hk Hr0 Hdue) in Hrow. congruence.
Qed.

Lemma ticks_calls_scheduled (envs : list Env) (w : World) (es : list Event) :
  keyed (rows w) ->
  trace (ticks envs w) = (trace w ++ es)%list ->
  forall rid, rid ∈ calls_of es ->
    exists r, rows w !! rid = Some r /\ status r = scheduled.
Proof.
  revert w es. induction envs as [| env envs IH]; intros w es Hk Htr rid Hin.
  - simpl in Htr. rewrite <- (app_nil_r (trace w)) in Htr at 1.
    apply app_inv_head in Htr. subst es.
    apply elem_of_nil in Hin. contradiction.
  - rewrite ticks_cons in Htr.
    destruct (tick_frame env w) as (mid & Htr1 & _).
    destruct (ticks_trace_extends envs (tick env w)) as (es2 & Htr2).
    pose proof (IH (tick env w) es2 (tick_keyed env w Hk) Htr2) as Hrest.
    rewrite Htr2, Htr1, <- app_assoc in Htr. apply app_inv_head in Htr. subst es.
    rewrite calls_of_app in Hin. apply elem_of_app in Hin as [Hin | Hin].
    + destruct (tick_called_due env w _ rid Hk Htr1 Hin)
        as (_ & r & _ & Hrow & Hdue & _).
      apply is_due_scheduled in Hdue as [Hs _]. eauto.
    + destruct (Hrest rid Hin) as (r' & Hrow' & Hs').
      eapply tick_scheduled_before; eauto.
Qed.

(** X20: as long as every commit gets through, no reminder is called
    twice, over any number of ticks: once a status has been recorded no
    later tick calls the reminder again. *)
Theorem committed_reminder_is_called_once
    (envs : list Env) (w : World) (es : list Event) :
  keyed (rows w) ->
  Forall (fun env => forall rid n, commit_fault env rid n = None) envs ->
  trace (ticks envs w) = (trace w ++ es)%list ->
  NoDup (calls_of es).
Proof.
  revert w es. induction envs as [| env envs IH]; intros w es Hk Hc Htr.
  - simpl in Htr. rewrite <- (app_nil_r (trace w)) in Htr at 1.
    apply app_inv_head in Htr. subst es. constructor.
  - apply Forall_cons in Hc as [Hc Hcs]. rewrite ticks_cons in Htr.
    destruct (tick_frame env w) as (mid & Htr1 & _).
    destruct (ticks_trace_extends envs (tick env w)) as (es2 & Htr2).
    pose proof (tick_keyed env w Hk) as Hk1.
    rewrite Htr2, Htr1, <- app_assoc in Htr. apply app_inv_head in Htr. subst es.
    rewrite calls_of_app. apply NoDup_app. split; [| split].
    + rewrite (tick_calls env w _ Htr1).
      destruct (query_fault env); [constructor |].
      apply attempted_NoDup, due_rows_NoDup, Hk.
    + intros rid Hin1 Hin2.
      destruct (ticks_calls_scheduled envs _ es2 Hk1 Htr2 rid Hin2)
        as (r' & Hrow' & Hs').
      destruct (tick_called_due env w _ rid Hk Htr1 Hin1)
        as (Hq & r & <- & Hrow & Hdue & Hatt).
      rewrite rows_tick, (tick_rows_attempted env _ _ r Hk Hq Hrow Hatt) in Hrow'.
      destruct (all_commits_decide env r Hc) as (s & Hdec & Hterm).
      rewrite Hdec in Hrow'. injection Hrow' as <-. simpl in Hs'. subst s.
      discriminate Hterm.
    + apply (IH _ _ Hk1 Hcs Htr2).
Qed.

(** X21: ticks neither add nor remove rows: after any sequence of ticks
    the table has the ids it had, each row still under its own id, and
    every call that was placed is for an id of the table. *)
Theorem ticks_keep_the_ids (envs : list Env) (w : World) (es : list Event) :
  keyed (rows w) ->
  trace (ticks envs w) = (trace w ++ es)%list ->
  dom (rows (ticks envs w)) = dom (rows w)
  /\ keyed (rows (ticks envs w))
  /\ forall rid, rid ∈ calls_of es -> rid ∈ dom (rows w).
Proof.
  intros Hk Htr.
  destruct (ticks_calls_in_dom envs w es Hk Htr) as [Hdom Hcalls].
  split; [exact Hdom |].
  split; [apply ticks_keyed; exact Hk |].
  exact Hcalls.
Qed.

End Ticks.

(** ** The loop and the lifespan *)

Section LoopAndLifespan.

Import App.

Lemma rows_ticks (envs : list Env) (w : World) :
  rows (ticks envs w) = fold_left (fun rs env => tick_rows env rs) envs (rows w).
Proof.
  revert w. induction envs as [| env envs IH]; intros w; [reflexivity |].
  rewrite ticks_cons, IH, rows_tick. reflexivity.
Qed.

Lemma loop_body_frame (env : Env) (w : World) :
  rows (exec (loop_body env) w) = tick_rows env (rows w)
  /\ open_sessions (exec (loop_body env) w) = open_sessions w
  /\ _running (exec (loop_body env) w) = _running w.
Proof.
  unfold exec. destruct (loop_body_spec env w) as (es & c & -> & _).
  simpl. auto.
Qed.

(** X22: while [_running] holds the loop neither returns nor raises: over
    any number of passes it is still in the loop, the table is what that
    many ticks make of it, and no session is left open.  When [_running]
    is false at the loop condition the loop returns at once: it logs that
    the scheduler stopped and runs no tick. *)
Theorem loop_runs_ticks_while_running (envs : list Env) (w : World) :
  (_running w = true ->
   result (while_running envs) w = Ok true
   /\ rows (exec (while_running envs) w) = rows (ticks envs w)
   /\ open_sessions (exec (while_running envs) w) = open_sessions w
   /\ _running (exec (while_running envs) w) = true)
  /\ (_running w = false ->
      while_running envs w
      = (Ok false, add_event (Log INFO "Reminder scheduler stopped.") w)).
Proof.
  split; [| apply while_running_stopped].
  revert w. induction envs as [| env envs IH]; intros w Hrun.
  - unfold result, exec. rewrite while_running_nil by exact Hrun. simpl. auto.
  - unfold result, exec in *. rewrite while_running_step by exact Hrun.
    destruct (loop_body_frame env w) as (Hrows & Hopen & Hr).
    destruct (IH (exec (loop_body env) w)) as (H1 & H2 & H3 & H4); [congruence |].
    split; [exact H1 |]. split; [| split; [congruence | exact H4]].
    rewrite H2, !rows_ticks. simpl. rewrite Hrows. reflexivity.
Qed.

Lemma start_returns (w : World) : result start w = Ok tt.
Proof.
  unfold result. destruct (_running w) eqn:Hrun.
  - rewrite start_running by exact Hrun. reflexivity.
  - destruct (start_idle w Hrun) as (w' & -> & _). reflexivity.
Qed.

(** X23: [scheduler_lifespan] stops the scheduler on the way out, also
    when its body raises: for a body that keeps the scheduler and its
    tasks consistent, the scheduler is not running and no task can run
    afterwards, and what the body returned or raised is passed on. *)
Theorem scheduler_lifespan_always_stops
    {A} (body : M A) (o : WaitOutcome) (w : World) :
  lifecycle_ok w ->
  (forall w0, lifecycle_ok w0 -> lifecycle_ok (exec body w0)) ->
  is_running (exec (scheduler_lifespan body o) w) = false
  /\ alive_tasks (exec (scheduler_lifespan body o) w) = 0%nat
  /\ result (scheduler_lifespan body o) w = result body (exec start w).
Proof.
  intros Hok Hbody.
  pose proof (start_returns w) as Hs.
  pose proof (start_ok w Hok) as Hok1.
  pose proof (Hbody _ Hok1) as Hok2.
  destruct (stop_ok o _ Hok2) as (Hres & Hrun & Halive & _).
  unfold scheduler_lifespan, result, exec, bind, try_finally in *.
  destruct (start w) as [r1 w1]. simpl in *. subst r1.
  destruct (body w1) as [r2 w2]. simpl in *.
  destruct (stop o w2) as [r3 w3]. simpl in *. subst r3.
  auto.
Qed.

End LoopAndLifespan.


(** ** The call trigger, the health check and the tick over them *)

Section VapiMore.

Import Vapi VapiHealth App.

Lemma str_truthy_true (s : string) : str_truthy s = true <-> s <> EmptyString.
Proof. destruct s; simpl; split; congruence. Qed.

Lemma health_check_cases (self : VapiService) (http : HttpGet -> HttpReply) :
  exists b,
    fst (health_check self http) = Ok b
    /\ (b = true ->
        api_key self <> EmptyString
        /\ exists response,
             http (health_request self) = Ok response
             /\ status_code response = 200).
Proof.
  unfold health_check.
  destruct (str_truthy (api_key self)) eqn:Hkey; simpl.
  - apply str_truthy_true in Hkey.
    destruct (http (health_request self)) as [response | e]; simpl.
    + eexists. split; [reflexivity |]. intros Hs. apply Z.eqb_eq in Hs. eauto.
    + exists false. split; [reflexivity | discriminate].
  - exists false. split; [reflexivity | discriminate].
Qed.

(** X24: [health_check] never raises; it answers [True] exactly when the
    API key is set and the provider answers the GET with status 200; it
    sends no request without a key and one request otherwise, and an
    exception of the request gives [False]. *)
Theorem health_check_true_iff (self : VapiService) (http : HttpGet -> HttpReply) :
  (exists b, fst (health_check self http) = Ok b)
  /\ (fst (health_check self http) = Ok true <->
      api_key self <> EmptyString
      /\ exists response,
           http (health_request self) = Ok response
           /\ status_code response = 200)
  /\ (api_key self = EmptyString -> snd (health_check self http) = [])
  /\ (api_key self <> EmptyString ->
      snd (health_check self http) = [health_request self]).
Proof.
  unfold health_check.
  destruct (str_truthy (api_key self)) eqn:Hkey; simpl.
  - apply str_truthy_true in Hkey.
    destruct (http (health_request self)) as [response | e]; simpl.
    + split; [eauto |]. split; [| split; [contradiction | reflexivity]].
      split.
      * intros [= Hs]. apply Z.eqb_eq in Hs. eauto.
      * intros (_ & response' & [= <-] & Hs). rewrite Hs. reflexivity.
    + split; [eauto |]. split; [| split; [contradiction | reflexivity]].
      split; [discriminate |]. intros (_ & response & H & _). discriminate H.
  - apply str_truthy_false in Hkey.
    split; [eauto |]. split; [| split; [reflexivity | contradiction]].
    split; [discriminate |]. intros [H _]. contradiction.
Qed.

(** X25: [health_check] looks at the API key only: with the key set and
    the provider answering 200 it reports health although the assistant
    id or the phone number id is missing, in which case every
    [trigger_call] fails on its configuration before any request. *)
Theorem healthy_service_may_be_misconfigured
    (self : VapiService) (get : HttpGet -> HttpReply) (response : Response)
    (post : HttpRequest -> HttpReply) (phone_number message reminder_title : string) :
  api_key self <> EmptyString ->
  assistant_id self = EmptyString \/ phone_number_id self = EmptyString ->
  get (health_request self) = Ok response ->
  status_code response = 200 ->
  fst (health_check self get) = Ok true
  /\ exists msg,
       trigger_call self post phone_number message reminder_title
       = (Ok (failure msg), []).
Proof.
  intros Hkey Hmiss Hget Hs. split.
  - unfold health_check. apply str_truthy_true in Hkey. rewrite Hkey. simpl.
    rewrite Hget. simpl. rewrite Hs. reflexivity.
  - unfold trigger_call.
    destruct (_validate_configuration self) as [m |] eqn:Hcfg; [eauto |].
    apply validate_configuration_none in Hcfg as (_ & Ha & Hp).
    destruct Hmiss; contradiction.
Qed.

(** X26: [trigger_call] never retries: it sends one request when the
    service is configured and none otherwise, whatever the provider
    answers; the request goes to [api_url/calls] with the key as bearer
    token and carries the recipient's number. *)
Theorem trigger_call_sends_one_request
    (self : VapiService) (http : HttpRequest -> HttpReply)
    (phone_number message reminder_title : string) :
  (length (snd (trigger_call self http phone_number message reminder_title)) <= 1)%nat
  /\ (_validate_configuration self = None <->
      snd (trigger_call self http phone_number message reminder_title)
      = [call_request self phone_number message reminder_title])
  /\ (forall http',
        snd (trigger_call self http' phone_number message reminder_title)
        = snd (trigger_call self http phone_number message reminder_title))
  /\ url (call_request self phone_number message reminder_title)
     = api_url self +:+ "/calls"
  /\ In ("Authorization", "Bearer " +:+ api_key self)
        (headers (call_request self phone_number message reminder_title))
  /\ (exists fields customer,
        payload (call_request self phone_number message reminder_title) = JObj fields
        /\ dict_get "customer" fields = Some (JObj customer)
        /\ dict_get "number" customer = Some (JStr phone_number)).
Proof.
  unfold trigger_call.
  destruct (_validate_configuration self) as [m |]; simpl.
  - split; [lia |]. split; [split; discriminate |]. split; [reflexivity |].
    split; [reflexivity |]. split; [left; reflexivity |].
    eexists. eexists. repeat split; reflexivity.
  - split; [lia |]. split; [split; reflexivity |]. split; [reflexivity |].
    split; [reflexivity |]. split; [left; reflexivity |].
    eexists. eexists. repeat split; reflexivity.
Qed.

Lemma trigger_call_success_cases
    (self : VapiService) (http : HttpRequest -> HttpReply)
    (phone_number message reminder_title : string) :
  exists res,
    fst (trigger_call self http phone_number message reminder_title) = Ok res
    /\ (success res = true <->
        _validate_configuration self = None
        /\ exists response,
             http (call_request self phone_number message reminder_title) = Ok response
             /\ (status_code response = 200 \/ status_code response = 201)
             /\ exists c, bind_outcome (json response) (model_validate (rejection response)) = Ok c).
Proof.
  unfold trigger_call.
  destruct (_validate_configuration self) as [m |] eqn:Hcfg; simpl.
  { eexists. split; [reflexivity |]. simpl. split; [discriminate |].
    intros [H _]. discriminate H. }
  destruct (http _) as [response | e] eqn:Hr; simpl.
  2: { destruct (exn_class e); (eexists; split; [reflexivity |]); simpl;
         (split; [discriminate |]);
         intros (_ & response & H & _); discriminate H. }
  unfold handle_response.
  destruct (Z.eqb_spec (status_code response) 200) as [E200 | N200]; simpl.
  2: destruct (Z.eqb_spec (status_code response) 201) as [E201 | N201]; simpl.
  3: { eexists. split; [reflexivity |]. simpl. split; [discriminate |].
       intros (_ & response' & [= <-] & [H | H] & _); contradiction. }
  all: destruct (json response) as [j | ej] eqn:Hj; simpl;
    [destruct (model_validate (rejection response) j) as [c | e] eqn:Hv; simpl |];
    (eexists; split; [reflexivity |]); simpl; split;
    try discriminate; try (intros _; reflexivity).
  all: try (intros _; split; [reflexivity |];
            exists response; split; [reflexivity |]; split; [auto |];
            exists c; rewrite Hj; simpl; exact Hv).
  all: intros (_ & response' & Hresp & _ & c' & Hc');
    injection Hresp as <-; rewrite Hj in Hc'; simpl in Hc';
    try rewrite Hv in Hc'; discriminate Hc'.
Qed.

(** X27: in a tick whose calls go through [VapiService.trigger_call],
    the status a due reminder takes when its call has been placed and
    its commit succeeds is [completed] exactly when the service is
    configured and the provider answered 200 or 201 with a valid call
    object; in every other case (a missing key or id, a timeout, a
    connection failure, another status, an invalid payload) it is
    [failed].  The row of the reminder after the tick has that status
    exactly when the call was placed, and is unchanged when the tick was
    ended before the reminder was reached; when no reload and no flush
    fails in the tick the reminder is reached, so it does not stay
    [scheduled]. *)
Theorem tick_over_vapi
    (service : VapiService) (http : HttpRequest -> HttpReply) (t : Z)
    (rf : Z -> option Exn) (cf : Z -> nat -> option CommitFault)
    (w : World) (k : Z) (r : Scheduler.Reminder) :
  keyed (rows w) ->
  rows w !! k = Some r ->
  is_due t r = true ->
  cf (Scheduler.id r) 0%nat = None ->
  let env := vapi_env service http t None rf cf in
  exists s,
    (s = completed \/ s = failed)
    /\ (s = completed <->
        _validate_configuration service = None
        /\ exists response,
             http (call_request service (Scheduler.phone_number r)
                     (Scheduler.message r) (Scheduler.title r)) = Ok response
             /\ (status_code response = 200 \/ status_code response = 201)
             /\ exists c, bind_outcome (json response)
                            (model_validate (rejection response)) = Ok c)
    /\ (rows (tick env w) !! k = Some r
        \/ rows (tick env w) !! k = Some (with_status s r))
    /\ (forall es,
          trace (tick env w) = (trace w ++ es)%list ->
          (Scheduler.id r ∈ calls_of es <->
           rows (tick env w) !! k = Some (with_status s r)))
    /\ (steady env ->
        rows (tick env w) !! k = Some (with_status s r)
        /\ Scheduler.status <$> rows (tick env w) !! k = Some s).
Proof.
  intros Hk Hr Hdue Hc env.
  destruct (trigger_call_success_cases service http (Scheduler.phone_number r)
              (Scheduler.message r) (Scheduler.title r)) as (res & Hres & Hiff).
  assert (Hdec : decided_status env r
                 = Some (if success res then completed else failed)).
  { unfold decided_status, env, vapi_env, vapi_reply. simpl.
    rewrite Hres, Hc. reflexivity. }
  assert (Hsched : Scheduler.status r = scheduled)
    by (apply is_due_scheduled in Hdue; tauto).
  set (s := if success res then completed else failed) in *.
  assert (Hne : with_status s r <> r).
  { intros Heq. apply (f_equal Scheduler.status) in Heq. simpl in Heq.
    rewrite Hsched in Heq. subst s. destruct (success res); discriminate Heq. }
  assert (Hatt : In r (attempted env true (due_rows (now env) (rows w))) ->
                 rows (tick env w) !! k = Some (with_status s r)).
  { intros Hin.
    rewrite rows_tick, (tick_rows_attempted env _ k r Hk eq_refl Hr Hin), Hdec.
    reflexivity. }
  exists s. split; [subst s; destruct (success res); auto |].
  split; [rewrite <- Hiff; subst s; destruct (success res); split; congruence |].
  split; [| split].
  - rewrite rows_tick.
    destruct (tick_rows_cases env (rows w) k r Hk Hr)
      as [Hsame | (_ & _ & _ & s' & Hs' & Hrow)]; [left; exact Hsame |].
    right. rewrite Hrow. congruence.
  - intros es Htr. split.
    + intros Hin.
      destruct (tick_called_due env w es _ Hk Htr Hin) as (_ & r' & Hid & Hrow & _ & Hin').
      rewrite (keyed_lookup _ _ _ Hk Hr), Hr in Hrow.
      injection Hrow as <-. exact (Hatt Hin').
    + intros Hrow. rewrite (tick_calls env w es Htr). cbn [query_fault env vapi_env].
      destruct (decide (r ∈ attempted env true (due_rows (now env) (rows w))))
        as [Hin | Hnot].
      * apply list_elem_of_fmap. exists r. split; [reflexivity | exact Hin].
      * exfalso. rewrite list_elem_of_In in Hnot.
        rewrite rows_tick, (tick_rows_unattempted env _ k r Hk Hr Hnot) in Hrow.
        congruence.
  - intros Hst.
    pose proof (Hatt (steady_attempted env _ k r Hst Hk Hr Hdue)) as Hrow.
    split; [exact Hrow |]. rewrite Hrow. reflexivity.
Qed.

(** X28: the health endpoint never raises and always answers with status
    "healthy"; it reports the scheduler as running exactly when
    [is_running] holds, Vapi as configured exactly when the API key is
    set, and never reports Vapi healthy without reporting it
    configured. *)
Theorem health_endpoint_report
    (settings : Settings) (http : HttpGet -> HttpReply) (w : World) :
  exists h,
    health_endpoint settings http w = Ok h
    /\ health_status h = "healthy"
    /\ scheduler_running h = is_running w
    /\ (vapi_configured h = true <-> vapi_api_key settings <> EmptyString)
    /\ (vapi_healthy h = true -> vapi_configured h = true).
Proof.
  unfold health_endpoint.
  destruct (health_check_cases (vapi_service settings) http) as (b & Hb & Htrue).
  rewrite Hb. simpl. eexists. split; [reflexivity |]. simpl.
  split; [reflexivity |]. split; [reflexivity |].
  split; [apply str_truthy_true |].
  intros Hh. destruct (Htrue Hh) as [Hkey _].
  apply str_truthy_true. exact Hkey.
Qed.

End VapiMore.

(** ** The endpoints and the scheduler together *)

Section CrudAndTicks.

Import Schemas Routers App.

(** X29: an update that sets the status of a reminder back to
    [scheduled] re-arms it, whatever its status was: if its trigger time
    has passed, it is among the rows the next due query returns, and the
    next tick whose query succeeds and that no reload and no flush ends
    early places a call for it again. *)
Theorem reopened_reminder_is_called_again
    (env : Env) (w : World) (k : Z) (r : Reminder) (es : list Event) :
  keyed (rows w) ->
  rows w !! k = Some r ->
  trigger_at r <= now env ->
  query_fault env = None ->
  let updated := update_reminder k (set_status_body scheduled) (rows w) in
  trace (tick env (with_rows (snd updated) w))
  = (trace (with_rows (snd updated) w) ++ es)%list ->
  fst updated = Sent (with_status scheduled r)
  /\ In (with_status scheduled r) (due_rows (now env) (snd updated))
  /\ (steady env -> k ∈ calls_of es).
Proof.
  intros Hk Hr Htrig Hq updated Htr.
  assert (Hupd : updated = (Sent (with_status scheduled r),
                            <[k := with_status scheduled r]> (rows w))).
  { subst updated. unfold update_reminder. rewrite Hr.
    rewrite update_row_without_null by reflexivity. cbn.
    destruct r; reflexivity. }
  rewrite Hupd in *. simpl in *. split; [reflexivity |].
  pose proof (keyed_lookup _ _ _ Hk Hr) as Hid.
  assert (Hdue : In (with_status scheduled r)
                   (due_rows (now env) (<[k := with_status scheduled r]> (rows w)))).
  { apply due_rows_elem.
    - apply keyed_insert; [exact Hk | simpl; exact Hid].
    - simpl. rewrite Hid, lookup_insert_eq. split; [reflexivity |].
      apply is_due_scheduled. simpl. auto. }
  split; [exact Hdue |].
  intros Hst.
  rewrite (tick_calls env _ es Htr), Hq. simpl.
  rewrite (proj1 (attempted_steady env true _ Hst)).
  apply list_elem_of_fmap. exists (with_status scheduled r).
  split; [simpl; congruence |].
  apply list_elem_of_In, Hdue.
Qed.

(** X30: once a reminder has been deleted no tick places a call for it,
    and no tick brings its row back. *)
Theorem deleted_reminder_is_never_called
    (envs : list Env) (w : World) (k : Z) (r : Reminder) (es : list Event) :
  keyed (rows w) ->
  rows w !! k = Some r ->
  let deleted := delete_reminder k (rows w) in
  trace (ticks envs (with_rows (snd deleted) w))
  = (trace (with_rows (snd deleted) w) ++ es)%list ->
  fst deleted = Sent tt
  /\ (k ∉ calls_of es)
  /\ rows (ticks envs (with_rows (snd deleted) w)) !! k = None.
Proof.
  intros Hk Hr deleted Htr.
  assert (Hdel : deleted = (Sent tt, delete k (rows w))).
  { subst deleted. unfold delete_reminder. rewrite Hr. reflexivity. }
  rewrite Hdel in *. simpl in *. split; [reflexivity |].
  assert (Hk' : keyed (rows (with_rows (delete k (rows w)) w)))
    by (simpl; apply keyed_delete, Hk).
  destruct (ticks_calls_in_dom envs _ es Hk' Htr) as [Hdom Hcalls].
  simpl in Hdom, Hcalls. split.
  - intros Hin. apply Hcalls in Hin.
    apply elem_of_dom in Hin as [x Hx]. rewrite lookup_delete_eq in Hx.
    discriminate Hx.
  - apply not_elem_of_dom. rewrite Hdom. apply not_elem_of_dom.
    apply lookup_delete_eq.
Qed.

End CrudAndTicks.

(** ** The properties on the sample data *)

Section Examples.

Import Schemas Routers App.

Lemma create_then_get_witness :
  sample_rows !! 5 = None
  /\ keyed sample_rows
  /\ exists r,
       create_reminder 5 1000 good_create sample_rows
       = (Sent r, <[5 := r]> sample_rows)
       /\ status r = scheduled
       /\ trigger_at r = 700
       /\ get_reminder 5 (<[5 := r]> sample_rows) = Sent r.
Proof.
  split; [reflexivity |]. split; [exact sample_rows_keyed |].
  destruct (create_then_get 5 1000 good_create sample_rows eq_refl sample_rows_keyed)
    as (r & H1 & _ & H2 & _ & _ & _ & _ & H3 & _ & _ & H4 & _).
  exists r. auto.
Defined.

Lemma create_then_delete_witness :
  sample_rows !! 5 = None
  /\ delete_reminder 5 (snd (create_reminder 5 1000 good_create sample_rows))
     = (Sent tt, sample_rows).
Proof.
  split; [reflexivity |].
  apply (create_then_delete 5 1000 good_create sample_rows eq_refl).
Defined.

Lemma update_changes_given_fields_only_witness :
  sample_rows !! 1 = Some (sample_reminder 1 700 scheduled)
  /\ has_null later_body = false
  /\ exists r',
       update_reminder 1 later_body sample_rows
       = (Sent r', <[1 := r']> sample_rows)
       /\ trigger_at r' = 4600
       /\ instant {| wall := 4600; utcoffset := Some 3600 |} = Some 1000
       /\ title r' = "Dentist".
Proof.
  split; [reflexivity |]. split; [reflexivity |].
  destruct (update_changes_given_fields_only 1 later_body sample_rows
              (sample_reminder 1 700 scheduled) eq_refl eq_refl)
    as (r' & H1 & _ & _ & H2 & _ & _ & H3 & _).
  exists r'. split; [exact H1 |]. split; [exact H3 |]. split; [reflexivity | exact H2].
Defined.

Lemma empty_update_changes_nothing_witness :
  sample_rows !! 1 = Some (sample_reminder 1 700 scheduled)
  /\ update_reminder 1
       {| u_title := Unset; u_message := Unset; u_phone_number := Unset;
          u_trigger_at := Unset; u_timezone := Unset; u_status := Unset |}
       sample_rows
     = (Sent (sample_reminder 1 700 scheduled), sample_rows).
Proof.
  split; [reflexivity |].
  apply (empty_update_changes_nothing 1 sample_rows
           (sample_reminder 1 700 scheduled) eq_refl).
Defined.

Lemma null_patch_fails_at_commit_witness :
  has_null null_title_body = true
  /\ sample_rows !! 1 = Some (sample_reminder 1 700 scheduled)
  /\ validate_update null_title_body = Ok null_title_body
  /\ update_reminder 1 null_title_body sample_rows = (IntegrityError, sample_rows).
Proof.
  split; [reflexivity |]. split; [reflexivity |].
  destruct (null_patch_fails_at_commit 1 null_title_body sample_rows
              (sample_reminder 1 700 scheduled)
              ltac:(discriminate) ltac:(discriminate) ltac:(discriminate) eq_refl)
    as (H1 & H2 & _).
  split; [exact H1 | exact (H2 eq_refl)].
Defined.

Lemma delete_removes_row_witness :
  sample_rows !! 1 = Some (sample_reminder 1 700 scheduled)
  /\ delete_reminder 1 sample_rows = (Sent tt, delete 1 sample_rows)
  /\ get_reminder 1 (delete 1 sample_rows) = HTTPException 404 "Reminder not found".
Proof.
  split; [reflexivity |].
  destruct (delete_removes_row 1 sample_rows (sample_reminder 1 700 scheduled) eq_refl)
    as (H1 & H2 & _).
  split; [exact H1 | exact H2].
Defined.

Lemma list_page_is_bounded_and_sorted_witness :
  1 <= 1
  /\ 1 <= 2 <= 100
  /\ keyed sample_rows
  /\ (length (items (list_reminders (fun _ _ => true) 1 2 (Some scheduled) None
                       sample_rows)) <= 2)%nat
  /\ StronglySorted earlier
       (items (list_reminders (fun _ _ => true) 1 2 (Some scheduled) None sample_rows)).
Proof.
  split; [lia |]. split; [lia |]. split; [exact sample_rows_keyed |].
  destruct (list_page_is_bounded_and_sorted (fun _ _ => true) 1 2 (Some scheduled)
              None sample_rows ltac:(lia) ltac:(lia) sample_rows_keyed)
    as ([H1 _] & _ & H2 & _).
  split; [exact H1 | exact H2].
Defined.

Lemma pages_cover_matching_rows_witness :
  1 <= 2
  /\ (total (list_reminders (fun _ _ => true) 1 2 None None sample_rows) <= 2 * Z.to_nat 2)%nat
  /\ mjoin ((fun i => items (list_reminders (fun _ _ => true) (Z.of_nat i + 1) 2
                               None None sample_rows)) <$> seq 0 2)
     ≡ₚ matching (fun _ _ => true) None None sample_rows.
Proof.
  split; [lia |].
  assert (Htotal : (total (list_reminders (fun _ _ => true) 1 2 None None sample_rows)
                    <= 2 * Z.to_nat 2)%nat)
    by (vm_compute; repeat constructor).
  split; [exact Htotal |].
  destruct (pages_cover_matching_rows (fun _ _ => true) 2 None None sample_rows 2
              ltac:(lia)) as [_ H].
  exact (H Htotal).
Defined.


Lemma tick_calls_each_due_row_once_witness :
  keyed (rows sample_world)
  /\ trace (tick env_flush_fault sample_world)
     = (trace sample_world ++ added sample_world (tick env_flush_fault sample_world))%list
  /\ calls_of (added sample_world (tick env_flush_fault sample_world))
     `prefix_of` (id <$> due_rows (now env_flush_fault) (rows sample_world))
  /\ 1 ∈ calls_of (added sample_world (tick env_flush_fault sample_world))
  /\ NoDup (calls_of (added sample_world (tick env_flush_fault sample_world))).
Proof.
  split; [exact sample_rows_keyed |].
  assert (Htr : trace (tick env_flush_fault sample_world)
                = (trace sample_world
                   ++ added sample_world (tick env_flush_fault sample_world))%list)
    by (vm_compute; reflexivity).
  split; [exact Htr |].
  destruct (tick_calls_each_due_row_once env_flush_fault sample_world _
              sample_rows_keyed Htr) as (_ & H1 & _ & H2 & H3).
  split; [exact H1 |]. split; [| exact H3].
  apply (H2 eq_refl (sample_reminder 1 700 scheduled) [sample_reminder 2 900 scheduled]).
  vm_compute. reflexivity.
Defined.

Lemma second_tick_changes_nothing_witness :
  keyed (rows sample_world)
  /\ query_fault env_ok = None
  /\ (forall rid, read_fault env_ok rid = None)
  /\ (forall rid n, commit_fault env_ok rid n = None)
  /\ now env_ok <= now env_ok
  /\ rows (tick env_ok (tick env_ok sample_world)) = rows (tick env_ok sample_world)
  /\ calls_of (added (tick env_ok sample_world) (tick env_ok (tick env_ok sample_world)))
     = [].
Proof.
  split; [exact sample_rows_keyed |]. split; [reflexivity |].
  split; [reflexivity |]. split; [reflexivity |]. split; [reflexivity |].
  assert (Htr : trace (tick env_ok (tick env_ok sample_world))
                = (trace (tick env_ok sample_world)
                   ++ added (tick env_ok sample_world)
                        (tick env_ok (tick env_ok sample_world)))%list)
    by (vm_compute; reflexivity).
  apply (second_tick_changes_nothing env_ok env_ok sample_world _ sample_rows_keyed
           eq_refl (fun _ => eq_refl) (fun _ _ => eq_refl) (Z.le_refl _) Htr).
Defined.

Lemma unpersisted_reminder_is_called_again_witness :
  keyed (rows sample_world)
  /\ rows sample_world !! 1 = Some (sample_reminder 1 700 scheduled)
  /\ is_due (now env_call_fault) (sample_reminder 1 700 scheduled) = true
  /\ call_reply env_call_fault 1 "+14155551234" "Your appointment is at 3pm" "Dentist"
     = Raise (MkExn OtherException "connection reset")
  /\ commit_fault env_call_fault 1 1 <> None
  /\ rows (tick env_call_fault sample_world) !! 1
     = Some (sample_reminder 1 700 scheduled)
  /\ In (CallPlaced 1 "+14155551234" "Your appointment is at 3pm" "Dentist")
        (trace (tick env_call_fault sample_world))
  /\ 1 ∈ calls_of (added (tick env_call_fault sample_world)
                     (tick env_ok (tick env_call_fault sample_world))).
Proof.
  split; [exact sample_rows_keyed |]. split; [reflexivity |]. split; [reflexivity |].
  split; [reflexivity |]. split; [discriminate |].
  assert (Htr : trace (tick env_ok (tick env_call_fault sample_world))
                = (trace (tick env_call_fault sample_world)
                   ++ added (tick env_call_fault sample_world)
                        (tick env_ok (tick env_call_fault sample_world)))%list)
    by (vm_compute; reflexivity).
  destruct (unpersisted_reminder_is_called_again env_call_fault sample_world 1
              (sample_reminder 1 700 scheduled) sample_rows_keyed eq_refl eq_refl)
    as (H1 & _ & H2 & H3).
  { right. exists (MkExn OtherException "connection reset").
    split; [reflexivity | discriminate]. }
  split; [exact H1 |].
  split; [exact (H2 eq_refl env_call_fault_steady) |].
  apply (H3 env_ok _ eq_refl env_ok_steady (Z.le_refl _) Htr).
Defined.

Lemma ticks_keep_the_ids_witness :
  keyed (rows sample_world)
  /\ dom (rows (ticks [env_ok; env_call_fault] sample_world)) = dom (rows sample_world)
  /\ forall rid,
       rid ∈ calls_of (added sample_world (ticks [env_ok; env_call_fault] sample_world)) ->
       rid ∈ dom (rows sample_world).
Proof.
  split; [exact sample_rows_keyed |].
  assert (Htr : trace (ticks [env_ok; env_call_fault] sample_world)
                = (trace sample_world
                   ++ added sample_world
                        (ticks [env_ok; env_call_fault] sample_world))%list)
    by (vm_compute; reflexivity).
  destruct (ticks_keep_the_ids [env_ok; env_call_fault] sample_world _
              sample_rows_keyed Htr) as (H1 & _ & H2).
  split; [exact H1 | exact H2].
Defined.

Lemma committed_reminder_is_called_once_witness :
  keyed (rows sample_world)
  /\ Forall (fun env => forall rid n, commit_fault env rid n = None) [env_ok; env_ok]
  /\ NoDup (calls_of (added sample_world (ticks [env_ok; env_ok] sample_world))).
Proof.
  split; [exact sample_rows_keyed |].
  assert (Hc : Forall (fun env => forall rid n, commit_fault env rid n = None)
                 [env_ok; env_ok])
    by (repeat constructor).
  split; [exact Hc |].
  assert (Htr : trace (ticks [env_ok; env_ok] sample_world)
                = (trace sample_world
                   ++ added sample_world (ticks [env_ok; env_ok] sample_world))%list)
    by (vm_compute; reflexivity).
  apply (committed_reminder_is_called_once [env_ok; env_ok] sample_world _
           sample_rows_keyed Hc Htr).
Defined.

Lemma scheduler_lifespan_always_stops_witness :
  lifecycle_ok sample_world
  /\ (forall w0, lifecycle_ok w0 -> lifecycle_ok (exec (run_task [env_ok] 0) w0))
  /\ is_running (exec (scheduler_lifespan (run_task [env_ok] 0) TimedOut) sample_world)
     = false
  /\ alive_tasks (exec (scheduler_lifespan (run_task [env_ok] 0) TimedOut) sample_world)
     = 0%nat.
Proof.
  assert (Hbody : forall w0, lifecycle_ok w0 ->
                             lifecycle_ok (exec (run_task [env_ok] 0) w0)).
  { intros w0 Hok. unfold exec.
    destruct (run_task_ok [env_ok] 0 w0 Hok) as (w' & Heq & _ & _ & Hok').
    rewrite Heq. exact Hok'. }
  split; [apply init_ok |]. split; [exact Hbody |].
  destruct (scheduler_lifespan_always_stops (run_task [env_ok] 0) TimedOut sample_world
              (init_ok sample_rows 30) Hbody) as (H1 & H2 & _).
  split; [exact H1 | exact H2].
Defined.

Lemma healthy_service_may_be_misconfigured_witness :
  Vapi.api_key VapiHealth.key_only_service <> EmptyString
  /\ Vapi.assistant_id VapiHealth.key_only_service = EmptyString
  /\ fst (VapiHealth.health_check VapiHealth.key_only_service
            (fun _ => Ok VapiHealth.listed_200)) = Ok true
  /\ exists msg,
       Vapi.trigger_call VapiHealth.key_only_service (Vapi.always Vapi.created_201)
         "+14155551234" "m" "t"
       = (Ok (Vapi.failure msg), []).
Proof.
  split; [discriminate |]. split; [reflexivity |].
  apply (healthy_service_may_be_misconfigured VapiHealth.key_only_service
           (fun _ => Ok VapiHealth.listed_200) VapiHealth.listed_200
           (Vapi.always Vapi.created_201) "+14155551234" "m" "t"
           ltac:(discriminate) (or_introl eq_refl) eq_refl eq_refl).
Defined.

Lemma tick_over_vapi_witness :
  keyed (rows sample_world)
  /\ rows sample_world !! 1 = Some (sample_reminder 1 700 scheduled)
  /\ is_due 1000 (sample_reminder 1 700 scheduled) = true
  /\ exists s,
       rows (tick (vapi_env Vapi.sample_service (Vapi.always Vapi.created_201) 1000
                     None (fun _ => None) (fun _ _ => None)) sample_world) !! 1
       = Some (with_status s (sample_reminder 1 700 scheduled))
       /\ (s = completed \/ s = failed).
Proof.
  split; [exact sample_rows_keyed |]. split; [reflexivity |]. split; [reflexivity |].
  destruct (tick_over_vapi Vapi.sample_service (Vapi.always Vapi.created_201) 1000
              (fun _ => None) (fun _ _ => None) sample_world 1
              (sample_reminder 1 700 scheduled)
              sample_rows_keyed eq_refl eq_refl eq_refl) as (s & H1 & _ & _ & _ & H2).
  exists s. split; [| exact H1].
  apply H2. apply steady_without_faults; reflexivity.
Defined.

Lemma reopened_reminder_is_called_again_witness :
  keyed (rows sample_world)
  /\ rows sample_world !! 4 = Some (sample_reminder 4 100 completed)
  /\ trigger_at (sample_reminder 4 100 completed) <= now env_ok
  /\ fst (update_reminder 4 (set_status_body scheduled) (rows sample_world))
     = Sent (sample_reminder 4 100 scheduled)
  /\ 4 ∈ calls_of
          (added
             (with_rows
                (snd (update_reminder 4 (set_status_body scheduled) (rows sample_world)))
                sample_world)
             (tick env_ok
                (with_rows
                   (snd (update_reminder 4 (set_status_body scheduled)
                           (rows sample_world)))
                   sample_world))).
Proof.
  split; [exact sample_rows_keyed |]. split; [reflexivity |].
  split; [vm_compute; discriminate |].
  destruct (reopened_reminder_is_called_again env_ok sample_world 4
              (sample_reminder 4 100 completed) _ sample_rows_keyed eq_refl
              ltac:(vm_compute; discriminate) eq_refl
              ltac:(vm_compute; reflexivity)) as (H1 & _ & H2).
  split; [exact H1 | exact (H2 env_ok_steady)].
Defined.

Lemma deleted_reminder_is_never_called_witness :
  keyed (rows sample_world)
  /\ rows sample_world !! 1 = Some (sample_reminder 1 700 scheduled)
  /\ fst (delete_reminder 1 (rows sample_world)) = Sent tt
  /\ 1 ∉ calls_of
          (added
             (with_rows (snd (delete_reminder 1 (rows sample_world))) sample_world)
             (ticks [env_ok; env_ok]
                (with_rows (snd (delete_reminder 1 (rows sample_world))) sample_world))).
Proof.
  split; [exact sample_rows_keyed |]. split; [reflexivity |].
  destruct (deleted_reminder_is_never_called [env_ok; env_ok] sample_world 1
              (sample_reminder 1 700 scheduled)
              (added
                 (with_rows (snd (delete_reminder 1 (rows sample_world))) sample_world)
                 (ticks [env_ok; env_ok]
                    (with_rows (snd (delete_reminder 1 (rows sample_world)))
                       sample_world)))
              sample_rows_keyed eq_refl ltac:(vm_compute; reflexivity))
    as (H1 & H2 & _).
  split; [exact H1 | exact H2].
Defined.

End Examples.
